(** * The retrieval engine of m42-shop-etl and what surrounds it

    A shallow embedding of [vectorSearch], [rerankResults], [hybridSearch]
    and [keywordSearch] ([src/rag/vectorSearch.ts]), of the search
    endpoints that call them ([src/mcp/server.ts],
    [src/mcp/mcp-compliant-server.ts]), of the embedder they call
    ([src/services/embedder.ts]), of the splitting of chunks
    ([src/services/chunker.ts]) and of the [vector] column type
    ([src/db/schema.ts]), with the properties of the specification that
    are settled on them and further properties of the code.

    JavaScript numbers are IEEE 754 binary64 values: they are embedded as
    Rocq's primitive [float], whose operations are the same binary64
    operations (round to nearest, ties to even).  The PostgreSQL store is
    embedded as two tables held in lists; the operators it evaluates on
    behalf of the engine (pgvector's [<=>], pg_trgm's [similarity], [ILIKE])
    and the embedding service are an interface the engine is parameterised
    by.  The vector path is embedded for the calls that return (the store
    or the embedding service raising is not part of it).  The lexical
    statement of [keywordSearch] is embedded with the answer of the store
    to it, which is an error: [keywordSearch] and [hybridSearch] have an
    outcome, the results or the error raised.  The embedder is embedded
    with the failures of its service. *)

From Stdlib Require Import ZArith QArith Bool List Lia String Ascii.
From Stdlib Require Import Permutation Sorted.
From Stdlib Require Import Floats.
From Stdlib Require Uint63.
Import ListNotations.

Set Warnings "-inexact-float".
Set Implicit Arguments.

Local Close Scope Q_scope.
Local Open Scope string_scope.
Local Open Scope list_scope.
Local Open Scope float_scope.

(* ================================================================== *)
(** * Part I. Definitions                                               *)
(* ================================================================== *)

(** ** JavaScript numbers *)

Module JS.

Abbreviation number := float.

(** The number of an array length or of a non-negative integer. *)
Definition of_nat (n : nat) : number :=
  PrimFloat.of_uint63 (Uint63.of_Z (Z.of_nat n)).

Definition of_Z (z : Z) : number :=
  if (z <? 0)%Z then - PrimFloat.of_uint63 (Uint63.of_Z (- z))
  else PrimFloat.of_uint63 (Uint63.of_Z z).

(** [Math.max(a, b)]: NaN if either argument is NaN, and [+0] above [-0]. *)
Definition Math_max (a b : number) : number :=
  if is_nan a || is_nan b then nan
  else if a <? b then b
  else if b <? a then a
  else if get_sign a then b else a.

Definition Math_abs (a : number) : number := abs a.

(** Truthiness of a number: [0], [-0] and [NaN] are falsy. *)
Definition truthy (x : number) : bool := negb (is_nan x || is_zero x).

(** [x || 0]. *)
Definition or_zero (x : number) : number := if truthy x then x else 0.

(** [Array.prototype.sort(compareFn)] is stable.  [before b a] says that
    [compareFn(a, b) > 0], i.e. that [b] has to come before [a].  Each
    element is put in front of the part already sorted and moves behind the
    elements that have to come before it.  For a comparator that is
    consistent on the elements (here: no key is NaN) the stable sorted
    order is unique and this is it.  For keys that include NaN the order is
    left to the implementation by ECMAScript: the statements on the fusion
    assume keys that are numbers, and on the vector path a NaN key comes
    first from the store and stays first. *)
Section Sort.
Variable A : Type.
Variable before : A -> A -> bool.

Fixpoint insert (x : A) (l : list A) : list A :=
  match l with
  | [] => [x]
  | y :: l' => if before y x then y :: insert x l' else x :: l
  end.

Fixpoint sort (l : list A) : list A :=
  match l with
  | [] => []
  | x :: l' => insert x (sort l')
  end.

(** [a] may stand in front of [b]: [b] does not have to come before [a]. *)
Definition inOrder (a b : A) : Prop := before b a = false.

End Sort.

(** [(a, b) => key(b) - key(a)], the comparator of every sort of the
    engine: [b] comes before [a] when the difference is positive. *)
Definition descending (A : Type) (key : A -> number) (b a : A) : bool :=
  0 <? key b - key a.

(** A [Map<string, V>]: entries in insertion order; [set] on a present key
    replaces the value where the entry stands. *)
Section Map.
Variable V : Type.

Definition Map := list (string * V).

Fixpoint get (m : Map) (k : string) : option V :=
  match m with
  | [] => None
  | (k', v) :: m' => if String.eqb k' k then Some v else get m' k
  end.

Definition has (m : Map) (k : string) : bool :=
  match get m k with Some _ => true | None => false end.

Fixpoint set (m : Map) (k : string) (v : V) : Map :=
  match m with
  | [] => [(k, v)]
  | (k', v') :: m' =>
      if String.eqb k' k then (k', v) :: m' else (k', v') :: set m' k v
  end.

(** [new Map(pairs)] *)
Definition of_entries (l : list (string * V)) : Map :=
  fold_left (fun m kv => set m (fst kv) (snd kv)) l [].

Definition keys (m : Map) : list string := map fst m.

End Map.

(** [a === b] on [string | null]. *)
Definition strict_eq (a b : option string) : bool :=
  match a, b with
  | None, None => true
  | Some x, Some y => String.eqb x y
  | _, _ => false
  end.

End JS.

(** ** The store's types *)

Module Pg.

(** A [decimal(p, 2)] value, in hundredths: [1299] is [12.99]. The driver
    hands such a column to JavaScript as its decimal string, never empty. *)
Definition numeric := Z.

(** [parseFloat] of the decimal string of a [numeric]: the binary64 value
    nearest to [n / 100].  Both [n] and [100] are binary64 values (a
    [decimal(12,2)] has at most twelve digits), and binary64 division
    rounds the exact quotient to nearest. *)
Definition parseFloat (n : numeric) : JS.number := JS.of_Z n / 100.

(** The value of a [numeric] as a rational, for the store's comparisons. *)
Definition to_Q (n : numeric) : Q := (n # 100)%Q.

(** The order of [float8] (and [float4]) values in the store: NaN is equal
    to itself and above every other value. *)
Definition float8_lt (x y : float) : bool :=
  if is_nan y then negb (is_nan x)
  else if is_nan x then false
  else x <? y.

Definition float8_gt (x y : float) : bool := float8_lt y x.

(** [GREATEST(a, b)] *)
Definition greatest2 (a b : float) : float := if float8_lt a b then b else a.

(** [ORDER BY key DESC]: the rows in non-increasing order of the key; rows
    of equal key are kept in table order. *)
Definition order_by_desc (A : Type) (key : A -> float) (rows : list A) : list A :=
  JS.sort (fun b a => float8_lt (key a) (key b)) rows.

(** [LIMIT n OFFSET k] *)
Definition limit_offset (A : Type) (n k : nat) (rows : list A) : list A :=
  firstn n (skipn k rows).

Definition vector := list float.

(** The error of a statement that the store refuses: an identifier that
    names no column (SQLSTATE 42703, [column "..." does not exist]). *)
Inductive error := undefined_column (identifier : string).

(** What awaiting a statement gives: the rows, or the error raised. *)
Inductive outcome (A : Type) : Type :=
| returned (a : A)
| raised (e : error).

Arguments returned {A} a.
Arguments raised {A} e.

(** A bare identifier in [ORDER BY] is looked up among the names of the
    output columns and then among the columns of the table. *)
Definition names (identifier : string) (columns : list string) : bool :=
  existsb (String.eqb identifier) columns.

(** [.limit(n).offset(k)] of the query builder: a clause is written for a
    number that is truthy, so [limit(0)] sends no [LIMIT] and every row
    behind the offset is returned. *)
Definition builder_limit_offset (A : Type) (n k : nat) (rows : list A)
  : list A :=
  if (n =? 0)%nat then skipn k rows else firstn n (skipn k rows).

End Pg.

(** ** The schema ([src/db/schema.ts]) *)

Inductive productTypeEnum :=
  fashion | furniture | electronics | food | beauty | sports | toys | books | other.

Inductive availabilityEnum :=
  in_stock | out_of_stock | on_request | preorder | discontinued.

Definition productType_label (t : productTypeEnum) : string :=
  match t with
  | fashion => "fashion" | furniture => "furniture"
  | electronics => "electronics" | food => "food" | beauty => "beauty"
  | sports => "sports" | toys => "toys" | books => "books" | other => "other"
  end.

Definition availability_label (a : availabilityEnum) : string :=
  match a with
  | in_stock => "in_stock" | out_of_stock => "out_of_stock"
  | on_request => "on_request" | preorder => "preorder"
  | discontinued => "discontinued"
  end.

(** The columns of [products] that the engine reads. A nullable column is
    an [option]. *)
Module products.
Record row := mk {
  id : string;
  shopId : string;
  url : string;
  name : string;
  description : option string;
  productType : option productTypeEnum;
  category : option string;
  subcategory : option string;
  priceNumeric : option Pg.numeric;
  availability : option availabilityEnum;
  ratingValue : option Pg.numeric;
  ratingCount : option Z;
  brand : option string;
  claims : list string;
  specifications : list (string * string);
  images : list string
}.

(** The names of all the columns of the table, lines 86-143 of the
    schema. *)
Definition columns : list string :=
  ["id"; "shop_id"; "url"; "name"; "description"; "product_type";
   "category"; "subcategory"; "tags"; "price_numeric"; "price_original";
   "currency"; "availability"; "rating_value"; "rating_count"; "brand";
   "sku"; "ean"; "claims"; "warnings"; "specifications"; "attributes";
   "images"; "videos"; "locale"; "page_markdown"; "extracted_data";
   "version_hash"; "last_crawled_at"; "created_at"; "updated_at"].
End products.

Module productChunks.
Record row := mk {
  id : string;
  productId : string;
  chunkType : option string;
  chunkContent : string;
  embedding : option Pg.vector;
  position : option Z
}.
End productChunks.

(** The two tables. [productId] is a foreign key in the schema; the engine
    reads the tables in separate queries and copes with a chunk whose
    product it does not find, so the embedding does not assume it. *)
Record Database := mkDatabase {
  products_rows : list products.row;
  productChunks_rows : list productChunks.row
}.

(** ** Options and results ([src/rag/vectorSearch.ts], lines 5-41) *)

Module SearchFilters.
(** A bound of [priceRange] reaches the store as [min.toString()] and is
    compared there as a decimal: it is carried as the rational it denotes. *)
Record t := mk {
  shopId : option string;
  priceRange : option (option Q * option Q);
  categories : option (list string);
  brands : option (list string);
  availability : option (list string);
  productTypes : option (list string)
}.
Definition empty : t := mk None None None None None None.
End SearchFilters.

Module SearchOptions.
(** [SearchOptions & { vectorWeight?, keywordWeight? }]; an absent field is
    [None].  [limit] and [offset] go to [LIMIT] and [OFFSET] of the store,
    which takes natural numbers. *)
Record t := mk {
  query : string;
  limit : option nat;
  offset : option nat;
  threshold : option JS.number;
  filters : option SearchFilters.t;
  includeChunks : option bool;
  rerank : option bool;
  vectorWeight : option JS.number;
  keywordWeight : option JS.number
}.
End SearchOptions.

Module ChunkResult.
Record t := mk {
  chunkId : string;
  chunkType : option string;
  content : string;
  similarity : JS.number;
  position : Z
}.
End ChunkResult.

Record Rating := mkRating { value : JS.number; count : option Z }.

Record Metadata := mkMetadata {
  md_subcategory : option string;
  md_productType : option productTypeEnum;
  md_availability : option availabilityEnum;
  md_claims : list string;
  md_specifications : list (string * string);
  md_images : list string;
  md_rating : option Rating
}.

Module SearchResult.
Record t := mk {
  productId : string;
  name : string;
  description : option string;
  url : string;
  price : option Pg.numeric;
  brand : option string;
  category : option string;
  similarity : JS.number;
  chunks : option (list ChunkResult.t);
  metadata : Metadata
}.
(** [{ ...result, similarity: score }] *)
Definition with_similarity (r : t) (score : JS.number) : t :=
  mk (productId r) (name r) (description r) (url r) (price r) (brand r)
     (category r) score (chunks r) (metadata r).
End SearchResult.

(** ** External collaborators

    What the engine calls and does not implement: the embedding service
    ([generateEmbeddings], one text), pgvector's cosine distance [<=>],
    pg_trgm's [similarity] and the [ILIKE] operator. *)
Class Collaborators := {
  generateEmbedding : string -> Pg.vector;
  cosine_distance : Pg.vector -> Pg.vector -> float;
  similarity : string -> string -> float;
  ilike : string -> string -> bool
}.

(** ** Filter conditions (lines 66-106 and 377-391) *)

Module Filter.

(** The conditions built by drizzle's [eq], [gte], [lte] and [inArray]; a
    condition on a NULL column is not true.  On the two enum columns
    [inArray] compares labels.  The conditions are embedded for values
    that the store accepts in the column: a [shopId] that is a uuid, and
    for [availability] and [productTypes] labels of the enum.  Any other
    value makes the store refuse the statement, which is one of the calls
    of the vector path that do not return; here such a value matches no
    row. *)
Definition condition := products.row -> bool.

Definition eq_shopId (s : string) : condition :=
  fun p => String.eqb (products.shopId p) s.

Definition gte_price (min : Q) : condition :=
  fun p => match products.priceNumeric p with
           | Some n => Qle_bool min (Pg.to_Q n)
           | None => false
           end.

Definition lte_price (max : Q) : condition :=
  fun p => match products.priceNumeric p with
           | Some n => Qle_bool (Pg.to_Q n) max
           | None => false
           end.

Definition inArray (column : option string) (values : list string) : bool :=
  match column with
  | Some v => existsb (String.eqb v) values
  | None => false
  end.

Definition in_categories (l : list string) : condition :=
  fun p => inArray (products.category p) l.

Definition in_brands (l : list string) : condition :=
  fun p => inArray (products.brand p) l.

Definition in_availability (l : list string) : condition :=
  fun p => inArray (option_map availability_label (products.availability p)) l.

Definition in_productTypes (l : list string) : condition :=
  fun p => inArray (option_map productType_label (products.productType p)) l.

(** [if (filters.shopId)]: a non-empty string. *)
Definition on_shopId (f : SearchFilters.t) : list condition :=
  match SearchFilters.shopId f with
  | Some s => if String.eqb s "" then [] else [eq_shopId s]
  | None => []
  end.

(** [if (filters.priceRange)], each bound unless [undefined]. *)
Definition on_priceRange (f : SearchFilters.t) : list condition :=
  match SearchFilters.priceRange f with
  | Some (min, max) =>
      match min with Some m => [gte_price m] | None => [] end ++
      match max with Some m => [lte_price m] | None => [] end
  | None => []
  end.

(** [if (filters.xs?.length)]: present and not empty. *)
Definition on_list (xs : option (list string))
  (cond : list string -> condition) : list condition :=
  match xs with
  | Some (x :: l) => [cond (x :: l)]
  | _ => []
  end.

(** [filterConditions] of [vectorSearch]. *)
Definition vectorConditions (f : SearchFilters.t) : list condition :=
  on_shopId f ++ on_priceRange f
  ++ on_list (SearchFilters.categories f) in_categories
  ++ on_list (SearchFilters.brands f) in_brands
  ++ on_list (SearchFilters.availability f) in_availability
  ++ on_list (SearchFilters.productTypes f) in_productTypes.

(** [filterConditions] of [keywordSearch]: where [vectorSearch] goes on
    to the list-valued fields, [keywordSearch] has the comment
    [// ... other filters] and nothing else. *)
Definition keywordConditions (f : SearchFilters.t) : list condition :=
  on_shopId f ++ on_priceRange f.

(** The predicate as section 4.1 of the specification words it: every
    present field is a conjunct, a list-valued field is a membership test,
    the bounds of [priceRange] are inclusive and each optional, and an
    empty field constrains nothing. *)
Definition member (xs : option (list string)) (column : option string) : bool :=
  match xs with
  | Some (x :: l) => inArray column (x :: l)
  | _ => true
  end.

Definition satisfies (f : SearchFilters.t) (p : products.row) : bool :=
  match SearchFilters.shopId f with
  | Some s => String.eqb s "" || String.eqb (products.shopId p) s
  | None => true
  end
  && match SearchFilters.priceRange f with
     | Some (min, max) =>
         match min with Some m => gte_price m p | None => true end
         && match max with Some m => lte_price m p | None => true end
     | None => true
     end
  && member (SearchFilters.categories f) (products.category p)
  && member (SearchFilters.brands f) (products.brand p)
  && member (SearchFilters.availability f)
       (option_map availability_label (products.availability p))
  && member (SearchFilters.productTypes f)
       (option_map productType_label (products.productType p)).

End Filter.

(** ** The engine *)

(** A row of the chunk query of [vectorSearch] (lines 109-131). *)
Module ChunkRow.
Record t := mk {
  productId : string;
  chunkId : string;
  chunkType : option string;
  chunkContent : string;
  position : option Z;
  similarity : float
}.
End ChunkRow.

(** An entry of [productScores] (lines 134-138). *)
Module Scores.
Record t := mk {
  maxSimilarity : JS.number;
  avgSimilarity : JS.number;
  chunks : list ChunkResult.t
}.
End Scores.

(** An element of [topProductIds] (lines 164-172). *)
Module TopProduct.
Record t := mk {
  productId : string;
  combinedScore : JS.number;
  chunks : list ChunkResult.t
}.
End TopProduct.

Section Engine.
Context {ext : Collaborators}.

(** *** [vectorSearch]: the chunk query (lines 109-131) *)

(** [1 - (embedding <=> query::vector)]; NULL for a NULL embedding. *)
Definition chunkSimilarity (queryEmbedding : Pg.vector)
  (c : productChunks.row) : option float :=
  option_map (fun e => 1 - cosine_distance e queryEmbedding)
             (productChunks.embedding c).

(** [productId IN (SELECT id FROM products WHERE condition)] *)
Definition productIn (db : Database) (productId : string)
  (c : Filter.condition) : bool :=
  existsb (fun p => String.eqb (products.id p) productId && c p)
          (products_rows db).

(** The selected columns of a chunk, with its similarity. *)
Definition selectChunk (c : productChunks.row) (s : float) : ChunkRow.t :=
  ChunkRow.mk (productChunks.productId c) (productChunks.id c)
    (productChunks.chunkType c) (productChunks.chunkContent c)
    (productChunks.position c) s.

(** The [WHERE] clause on one chunk: its similarity, if it is above the
    threshold and its product meets every condition. *)
Definition whereChunk (db : Database) (queryEmbedding : Pg.vector)
  (threshold : float) (conditions : list Filter.condition)
  (c : productChunks.row) : list ChunkRow.t :=
  match chunkSimilarity queryEmbedding c with
  | Some s =>
      if Pg.float8_gt s threshold
         && forallb (productIn db (productChunks.productId c)) conditions
      then [selectChunk c s]
      else []
  | None => []
  end.

(** The rows that pass the [WHERE] clause, in table order. *)
Definition matchedChunks (db : Database) (queryEmbedding : Pg.vector)
  (threshold : float) (conditions : list Filter.condition)
  : list ChunkRow.t :=
  flat_map (whereChunk db queryEmbedding threshold conditions)
           (productChunks_rows db).

(** [ORDER BY similarity DESC LIMIT limit * 3 OFFSET offset] *)
Definition chunkQuery (db : Database) (queryEmbedding : Pg.vector)
  (threshold : float) (conditions : list Filter.condition)
  (limit offset : nat) : list ChunkRow.t :=
  Pg.limit_offset (limit * 3) offset
    (Pg.order_by_desc ChunkRow.similarity
       (matchedChunks db queryEmbedding threshold conditions)).

(** *** [vectorSearch]: aggregation per product (lines 133-172) *)

Definition emptyScores : Scores.t := Scores.mk 0 0 [].

Definition toChunkResult (chunk : ChunkRow.t) : ChunkResult.t :=
  ChunkResult.mk (ChunkRow.chunkId chunk) (ChunkRow.chunkType chunk)
    (ChunkRow.chunkContent chunk) (ChunkRow.similarity chunk)
    (match ChunkRow.position chunk with Some z => z | None => 0%Z end).

(** [chunks.reduce((sum, c) => sum + c.similarity, 0) / chunks.length] *)
Definition average (chunks : list ChunkResult.t) : JS.number :=
  fold_left (fun sum c => sum + ChunkResult.similarity c) chunks 0
  / JS.of_nat (List.length chunks).

(** The body of [for (const chunk of chunkResults)]. *)
Definition addChunk (productScores : JS.Map Scores.t) (chunk : ChunkRow.t)
  : JS.Map Scores.t :=
  let existing :=
    match JS.get productScores (ChunkRow.productId chunk) with
    | Some e => e
    | None => emptyScores
    end in
  let maxSimilarity :=
    JS.Math_max (Scores.maxSimilarity existing) (ChunkRow.similarity chunk) in
  let chunks := Scores.chunks existing ++ [toChunkResult chunk] in
  JS.set productScores (ChunkRow.productId chunk)
    (Scores.mk maxSimilarity (average chunks) chunks).

Definition aggregate (chunkResults : list ChunkRow.t) : JS.Map Scores.t :=
  fold_left addChunk chunkResults [].

Definition combinedScore (scores : Scores.t) : JS.number :=
  Scores.maxSimilarity scores * 0.7 + Scores.avgSimilarity scores * 0.3.

Definition topProducts (productScores : JS.Map Scores.t) (limit : nat)
  : list TopProduct.t :=
  firstn limit
    (JS.sort (JS.descending TopProduct.combinedScore)
       (map (fun e => TopProduct.mk (fst e) (combinedScore (snd e))
                        (Scores.chunks (snd e)))
            productScores)).

(** *** [vectorSearch]: assembling the results (lines 179-232) *)

(** [SELECT ... FROM products WHERE id IN (ids)] *)
Definition productDetails (db : Database) (ids : list string)
  : list products.row :=
  filter (fun p => existsb (String.eqb (products.id p)) ids)
         (products_rows db).

Definition ratingOf (p : products.row) : option Rating :=
  match products.ratingValue p with
  | Some v => Some (mkRating (Pg.parseFloat v) (products.ratingCount p))
  | None => None
  end.

Definition metadataOf (p : products.row) : Metadata :=
  mkMetadata (products.subcategory p) (products.productType p)
    (products.availability p) (products.claims p)
    (products.specifications p) (products.images p) (ratingOf p).

(** [item.chunks.sort((a, b) => b.similarity - a.similarity).slice(0, 3)] *)
Definition topChunks (chunks : list ChunkResult.t) : list ChunkResult.t :=
  firstn 3 (JS.sort (JS.descending ChunkResult.similarity) chunks).

(** The callback of [topProductIds.map]: [null] is [None]. *)
Definition buildResult (productMap : JS.Map products.row)
  (includeChunks : bool) (item : TopProduct.t) : option SearchResult.t :=
  match JS.get productMap (TopProduct.productId item) with
  | None => None
  | Some product =>
      Some (SearchResult.mk (products.id product) (products.name product)
              (products.description product) (products.url product)
              (products.priceNumeric product) (products.brand product)
              (products.category product) (TopProduct.combinedScore item)
              (if includeChunks then Some (topChunks (TopProduct.chunks item))
               else None)
              (metadataOf product))
  end.

(** [.filter(Boolean)] over the mapped array. *)
Definition filterBoolean (A : Type) (l : list (option A)) : list A :=
  flat_map (fun x => match x with Some a => [a] | None => [] end) l.

Definition assemble (db : Database) (includeChunks : bool)
  (topProductIds : list TopProduct.t) : list SearchResult.t :=
  let details := productDetails db (map TopProduct.productId topProductIds) in
  let productMap := JS.of_entries (map (fun p => (products.id p, p)) details) in
  filterBoolean (map (buildResult productMap includeChunks) topProductIds).

(** *** [rerankResults] (lines 248-307) *)

(** The body of [for (const selected of reranked)], lines 277-284. *)
Definition pairSimilarity (selected candidate : SearchResult.t) : JS.number :=
  let s0 := 0 in
  let s1 :=
    if JS.strict_eq (SearchResult.category selected)
                    (SearchResult.category candidate)
    then s0 + 0.3 else s0 in
  let s2 :=
    if JS.strict_eq (SearchResult.brand selected)
                    (SearchResult.brand candidate)
    then s1 + 0.3 else s1 in
  match SearchResult.price selected, SearchResult.price candidate with
  | Some ps, Some pc =>
      let priceDiff := JS.Math_abs (Pg.parseFloat ps - Pg.parseFloat pc) in
      let maxPrice := JS.Math_max (Pg.parseFloat ps) (Pg.parseFloat pc) in
      s2 + 0.4 * (1 - priceDiff / maxPrice)
  | _, _ => s2
  end.

(** [maxSimilarityToSelected] after the loop over [reranked]. *)
Definition maxSimilarityToSelected (reranked : list SearchResult.t)
  (candidate : SearchResult.t) : JS.number :=
  fold_left (fun m selected => JS.Math_max m (pairSimilarity selected candidate))
            reranked 0.

Definition mmrScore (lambda : JS.number) (reranked : list SearchResult.t)
  (candidate : SearchResult.t) : JS.number :=
  lambda * SearchResult.similarity candidate
  - (1 - lambda) * maxSimilarityToSelected reranked candidate.

(** The loop [for (let i = 0; i < remaining.length; i++)], from index [i]
    on, over the candidates not yet seen; [bestIndex] is [None] for [-1]. *)
Fixpoint scan (lambda : JS.number) (reranked : list SearchResult.t)
  (candidates : list SearchResult.t) (i : nat)
  (best : JS.number * option nat) : JS.number * option nat :=
  match candidates with
  | [] => best
  | candidate :: rest =>
      let s := mmrScore lambda reranked candidate in
      scan lambda reranked rest (S i)
           (if fst best <? s then (s, Some i) else best)
  end.

Definition selectBest (lambda : JS.number)
  (reranked remaining : list SearchResult.t) : option nat :=
  snd (scan lambda reranked remaining 0 (neg_infinity, None)).

(** [remaining.splice(i, 1)] *)
Definition splice1 (A : Type) (i : nat) (l : list A) : list A :=
  firstn i l ++ skipn (S i) l.

(** The [while] loop; [fuel] bounds the number of iterations, [total] is
    [results.length]. *)
Fixpoint mmrLoop (fuel : nat) (lambda : JS.number) (total : nat)
  (reranked remaining : list SearchResult.t) : list SearchResult.t :=
  match fuel with
  | O => reranked
  | S fuel' =>
      if (0 <? List.length remaining)%nat
         && (List.length reranked <? total)%nat
      then
        match selectBest lambda reranked remaining with
        | Some bestIndex =>
            match nth_error remaining bestIndex with
            | Some best =>
                mmrLoop fuel' lambda total (reranked ++ [best])
                        (splice1 bestIndex remaining)
            | None => reranked
            end
        | None => reranked
        end
      else reranked
  end.

(** Every iteration that does not leave the loop removes a candidate, so
    [results.length] iterations are enough (lemma [mmrLoop_fuel]). *)
Definition rerankResults (_query : string) (results : list SearchResult.t)
  (lambda : JS.number) : list SearchResult.t :=
  match results with
  | [] => []
  | first :: remaining =>
      mmrLoop (List.length results) lambda (List.length results)
              [first] remaining
  end.

Definition default_lambda : JS.number := 0.7.

(** *** [vectorSearch] (lines 46-242) *)

Definition orDefault (A : Type) (o : option A) (d : A) : A :=
  match o with Some a => a | None => d end.

(** Lines 59-131: the embedding of the query and the chunk query. *)
Definition chunkResults (db : Database) (options : SearchOptions.t)
  : list ChunkRow.t :=
  let query := SearchOptions.query options in
  let limit := orDefault (SearchOptions.limit options) 10%nat in
  let offset := orDefault (SearchOptions.offset options) 0%nat in
  let threshold := orDefault (SearchOptions.threshold options) 0.5 in
  let filters := orDefault (SearchOptions.filters options) SearchFilters.empty in
  let queryEmbedding := generateEmbedding query in
  chunkQuery db queryEmbedding threshold (Filter.vectorConditions filters)
             limit offset.

(** Lines 133-242: from the rows of the chunk query to the results. *)
Definition resultsFrom (db : Database) (options : SearchOptions.t)
  (chunkResults : list ChunkRow.t) : list SearchResult.t :=
  let query := SearchOptions.query options in
  let limit := orDefault (SearchOptions.limit options) 10%nat in
  let includeChunks := orDefault (SearchOptions.includeChunks options) false in
  let rerank := orDefault (SearchOptions.rerank options) false in
  let topProductIds := topProducts (aggregate chunkResults) limit in
  match topProductIds with
  | [] => []
  | _ :: _ =>
      let results := assemble db includeChunks topProductIds in
      if rerank && (0 <? List.length results)%nat
      then rerankResults query results default_lambda
      else results
  end.

Definition vectorSearch (db : Database) (options : SearchOptions.t)
  : list SearchResult.t :=
  resultsFrom db options (chunkResults db options).

(** *** [keywordSearch] (lines 371-461) *)

Definition ilikeNullable (column : option string) (pattern : string) : bool :=
  match column with Some s => ilike s pattern | None => false end.

(** The [WHERE] clause as the store reads it, lines 424-434.  [and(sql`a
    OR b OR c OR d`, ...filterConditions)] writes its arguments joined by
    [and] inside one pair of parentheses and puts none around the raw
    text; [AND] binds tighter than [OR], so the conditions are conjuncts
    of the last alternative, [brand ILIKE pattern], and of nothing else.
    A row passes when the clause is true, and a comparison with NULL is
    not. *)
Definition keywordWhere (query : string) (conditions : list Filter.condition)
  (p : products.row) : bool :=
  let pattern := ("%" ++ query ++ "%")%string in
  ilike (products.name p) pattern
  || ilikeNullable (products.description p) pattern
  || ilikeNullable (products.category p) pattern
  || (ilikeNullable (products.brand p) pattern
      && forallb (fun c => c p) conditions).

(** [COALESCE(column, '')] *)
Definition coalesce (column : option string) : string :=
  match column with Some s => s | None => "" end.

(** The selected score, lines 414-421. *)
Definition textSimilarity (query : string) (p : products.row) : float :=
  Pg.greatest2
    (Pg.greatest2
       (Pg.greatest2 (similarity (products.name p) query)
                     (similarity (coalesce (products.description p)) query))
       (similarity (coalesce (products.category p)) query))
    (similarity (coalesce (products.brand p)) query).

(** The names of the output columns of the select list, lines 398-421.
    The query builder writes the selected expressions without [AS] (it
    reads the columns of a row by position): a column goes by its own
    name and the selected [GREATEST(...)] by the name of its function.
    The key [similarity] of the JavaScript object is not part of the
    statement. *)
Definition keywordOutputs : list string :=
  ["id"; "name"; "description"; "url"; "price_numeric"; "brand";
   "category"; "subcategory"; "product_type"; "availability"; "claims";
   "specifications"; "images"; "rating_value"; "rating_count"; "greatest"].

(** The identifier of [ORDER BY], line 435: [desc(sql`similarity`)]. *)
Definition keywordOrderBy : string := "similarity".

(** The statement of lines 396-437, awaited.  The store looks the
    identifier of [ORDER BY] up before it reads a row: when it names no
    output column and no column of [products] the statement is refused.
    Otherwise the rows that pass the [WHERE] clause are returned with
    their score, in the order of the selected score (of which the
    identifier is then taken to be the name), cut by [LIMIT] and
    [OFFSET]. *)
Definition keywordRows (db : Database) (query : string)
  (conditions : list Filter.condition) (limit offset : nat)
  : Pg.outcome (list (products.row * float)) :=
  if Pg.names keywordOrderBy (keywordOutputs ++ products.columns)
  then
    Pg.returned
      (Pg.builder_limit_offset limit offset
         (Pg.order_by_desc snd
            (map (fun p => (p, textSimilarity query p))
                 (filter (keywordWhere query conditions) (products_rows db)))))
  else Pg.raised (Pg.undefined_column keywordOrderBy).

Definition keywordResult (row : products.row * float) : SearchResult.t :=
  let product := fst row in
  SearchResult.mk (products.id product) (products.name product)
    (products.description product) (products.url product)
    (products.priceNumeric product) (products.brand product)
    (products.category product) (JS.or_zero (snd row)) None
    (metadataOf product).

(** [keywordSearch]: an error of the store is not caught. *)
Definition keywordSearch (db : Database) (options : SearchOptions.t)
  : Pg.outcome (list SearchResult.t) :=
  let query := SearchOptions.query options in
  let limit := orDefault (SearchOptions.limit options) 10%nat in
  let offset := orDefault (SearchOptions.offset options) 0%nat in
  let filters := orDefault (SearchOptions.filters options) SearchFilters.empty in
  match keywordRows db query (Filter.keywordConditions filters) limit offset with
  | Pg.returned results => Pg.returned (map keywordResult results)
  | Pg.raised e => Pg.raised e
  end.

(** *** [hybridSearch] (lines 312-366) *)

(** [combinedScores] and [resultMap]. *)
Definition Fusion : Type := JS.Map JS.number * JS.Map SearchResult.t.

(** The body of [for (const result of vectorResults)]. *)
Definition addVectorResult (vectorWeight : JS.number) (st : Fusion)
  (result : SearchResult.t) : Fusion :=
  (JS.set (fst st) (SearchResult.productId result)
          (SearchResult.similarity result * vectorWeight),
   JS.set (snd st) (SearchResult.productId result) result).

(** [combinedScores.get(id) || 0] *)
Definition currentScore (combinedScores : JS.Map JS.number) (id : string)
  : JS.number :=
  match JS.get combinedScores id with
  | Some s => JS.or_zero s
  | None => 0
  end.

(** The body of [for (const result of keywordResults)]. *)
Definition addKeywordResult (keywordWeight : JS.number) (st : Fusion)
  (result : SearchResult.t) : Fusion :=
  (JS.set (fst st) (SearchResult.productId result)
          (currentScore (fst st) (SearchResult.productId result)
           + SearchResult.similarity result * keywordWeight),
   if JS.has (snd st) (SearchResult.productId result) then snd st
   else JS.set (snd st) (SearchResult.productId result) result).

Definition fuse (vectorWeight keywordWeight : JS.number)
  (vectorResults keywordResults : list SearchResult.t) : Fusion :=
  fold_left (addKeywordResult keywordWeight) keywordResults
    (fold_left (addVectorResult vectorWeight) vectorResults ([], [])).

(** [searchOptions.limit || 10] *)
Definition limitOr10 (limit : option nat) : nat :=
  match limit with
  | Some (S n) => S n
  | _ => 10%nat
  end.

(** Lines 355-361: sort, slice, and look every id up in [resultMap]. *)
Definition sortedResults (st : Fusion) (limit : option nat)
  : list SearchResult.t :=
  filterBoolean
    (map (fun e => option_map (fun r => SearchResult.with_similarity r (snd e))
                              (JS.get (snd st) (fst e)))
         (firstn (limitOr10 limit)
                 (JS.sort (JS.descending snd) (fst st)))).

(** Lines 334-361: the fusion of the two result lists, once both
    searches have returned. *)
Definition combine (vectorWeight keywordWeight : JS.number)
  (limit : option nat) (vectorResults keywordResults : list SearchResult.t)
  : list SearchResult.t :=
  sortedResults (fuse vectorWeight keywordWeight vectorResults keywordResults)
                limit.

(** [{ ...searchOptions, query, rerank: false }] *)
Definition withoutRerank (o : SearchOptions.t) : SearchOptions.t :=
  SearchOptions.mk (SearchOptions.query o) (SearchOptions.limit o)
    (SearchOptions.offset o) (SearchOptions.threshold o)
    (SearchOptions.filters o) (SearchOptions.includeChunks o) (Some false)
    (SearchOptions.vectorWeight o) (SearchOptions.keywordWeight o).

(** [hybridSearch]: the two searches are awaited one after the other,
    and an error of the second is not caught: nothing is fused then. *)
Definition hybridSearch (db : Database) (options : SearchOptions.t)
  : Pg.outcome (list SearchResult.t) :=
  let vectorWeight := orDefault (SearchOptions.vectorWeight options) 0.7 in
  let keywordWeight := orDefault (SearchOptions.keywordWeight options) 0.3 in
  let vectorResults := vectorSearch db (withoutRerank options) in
  match keywordSearch db options with
  | Pg.returned keywordResults =>
      Pg.returned
        (combine vectorWeight keywordWeight (SearchOptions.limit options)
                 vectorResults keywordResults)
  | Pg.raised e => Pg.raised e
  end.

End Engine.

(** ** A small store to run the engine on

    Concrete collaborators for the runs shown below: the cosine distance
    computed in binary64, a [LIKE] matcher with [%], [_] and the escape
    character, case-insensitive on ASCII letters, and a coarse stand-in
    for pg_trgm's [similarity] (the runs shown do not depend on its
    values). *)
Module Fixture.

Fixpoint dot (u v : Pg.vector) : float :=
  match u, v with
  | x :: u', y :: v' => x * y + dot u' v'
  | _, _ => 0
  end.

Definition cosine_distance (u v : Pg.vector) : float :=
  1 - dot u v / sqrt (dot u u * dot v v).

Definition lower (c : ascii) : ascii :=
  let n := nat_of_ascii c in
  if ((65 <=? n) && (n <=? 90))%nat then ascii_of_nat (n + 32) else c.

Definition eq_ci (a b : ascii) : bool := Ascii.eqb (lower a) (lower b).

Fixpoint like (pattern : list ascii) (s : list ascii) {struct pattern} : bool :=
  match pattern with
  | [] => match s with [] => true | _ => false end
  | "%"%char :: pattern' =>
      (fix from (s : list ascii) : bool :=
         like pattern' s
         || match s with [] => false | _ :: s' => from s' end) s
  | "_"%char :: pattern' =>
      match s with [] => false | _ :: s' => like pattern' s' end
  | "\"%char :: c :: pattern' =>
      match s with [] => false | d :: s' => eq_ci c d && like pattern' s' end
  | c :: pattern' =>
      match s with [] => false | d :: s' => eq_ci c d && like pattern' s' end
  end.

Definition ilike (s pattern : string) : bool :=
  like (list_ascii_of_string pattern) (list_ascii_of_string s).

Definition similarity (s query : string) : float :=
  if ilike s query then 1
  else if ilike s ("%" ++ query ++ "%")%string then 0.5
  else 0.

(** The embedding of every query. *)
Definition embedding : Pg.vector := [1; 0].

#[export] Instance collaborators : Collaborators :=
  Build_Collaborators (fun _ => embedding) cosine_distance similarity ilike.

Definition product (id : string) (category brand : option string)
  (price : option Pg.numeric) : products.row :=
  products.mk id "shop-1" ("https://shop.example/" ++ id)%string id None None
    category None price None None None brand [] [] [].

Definition chunk (id productId : string) (embedding : Pg.vector)
  : productChunks.row :=
  productChunks.mk id productId (Some "main") "text" (Some embedding) (Some 0%Z).

Definition options (query : string) : SearchOptions.t :=
  SearchOptions.mk query None None None None None None None None.

Definition result (id : string) (category brand : option string)
  (price : option Pg.numeric) (similarity : JS.number) : SearchResult.t :=
  SearchResult.mk id id None "" price brand category similarity None
    (mkMetadata None None None [] [] [] None).

Definition ids (l : list SearchResult.t) : list string :=
  map SearchResult.productId l.

End Fixture.

(** ** Auxiliary definitions of the statements *)

(** The options with [rerank] set. *)
Definition withRerank (rerank : option bool) (o : SearchOptions.t)
  : SearchOptions.t :=
  SearchOptions.mk (SearchOptions.query o) (SearchOptions.limit o)
    (SearchOptions.offset o) (SearchOptions.threshold o)
    (SearchOptions.filters o) (SearchOptions.includeChunks o) rerank
    (SearchOptions.vectorWeight o) (SearchOptions.keywordWeight o).

(** The options with [offset] set. *)
Definition withOffset (offset : option nat) (o : SearchOptions.t)
  : SearchOptions.t :=
  SearchOptions.mk (SearchOptions.query o) (SearchOptions.limit o)
    offset (SearchOptions.threshold o)
    (SearchOptions.filters o) (SearchOptions.includeChunks o)
    (SearchOptions.rerank o)
    (SearchOptions.vectorWeight o) (SearchOptions.keywordWeight o).

(** Classification of a binary64 value through its specification. *)
Definition SFnan (x : spec_float) : bool :=
  match x with S754_nan => true | _ => false end.

Definition SFpos (x : spec_float) : bool := SFltb (S754_zero false) x.

Definition SFzero (x : spec_float) : bool :=
  match x with S754_zero _ => true | _ => false end.

Definition SFfinite (x : spec_float) : bool :=
  match x with S754_zero _ | S754_finite _ _ _ => true | _ => false end.

(** [a] and [b] are the same number: equal as numbers ([0] and [-0] are),
    or both NaN. *)
Definition same_number (a b : JS.number) : bool :=
  (a =? b) || (is_nan a && is_nan b).

Definition SFsame (x y : spec_float) : bool :=
  SFeqb x y || (SFnan x && SFnan y).

(** Following the specification (section 4.5): [finalScore =
    vectorComponent * vectorWeight + lexicalComponent * keywordWeight],
    where a product missing from one side contributes 0 from that side. *)
Definition component (r : option SearchResult.t) : JS.number :=
  match r with
  | Some r => SearchResult.similarity r
  | None => 0
  end.

Definition finalScore_spec (vectorWeight keywordWeight : JS.number)
  (v k : option SearchResult.t) : JS.number :=
  component v * vectorWeight + component k * keywordWeight.

(** The result of [results] for a product id, if any. *)
Definition lookup (id : string) (results : list SearchResult.t)
  : option SearchResult.t :=
  find (fun r => String.eqb (SearchResult.productId r) id) results.

(** The fused score of a product from its entries on the two sides: the
    vector term enters through [combinedScores.get(id) || 0]; a product
    without a lexical entry keeps its vector term. *)
Definition fusedScore (vectorWeight keywordWeight : JS.number)
  (v k : option SearchResult.t) : option JS.number :=
  match v, k with
  | Some rv, Some rk =>
      Some (JS.or_zero (SearchResult.similarity rv * vectorWeight)
            + SearchResult.similarity rk * keywordWeight)
  | Some rv, None => Some (SearchResult.similarity rv * vectorWeight)
  | None, Some rk => Some (0 + SearchResult.similarity rk * keywordWeight)
  | None, None => None
  end.

(** Descending order of the scores as the engine's comparator sees it: an
    element is not followed by one whose score exceeds its own by a
    positive difference. *)
Definition descendingBy (A : Type) (key : A -> JS.number) (l : list A) : Prop :=
  Sorted (fun a b => (0 <? key b - key a) = false) l.

(** Following the specification (section 4.6): the pairwise similarity of
    two results is 0.3 for the same category plus 0.3 for the same brand
    plus [0.4 * (1 - |priceA - priceB| / max(priceA, priceB))] when both
    have a price, with no price contribution otherwise.  Two categories
    (two brands) are the same when they are equal as the code compares
    them, two absent ones included. *)
Definition indicator (b : bool) : JS.number := if b then 1 else 0.

Definition pairwiseSimilarity_spec (a b : SearchResult.t) : JS.number :=
  0.3 * indicator (JS.strict_eq (SearchResult.category a)
                                (SearchResult.category b))
  + 0.3 * indicator (JS.strict_eq (SearchResult.brand a)
                                  (SearchResult.brand b))
  + match SearchResult.price a, SearchResult.price b with
    | Some pa, Some pb =>
        0.4 * (1 - JS.Math_abs (Pg.parseFloat pa - Pg.parseFloat pb)
                   / JS.Math_max (Pg.parseFloat pa) (Pg.parseFloat pb))
    | _, _ => 0
    end.

(** Following the specification: the diversity penalty of a candidate is
    the maximum, over the results already selected, of its pairwise
    similarity to them. *)
Definition diversityPenalty_spec (selected : list SearchResult.t)
  (candidate : SearchResult.t) : JS.number :=
  match selected with
  | [] => neg_infinity
  | first :: others =>
      fold_left (fun m s => JS.Math_max m (pairwiseSimilarity_spec s candidate))
                others (pairwiseSimilarity_spec first candidate)
  end.

(** Following the specification: [mmrScore = lambda * relevance -
    (1 - lambda) * diversityPenalty]. *)
Definition mmrScore_spec (lambda : JS.number) (selected : list SearchResult.t)
  (candidate : SearchResult.t) : JS.number :=
  lambda * SearchResult.similarity candidate
  - (1 - lambda) * diversityPenalty_spec selected candidate.

(** Descending order of the scores as numbers: every element is followed
    by one whose score is less than or equal to its own. *)
Definition nonIncreasingBy (A : Type) (key : A -> JS.number) (l : list A)
  : Prop :=
  Sorted (fun a b => (key b <=? key a) = true) l.

(** *** Runs *)
Module Runs.
Import Fixture.




(** Three products: [A] and [B] share category, brand and price; [C]
    shares nothing with them.  Their chunks have cosine similarity [1],
    [0.96] and [0.8] to the query embedding. *)
Definition db_abc : Database :=
  mkDatabase
    [product "A" (Some "soap") (Some "acme") (Some 1000%Z);
     product "B" (Some "soap") (Some "acme") (Some 1000%Z);
     product "C" (Some "brush") (Some "zeta") (Some 10000%Z)]
    [chunk "a1" "A" [1; 0]; chunk "b1" "B" [24; 7]; chunk "c1" "C" [4; 3]].

Definition options_rerank : SearchOptions.t :=
  SearchOptions.mk "q" None None None None None (Some true) None None.

(** Two results that both cost [0.00]. *)
Definition free_A : SearchResult.t :=
  result "A" (Some "soap") (Some "acme") (Some 0%Z) 0.9.
Definition free_B : SearchResult.t :=
  result "B" (Some "soap") (Some "acme") (Some 0%Z) 0.8.

(** A selected result with the price [-10.00], and two candidates: [M]
    has no price and shares nothing with it, [N] costs [10.00] and shares
    nothing with it.  And a store with these three products, whose
    chunks have cosine similarity [1], [0.96] and [0.8] to the query
    embedding. *)
Definition refund_S : SearchResult.t :=
  result "S" (Some "soap") (Some "acme") (Some (-1000)%Z) 1.
Definition refund_M : SearchResult.t :=
  result "M" (Some "towel") (Some "beta") None 0.96.
Definition refund_N : SearchResult.t :=
  result "N" (Some "brush") (Some "zeta") (Some 1000%Z) 0.8.

Definition db_refund : Database :=
  mkDatabase
    [product "S" (Some "soap") (Some "acme") (Some (-1000)%Z);
     product "M" (Some "towel") (Some "beta") None;
     product "N" (Some "brush") (Some "zeta") (Some 1000%Z)]
    [chunk "s1" "S" [1; 0]; chunk "m1" "M" [24; 7]; chunk "n1" "N" [4; 3]].

(** A product whose only chunk has the zero vector as its embedding. *)
Definition db_zero : Database :=
  mkDatabase [product "Z" None None None] [chunk "z1" "Z" [0; 0]].


(** A store with two products that both cost [0.00], each with a chunk
    above the default threshold. *)
Definition db_free : Database :=
  mkDatabase
    [product "A" (Some "soap") (Some "acme") (Some 0%Z);
     product "B" (Some "sample") (Some "zeta") (Some 0%Z)]
    [chunk "a1" "A" [1; 0]; chunk "b1" "B" [24; 7]].

End Runs.

(** The two maps of the fusion hold the same keys in the same order, and
    [resultMap] files every result under its own id. *)
Definition aligned (st : Fusion) : Prop :=
  JS.keys (fst st) = JS.keys (snd st)
  /\ forall id r, JS.get (snd st) id = Some r -> SearchResult.productId r = id.

(** [m] is the maximum of [values]: above each of them and equal, as a
    number, to one of them. *)
Definition isMaximumOf (values : list JS.number) (m : JS.number) : Prop :=
  (forall v, In v values -> (v <=? m) = true)
  /\ exists v, In v values /\ (m =? v) = true.

(** [x] is an element of [l] whose score no element of [l] exceeds. *)
Definition maximizes (A : Type) (f : A -> JS.number) (l : list A) (x : A)
  : Prop :=
  In x l /\ forall y, In y l -> (f x <? f y) = false.

(** Results for the statements about the reranker: the three products of
    [Runs.db_abc] with their vector scores. *)
Module Ranked.
Import Fixture.
Definition A : SearchResult.t :=
  result "A" (Some "soap") (Some "acme") (Some 1000%Z) 1.
Definition B : SearchResult.t :=
  result "B" (Some "soap") (Some "acme") (Some 1000%Z) 0.96.
Definition C : SearchResult.t :=
  result "C" (Some "brush") (Some "zeta") (Some 10000%Z) 0.8.
End Ranked.

(** The hits of one product, in retrieval order. *)
Definition chunksOf (id : string) (hits : list ChunkRow.t) : list ChunkRow.t :=
  filter (fun c => String.eqb (ChunkRow.productId c) id) hits.


(** Chunk hits for the statements about the aggregator. *)
Module Hits.
Definition hit (productId chunkId : string) (similarity : float) : ChunkRow.t :=
  ChunkRow.mk productId chunkId (Some "main") "text" (Some 0%Z) similarity.

(** One product whose only chunk points away from the query, and the
    options that accept every similarity. *)
Definition db_opposed : Database :=
  mkDatabase [Fixture.product "N" None None None]
             [Fixture.chunk "n1" "N" [-3; 4]].

Definition options_any : SearchOptions.t :=
  SearchOptions.mk "q" None None (Some (-1)) None None None None None.
End Hits.

(** The entry that the hits [cs] of one product leave in [productScores]:
    the running maximum of their similarities from [0], their average
    and the hits themselves. *)
Definition scoresOf (cs : list ChunkRow.t) : Scores.t :=
  Scores.mk
    (fold_left (fun m c => JS.Math_max m (ChunkRow.similarity c)) cs 0)
    (average (map toChunkResult cs))
    (map toChunkResult cs).

(** The hits of the example of the specification: one product with chunk
    similarities 0.9, 0.5 and 0.7. *)
Definition hits_example : list ChunkRow.t :=
  [Hits.hit "P" "c1" 0.9; Hits.hit "P" "c2" 0.5; Hits.hit "P" "c3" 0.7].

(** The example of the specification for the fusion: a product with
    vector score 0.8 and lexical score 0.4. *)
Definition fusion_vector : list SearchResult.t :=
  [Fixture.result "P" None None None 0.8].
Definition fusion_lexical : list SearchResult.t :=
  [Fixture.result "P" None None None 0.4].

(** Inputs of the fusion on which it departs from the formula: a vector
    score that is NaN, and a vector side whose first score is NaN. *)
Definition fusion_vector_nan : list SearchResult.t :=
  [Fixture.result "P" None None None nan].
Definition fusion_vector_nan_first : list SearchResult.t :=
  [Fixture.result "A" None None None nan;
   Fixture.result "B" None None None 0.5].

(** The metadata lookup of a product id resolves: the table holds a row
    with that id. *)
Definition resolves (db : Database) (id : string) : bool :=
  existsb (fun p => String.eqb (products.id p) id) (products_rows db).

(** The ranking of the matched chunks, by similarity. *)
Definition chunkRanking {ext : Collaborators} (db : Database)
  (queryEmbedding : Pg.vector) (threshold : float)
  (conditions : list Filter.condition) : list ChunkRow.t :=
  Pg.order_by_desc ChunkRow.similarity
    (matchedChunks db queryEmbedding threshold conditions).

(** Product [P1] with chunks of similarity 1 and 0.6, product [P2] with
    one chunk of similarity 0.96. *)
Module Paged.
Import Fixture.
Definition db : Database :=
  mkDatabase
    [product "P1" None None None; product "P2" None None None]
    [chunk "p1a" "P1" [1; 0]; chunk "p2a" "P2" [24; 7];
     chunk "p1b" "P1" [3; 4]].
Definition scored (l : list SearchResult.t) : list (string * JS.number) :=
  map (fun r => (SearchResult.productId r, SearchResult.similarity r)) l.
End Paged.

(** A product whose fields do not contain the query "cleaner". *)
Definition db_soap : Database :=
  mkDatabase [Fixture.product "soap" None None None] [].

(** [m] is the greatest of [values] in the store's order. *)
Definition isGreatestOf (values : list float) (m : float) : Prop :=
  In m values /\ forall v, In v values -> Pg.float8_lt m v = false.

(** The options that ask for the category "soap". *)
Definition options_soap : SearchOptions.t :=
  SearchOptions.mk "q" None None None
    (Some (SearchFilters.mk None None (Some ["soap"]) None None None))
    None None None None.

(** ** Integrity of the store and reduced filters *)


(** The pair of a result that the ranking is about. *)
Definition scored (r : SearchResult.t) : string * JS.number :=
  (SearchResult.productId r, SearchResult.similarity r).

(** ** The search endpoint of the RAG server ([src/mcp/server.ts]) *)

Module McpServer.

Inductive SearchType := vector | hybrid | keyword.

(** A request body whose present fields have the types that
    [searchRequestSchema] asks for; an absent field is [None].  [limit]
    is a natural number, as [LIMIT] of the store takes it. *)
Record Body := mkBody {
  body_query : option string;
  body_stream : option bool;
  body_filters : option SearchFilters.t;
  body_limit : option nat;
  body_searchType : option SearchType;
  body_includeChunks : option bool;
  body_rerank : option bool
}.

(** [z.infer<typeof searchRequestSchema>] *)
Record Params := mk {
  query : string;
  stream : bool;
  filters : option SearchFilters.t;
  limit : nat;
  searchType : SearchType;
  includeChunks : bool;
  rerank : bool
}.

(** [searchRequestSchema.parse(req.body)], lines 24-39: [query] is
    required and [min(1)], the other fields have defaults; [None] when a
    [ZodError] is thrown. *)
Definition parse (b : Body) : option Params :=
  match body_query b with
  | Some q =>
      if (1 <=? String.length q)%nat
      then Some (mk q (orDefault (body_stream b) false) (body_filters b)
                    (orDefault (body_limit b) 10%nat)
                    (orDefault (body_searchType b) hybrid)
                    (orDefault (body_includeChunks b) true)
                    (orDefault (body_rerank b) true))
      else None
  | None => None
  end.

(** [searchOptions] of [performSearch], lines 241-247. *)
Definition searchOptions (params : Params) : SearchOptions.t :=
  SearchOptions.mk (query params) (Some (limit params)) None None
    (filters params) (Some (includeChunks params)) (Some (rerank params))
    None None.

(** [performSearch], lines 240-257; the [default] branch of the [switch]
    is the one that ['keyword'] takes. *)
Definition performSearch {ext : Collaborators} (db : Database)
  (params : Params) : Pg.outcome (list SearchResult.t) :=
  match searchType params with
  | vector => Pg.returned (vectorSearch db (searchOptions params))
  | hybrid => hybridSearch db (searchOptions params)
  | keyword => hybridSearch db (searchOptions params)
  end.

(** The search of [POST /search], lines 117-154 and 378-414: the body is
    parsed, then searched, with or without streaming.  [None] is the
    answer 400 to a body that does not parse; an error raised by the
    search is answered with 500, or with an [error] event when
    streaming. *)
Definition searchResults {ext : Collaborators} (db : Database) (b : Body)
  : option (Pg.outcome (list SearchResult.t)) :=
  option_map (performSearch db) (parse b).

End McpServer.

(** ** The search of the MCP server ([src/mcp/mcp-compliant-server.ts]) *)

Module McpCompliantServer.





End McpCompliantServer.

(** ** JavaScript values and strings *)

(** A value of type [any], as far as data goes. *)
Module Any.
#[warnings="-register-all"]
Inductive t :=
| undefined
| null
| boolean (b : bool)
| number (x : JS.number)
| text (s : string)
| array (l : list t)
| object (l : list (string * t)).
End Any.

(** A string is the sequence of its code units: [length] counts the
    characters, [split] and [join] work on them. *)
Module JSString.

Definition newline : ascii := "010"%char.

(** [s.split(sep)] for a separator of one character: the pieces between
    the occurrences of [sep], at least one. *)
Fixpoint split (sep : ascii) (s : string) : list string :=
  match s with
  | EmptyString => [EmptyString]
  | String c s' =>
      if Ascii.eqb c sep then EmptyString :: split sep s'
      else match split sep s' with
           | piece :: pieces => String c piece :: pieces
           | [] => [String c EmptyString]
           end
  end.

(** [pieces.join(sep)] *)
Definition join (sep : ascii) (pieces : list string) : string :=
  String.concat (String sep EmptyString) pieces.

(** [sep] occurs in [s]. *)
Fixpoint contains (sep : ascii) (s : string) : bool :=
  match s with
  | EmptyString => false
  | String c s' => Ascii.eqb c sep || contains sep s'
  end.

End JSString.

(** Arrays are lists. *)
Module JSArray.

(** [array.map((x, index) => f(x, index))], from index [i] on. *)
Fixpoint mapIndex (A B : Type) (f : A -> nat -> B) (i : nat) (l : list A)
  : list B :=
  match l with
  | [] => []
  | x :: l' => f x i :: mapIndex f (S i) l'
  end.

(** [array.slice(i, j)] *)
Definition slice (A : Type) (i j : nat) (l : list A) : list A :=
  firstn (j - i) (skipn i l).

End JSArray.

(** ** The chunker ([src/services/chunker.ts]) *)

Module Chunker.

Inductive ChunkType := main | specs | details | attributes | claims.

Record ProductChunk := mk {
  chunkType : ChunkType;
  chunkContent : string;
  metadata : JS.Map Any.t
}.

(** [Math.ceil(text.length / 4)], lines 254-256: a length is an integer
    below [2^53], its quarter is computed exactly. *)
Definition estimateTokens (text : string) : Z :=
  ((Z.of_nat (String.length text) + 3) / 4)%Z.

(** [chunks.length + 1] as a value of the metadata. *)
Definition partNumber (chunks : list ProductChunk) : Any.t :=
  Any.number (JS.of_nat (List.length chunks + 1)).

(** The chunk pushed inside the loop, lines 279-286. *)
Definition innerPart (chunk : ProductChunk) (chunks : list ProductChunk)
  (currentContent : list string) : ProductChunk :=
  mk (chunkType chunk) (JSString.join JSString.newline currentContent)
     (JS.set (metadata chunk) "partNumber" (partNumber chunks)).

(** The chunk pushed after the loop, lines 296-306. *)
Definition lastPart (chunk : ProductChunk) (chunks : list ProductChunk)
  (currentContent : list string) : ProductChunk :=
  mk (chunkType chunk) (JSString.join JSString.newline currentContent)
     (JS.set (JS.set (metadata chunk) "partNumber" (partNumber chunks))
             "totalParts" (partNumber chunks)).

(** [chunks], [currentContent] and [currentTokens]. *)
Record Split := mkSplit {
  chunks : list ProductChunk;
  currentContent : list string;
  currentTokens : Z
}.

(** The body of [for (const line of lines)], lines 274-293. *)
Definition addLine (chunk : ProductChunk) (maxTokens : Z) (st : Split)
  (line : string) : Split :=
  let lineTokens := estimateTokens line in
  if (maxTokens <? currentTokens st + lineTokens)%Z
     && (0 <? List.length (currentContent st))%nat
  then mkSplit (chunks st ++ [innerPart chunk (chunks st) (currentContent st)])
               [line] lineTokens
  else mkSplit (chunks st) (currentContent st ++ [line])
               (currentTokens st + lineTokens)%Z.

(** [splitLargeChunk(chunk, maxTokens = 1500)], lines 261-309, for an
    integral [maxTokens]. *)
Definition splitLargeChunk (chunk : ProductChunk) (maxTokens : option Z)
  : list ProductChunk :=
  let maxTokens := orDefault maxTokens 1500%Z in
  let estimatedTokens := estimateTokens (chunkContent chunk) in
  if (estimatedTokens <=? maxTokens)%Z then [chunk]
  else
    let lines := JSString.split JSString.newline (chunkContent chunk) in
    let st := fold_left (addLine chunk maxTokens) lines (mkSplit [] [] 0%Z) in
    if (0 <? List.length (currentContent st))%nat
    then chunks st ++ [lastPart chunk (chunks st) (currentContent st)]
    else chunks st.

(** The lines of a text and the sum of their estimates. *)
Definition linesOf (text : string) : list string :=
  JSString.split JSString.newline text.

Definition sumTokens (lines : list string) : Z :=
  fold_right (fun line n => (estimateTokens line + n)%Z) 0%Z lines.

(** A chunk of three lines of eight characters. *)
Definition threeLines : ProductChunk :=
  mk specs
     (JSString.join JSString.newline ["line one"; "line two"; "line six"])
     [("productName", Any.text "soap")].

End Chunker.

(** *** Auxiliary definitions of the statements about the chunker *)

(** The part made of the lines [group], the [i]-th (from 0) of [n]: its
    number is [i + 1], and the last part also carries the total. *)
Definition partOf (chunk : Chunker.ProductChunk) (n : nat)
  (group : list string) (i : nat) : Chunker.ProductChunk :=
  let number := Any.number (JS.of_nat (i + 1)) in
  let numbered := JS.set (Chunker.metadata chunk) "partNumber" number in
  Chunker.mk (Chunker.chunkType chunk)
    (JSString.join JSString.newline group)
    (if (i + 1 =? n)%nat then JS.set numbered "totalParts" number
     else numbered).

(** A group of lines fits: it is a single line, or the estimates of its
    lines sum up to [maxTokens] at most. *)
Definition fits (maxTokens : Z) (group : list string) : Prop :=
  List.length group = 1%nat \/ (Chunker.sumTokens group <= maxTokens)%Z.

(** The state of the loop of [splitLargeChunk] after the lines [seen]:
    the chunks pushed so far are the parts of [groups]. *)
Definition splitting (chunk : Chunker.ProductChunk) (maxTokens : Z)
  (groups : list (list string)) (seen : list string) (st : Chunker.Split)
  : Prop :=
  Chunker.chunks st = JSArray.mapIndex (partOf chunk 0) 0 groups
  /\ Forall (fun group => group <> []) groups
  /\ Forall (fits maxTokens) groups
  /\ List.concat groups ++ Chunker.currentContent st = seen
  /\ Chunker.currentTokens st = Chunker.sumTokens (Chunker.currentContent st)
  /\ ((List.length (Chunker.currentContent st) <= 1)%nat
      \/ (Chunker.sumTokens (Chunker.currentContent st) <= maxTokens)%Z)
  /\ (seen <> [] -> Chunker.currentContent st <> []).

(** ** The embedder ([src/services/embedder.ts]) *)

Module Embedder.

Definition batchSize : nat := 20.

Section Service.

(** The embedding service: [openai.embeddings.create({ model, input })]
    followed by [response.data.map(item => item.embedding)]; [None] when
    the call throws. *)
Variable embeddings_create : list string -> option (list Pg.vector).

(** [apiConfig.openai.embedDim] *)
Variable embedDim : nat.

(** The loop [for (let i = 0; i < texts.length; i += batchSize)], lines
    25-38, from [i] on; [fuel] bounds the number of iterations.  An
    error of the service is logged and thrown again. *)
Fixpoint batchLoop (fuel : nat) (texts : list string) (i : nat)
  (embeddings : list Pg.vector) : option (list Pg.vector) :=
  match fuel with
  | O => Some embeddings
  | S fuel' =>
      if (i <? List.length texts)%nat then
        match embeddings_create (JSArray.slice i (i + batchSize) texts) with
        | Some batchEmbeddings =>
            batchLoop fuel' texts (i + batchSize)
                      (embeddings ++ batchEmbeddings)
        | None => None
        end
      else Some embeddings
  end.

(** [generateEmbeddings], lines 12-48.  Every iteration moves [i] on by
    [batchSize], so [texts.length] iterations are enough (lemma
    [batchLoop_fuel]). *)
Definition generateEmbeddings (texts : list string)
  : option (list Pg.vector) :=
  if (List.length texts =? 0)%nat then Some []
  else batchLoop (List.length texts) texts 0 [].

(** [generateSingleEmbedding], lines 53-56: [embeddings[0]], which is
    [undefined] ([None] inside) when the service returned nothing. *)
Definition generateSingleEmbedding (text : string)
  : option (option Pg.vector) :=
  option_map (fun embeddings => nth_error embeddings 0)
             (generateEmbeddings [text]).

(** [generateChunkEmbeddings], lines 103-113: [{ ...chunk, embedding }] is
    the chunk paired with its embedding. *)
Definition generateChunkEmbeddings (Chunk : Type)
  (chunkContent : Chunk -> string) (chunks : list Chunk)
  : option (list (Chunk * option Pg.vector)) :=
  option_map
    (fun embeddings =>
       JSArray.mapIndex
         (fun chunk index => (chunk, nth_error embeddings index))
                0 chunks)
    (generateEmbeddings (map chunkContent chunks)).

(** [validateEmbeddingDimensions], lines 118-127. *)
Definition validateEmbeddingDimensions (embedding : Pg.vector) : bool :=
  (List.length embedding =? embedDim)%nat.

(** [createQueryEmbedding], lines 132-141: throws when the embedding does
    not validate (or is [undefined], whose [length] cannot be read). *)
Definition createQueryEmbedding (query : string) : option Pg.vector :=
  match generateSingleEmbedding query with
  | Some (Some embedding) =>
      if validateEmbeddingDimensions embedding then Some embedding else None
  | _ => None
  end.

End Service.

(** The state of the loop of [cosineSimilarity]: [dotProduct], [normA]
    and [normB]. *)
Definition Sums : Type := JS.number * JS.number * JS.number.

(** The body of the loop, lines 79-83, on [a[i]] and [b[i]]. *)
Definition addProducts (sums : Sums) (xy : JS.number * JS.number) : Sums :=
  let '(dotProduct, normA, normB) := sums in
  (dotProduct + fst xy * snd xy,
   normA + fst xy * fst xy,
   normB + snd xy * snd xy).

(** [cosineSimilarity], lines 70-93: the thrown [Error] is [inl] of its
    message. *)
Definition cosineSimilarity (a b : list JS.number) : string + JS.number :=
  if negb (List.length a =? List.length b)%nat
  then inl "Embeddings must have the same length"
  else
    let '(dotProduct, normA, normB) :=
      fold_left addProducts (List.combine a b) (0, 0, 0) in
    let normA := sqrt normA in
    let normB := sqrt normB in
    if (normA =? 0) || (normB =? 0) then inr 0
    else inr (dotProduct / (normA * normB)).

(** A service that embeds a text as its length, and fails on a request
    that is empty or holds more than [batchSize] texts. *)
Definition lengthEmbedding (text : string) : Pg.vector :=
  [JS.of_nat (String.length text)].

Definition lengthService (input : list string) : option (list Pg.vector) :=
  if (0 <? List.length input)%nat && (List.length input <=? batchSize)%nat
  then Some (map lengthEmbedding input)
  else None.

End Embedder.

(** *** Options of the runs *)

(** The options that ask for the chunks of the results. *)
Definition options_chunks : SearchOptions.t :=
  SearchOptions.mk "q" None None None None (Some true) None None None.

(** ** The [vector] column type ([src/db/schema.ts], lines 16-33) *)

Module VectorType.

Definition comma : ascii := ","%char.

(** [s] without its last character when that is [c]. *)
Fixpoint dropLast (c : ascii) (s : string) : string :=
  match s with
  | EmptyString => EmptyString
  | String d s' =>
      match s' with
      | EmptyString => if Ascii.eqb d c then EmptyString else s
      | String _ _ => String d (dropLast c s')
      end
  end.

(** [value.replace(/^\[|\]$/g, '')]: an opening bracket at the start and
    a closing bracket at the end are removed. *)
Definition stripBrackets (value : string) : string :=
  match value with
  | String c rest =>
      if Ascii.eqb c "["%char then dropLast "]"%char rest
      else dropLast "]"%char value
  | EmptyString => EmptyString
  end.

Section Numbers.

(** The decimal string of a number, as [join] and template literals
    produce it, and [Number(s)]. *)
Variable Number_toString : JS.number -> string.
Variable Number : string -> JS.number.

(** [toDriver], lines 20-23. *)
Definition toDriver (value : list JS.number) : string :=
  ("[" ++ JSString.join comma (map Number_toString value) ++ "]")%string.

(** [fromDriver], lines 24-32, on a string. *)
Definition fromDriver (value : string) : list JS.number :=
  let cleaned := stripBrackets value in
  map Number (JSString.split comma cleaned).

End Numbers.

(** A printer and a reader that agree on [0] and [1]. *)
Definition printBit (x : JS.number) : string := if x =? 1 then "1" else "0".
Definition readBit (s : string) : JS.number :=
  if String.eqb s "1" then 1 else 0.

End VectorType.

(* ================================================================== *)
(** * Part II. Properties                                               *)
(* ================================================================== *)

Unset Implicit Arguments.

(** ** Binary64 order

    The facts about [<?], [<=?] and [=?] that the engine's comparisons
    rely on, from the specification of the primitive operations. *)

Module FloatFacts.

Lemma SFcompare_refl x : SFnan x = false -> SFcompare x x = Some Eq.
Proof.
  destruct x as [s|s| |s m e]; simpl; try congruence; intros _;
    destruct s; try reflexivity;
    rewrite Z.compare_refl, Pos.compare_cont_refl; reflexivity.
Qed.

Lemma is_nan_spec x : is_nan x = SFnan (Prim2SF x).
Proof.
  unfold is_nan. rewrite eqb_spec. unfold SFeqb.
  destruct (SFnan (Prim2SF x)) eqn:E.
  - destruct (Prim2SF x); simpl in *; congruence.
  - rewrite SFcompare_refl by assumption. reflexivity.
Qed.

(** Comparisons of finite values go through [Z.compare] on exponents and
    [Pos.compare] on mantissas. *)
Ltac sf_finite :=
  repeat match goal with
  | |- context [Z.compare ?a ?b] => destruct (Z.compare_spec a b)
  | H : context [Z.compare ?a ?b] |- _ => destruct (Z.compare_spec a b)
  end;
  rewrite ?Pos.compare_cont_spec in *; unfold Pos.switch_Eq in *;
  repeat match goal with
  | |- context [Pos.compare ?a ?b] => destruct (Pos.compare_spec a b)
  | H : context [Pos.compare ?a ?b] |- _ => destruct (Pos.compare_spec a b)
  end;
  simpl in *; try congruence; try lia.

Ltac sf_crush :=
  unfold SFltb, SFleb, SFeqb, SFcompare, SFnan in *;
  repeat match goal with
  | x : spec_float |- _ => destruct x
  end;
  repeat match goal with
  | b : bool |- _ => destruct b
  end;
  simpl in *; try congruence; try tauto; sf_finite.

Ltac to_sf :=
  rewrite ?is_nan_spec, ?ltb_spec, ?leb_spec, ?eqb_spec in *;
  repeat match goal with
  | |- context [Prim2SF ?x] => generalize dependent (Prim2SF x); intro
  | H : context [Prim2SF ?x] |- _ => generalize dependent (Prim2SF x); intro
  end.

Lemma ltb_trans x y z : (x <? y) = true -> (y <? z) = true -> (x <? z) = true.
Proof. to_sf. intros. sf_crush. Qed.

Lemma leb_ltb_trans x y z :
  (x <=? y) = true -> (y <? z) = true -> (x <? z) = true.
Proof. to_sf. intros. sf_crush. Qed.

Lemma ltb_leb_trans x y z :
  (x <? y) = true -> (y <=? z) = true -> (x <? z) = true.
Proof. to_sf. intros. sf_crush. Qed.

Lemma leb_trans x y z :
  (x <=? y) = true -> (y <=? z) = true -> (x <=? z) = true.
Proof. to_sf. intros. sf_crush. Qed.

Lemma ltb_irrefl x : (x <? x) = false.
Proof. to_sf. sf_crush. Qed.

Lemma ltb_asym x y : (x <? y) = true -> (y <? x) = false.
Proof. to_sf. intros. sf_crush. Qed.

Lemma ltb_leb x y : (x <? y) = true -> (x <=? y) = true.
Proof. to_sf. intros. sf_crush. Qed.

Lemma leb_refl x : is_nan x = false -> (x <=? x) = true.
Proof. to_sf. intros. sf_crush. Qed.

Lemma leb_not_nan x y :
  (x <=? y) = true -> is_nan x = false /\ is_nan y = false.
Proof. to_sf. intros. split; sf_crush. Qed.

Lemma ltb_not_nan x y :
  (x <? y) = true -> is_nan x = false /\ is_nan y = false.
Proof. to_sf. intros. split; sf_crush. Qed.

Lemma ltb_total x y :
  is_nan x = false -> is_nan y = false -> (x <? y) = false -> (y <=? x) = true.
Proof. to_sf. intros. sf_crush. Qed.

Lemma leb_ltb_false x y : (x <=? y) = true -> (y <? x) = false.
Proof. to_sf. intros. sf_crush. Qed.

Lemma leb_antisym x y : (x <=? y) = true -> (y <=? x) = true -> (x =? y) = true.
Proof. to_sf. intros. sf_crush. Qed.

Lemma eqb_leb x y : (x =? y) = true -> (x <=? y) = true.
Proof. to_sf. intros. sf_crush. Qed.

Lemma eqb_sym x y : (x =? y) = true -> (y =? x) = true.
Proof. to_sf. intros. sf_crush. Qed.

Lemma eqb_refl x : is_nan x = false -> (x =? x) = true.
Proof. unfold is_nan. destruct (x =? x); simpl; congruence. Qed.

(** The sign of a difference: a difference that rounds to a positive
    value is positive, so [y - x] is not positive when [x - y] is. *)
Lemma binary_round_aux_neg mx ex lx :
  SFpos (binary_round_aux prec emax true mx ex lx) = false.
Proof.
  unfold binary_round_aux.
  destruct (shr_fexp prec emax mx ex lx) as [mrs' e'].
  destruct (shr_fexp prec emax _ e' loc_Exact) as [mrs'' e''].
  destruct (shr_m mrs''); try reflexivity.
  destruct (Z.leb e'' (emax - prec)); reflexivity.
Qed.

Lemma binary_round_neg m e : SFpos (binary_round prec emax true m e) = false.
Proof.
  unfold binary_round. destruct (shl_align m e _) as [mz ez].
  apply binary_round_aux_neg.
Qed.

Lemma binary_normalize_pos m e :
  SFpos (binary_normalize prec emax m e false) = true -> (0 < m)%Z.
Proof.
  destruct m; simpl; intros H.
  - discriminate.
  - lia.
  - rewrite binary_round_neg in H. discriminate.
Qed.

Lemma binary_normalize_neg m e :
  (m <= 0)%Z -> SFpos (binary_normalize prec emax m e false) = false.
Proof.
  intros Hm. destruct (SFpos _) eqn:E; [|reflexivity].
  apply binary_normalize_pos in E. lia.
Qed.

Lemma SFsub_finite_pos_asym sx mx ex sy my ey :
  SFpos (SF64sub (S754_finite sx mx ex) (S754_finite sy my ey)) = true ->
  SFpos (SF64sub (S754_finite sy my ey) (S754_finite sx mx ex)) = false.
Proof.
  unfold SF64sub, SFsub. rewrite (Z.min_comm ey ex).
  intros H. apply binary_normalize_pos in H.
  apply binary_normalize_neg. lia.
Qed.

Lemma SFsub_pos_asym X Y :
  SFpos (SF64sub X Y) = true -> SFpos (SF64sub Y X) = false.
Proof.
  destruct X as [sx|sx| |sx mx ex], Y as [sy|sy| |sy my ey];
    first [ apply SFsub_finite_pos_asym
          | repeat match goal with s : bool |- _ => destruct s end;
            cbv; congruence ].
Qed.

Lemma sub_pos_asym x y : (0 <? x - y) = true -> (0 <? y - x) = false.
Proof. rewrite !ltb_spec, !sub_spec. apply SFsub_pos_asym. Qed.

(** Sums with a zero term. *)
Lemma same_number_spec a b : same_number a b = SFsame (Prim2SF a) (Prim2SF b).
Proof. unfold same_number, SFsame. rewrite eqb_spec, !is_nan_spec. reflexivity. Qed.

Lemma is_zero_spec x : is_zero x = SFzero (Prim2SF x).
Proof.
  unfold is_zero. rewrite eqb_spec. change (Prim2SF zero) with (S754_zero false).
  destruct (Prim2SF x) as [s|s| |s m e]; try destruct s; reflexivity.
Qed.

Lemma is_finite_spec x : is_finite x = SFfinite (Prim2SF x).
Proof.
  unfold is_finite, is_infinity. rewrite is_nan_spec, eqb_spec, abs_spec.
  change (Prim2SF infinity) with (S754_infinity false).
  destruct (Prim2SF x) as [s|s| |s m e]; reflexivity.
Qed.

Lemma SFsame_refl X : SFsame X X = true.
Proof.
  unfold SFsame, SFeqb. destruct (SFnan X) eqn:E.
  - rewrite orb_true_r. reflexivity.
  - rewrite SFcompare_refl by exact E. reflexivity.
Qed.

Lemma same_number_refl a : same_number a a = true.
Proof. rewrite same_number_spec. apply SFsame_refl. Qed.

Lemma SFadd_zero_l s s' Y :
  SFsame (SF64add (S754_zero s) Y) (SF64add (S754_zero s') Y) = true.
Proof.
  destruct Y as [sy|sy| |sy my ey]; destruct s, s'; try destruct sy;
    try reflexivity; apply SFsame_refl.
Qed.

Lemma SFadd_zero_r X s : SFsame X (SF64add X (S754_zero s)) = true.
Proof.
  destruct X as [sx|sx| |sx mx ex]; destruct s; try destruct sx;
    try reflexivity; apply SFsame_refl.
Qed.

Lemma SFmul_zero_l W :
  SFfinite W = true -> SFzero (SF64mul (S754_zero false) W) = true.
Proof. destruct W; simpl; congruence. Qed.

(** [(x || 0) + y] is the number [x + y], unless [x] is NaN. *)
Lemma or_zero_add x y :
  is_nan x = false -> same_number (JS.or_zero x + y) (x + y) = true.
Proof.
  intros Hx. unfold JS.or_zero, JS.truthy. rewrite Hx. simpl.
  destruct (is_zero x) eqn:Ez; simpl; [|apply same_number_refl].
  rewrite same_number_spec, !add_spec. rewrite is_zero_spec in Ez.
  change (Prim2SF 0) with (S754_zero false).
  destruct (Prim2SF x); simpl in Ez; try discriminate. apply SFadd_zero_l.
Qed.

Lemma add_zero_mul x w :
  is_finite w = true -> same_number x (x + 0 * w) = true.
Proof.
  intros Hw. rewrite same_number_spec, add_spec, mul_spec.
  rewrite is_finite_spec in Hw. change (Prim2SF 0) with (S754_zero false).
  pose proof (SFmul_zero_l _ Hw) as Hz.
  destruct (SF64mul (S754_zero false) (Prim2SF w)); simpl in Hz;
    try discriminate.
  apply SFadd_zero_r.
Qed.

Lemma zero_mul_add y w :
  is_finite w = true -> same_number (0 + y) (0 * w + y) = true.
Proof.
  intros Hw. rewrite same_number_spec, !add_spec, mul_spec.
  rewrite is_finite_spec in Hw. change (Prim2SF 0) with (S754_zero false).
  pose proof (SFmul_zero_l _ Hw) as Hz.
  destruct (SF64mul (S754_zero false) (Prim2SF w)); simpl in Hz;
    try discriminate.
  apply SFadd_zero_l.
Qed.

End FloatFacts.

(** ** The store's order on [float8] *)

Module Float8Facts.
Import FloatFacts.

Lemma lt_irrefl x : Pg.float8_lt x x = false.
Proof.
  unfold Pg.float8_lt. destruct (is_nan x) eqn:E; [reflexivity|].
  apply ltb_irrefl.
Qed.

Lemma lt_asym x y : Pg.float8_lt x y = true -> Pg.float8_lt y x = false.
Proof. unfold Pg.float8_lt. to_sf. intros. sf_crush. Qed.

Lemma lt_trans x y z :
  Pg.float8_lt x y = true -> Pg.float8_lt y z = true -> Pg.float8_lt x z = true.
Proof. unfold Pg.float8_lt. to_sf. intros. sf_crush. Qed.

(** The order is total: "not below" is transitive. *)
Lemma lt_negtrans x y z :
  Pg.float8_lt x y = false -> Pg.float8_lt y z = false ->
  Pg.float8_lt x z = false.
Proof. unfold Pg.float8_lt. to_sf. intros. sf_crush. Qed.

(** Raising the bound keeps fewer values above it. *)
Lemma gt_antitone t1 t2 s :
  (t1 <=? t2) = true -> Pg.float8_gt s t2 = true -> Pg.float8_gt s t1 = true.
Proof. unfold Pg.float8_gt, Pg.float8_lt. to_sf. intros. sf_crush. Qed.

(** On numbers the order is the binary64 order. *)
Lemma gt_ltb s t :
  is_nan s = false -> is_nan t = false -> Pg.float8_gt s t = (t <? s).
Proof.
  unfold Pg.float8_gt, Pg.float8_lt. intros -> ->. reflexivity.
Qed.

Lemma gt_leb_false s t : (s <=? t) = true -> Pg.float8_gt s t = false.
Proof. unfold Pg.float8_gt, Pg.float8_lt. to_sf. intros. sf_crush. Qed.

Lemma greatest2_ub_l a b : Pg.float8_lt (Pg.greatest2 a b) a = false.
Proof.
  unfold Pg.greatest2. destruct (Pg.float8_lt a b) eqn:E.
  - apply lt_asym. assumption.
  - apply lt_irrefl.
Qed.

Lemma greatest2_ub_r a b : Pg.float8_lt (Pg.greatest2 a b) b = false.
Proof.
  unfold Pg.greatest2. destruct (Pg.float8_lt a b) eqn:E.
  - apply lt_irrefl.
  - revert E. unfold Pg.float8_lt. to_sf. intros. sf_crush.
Qed.

Lemma greatest2_cases a b : Pg.greatest2 a b = a \/ Pg.greatest2 a b = b.
Proof. unfold Pg.greatest2. destruct (Pg.float8_lt a b); auto. Qed.

End Float8Facts.

(** ** Sorting *)

Section SortFacts.
Variable A : Type.
Variable before : A -> A -> bool.

Lemma insert_perm x l : Permutation (x :: l) (JS.insert before x l).
Proof.
  induction l as [|y l IH]; simpl.
  - reflexivity.
  - destruct (before y x).
    + rewrite perm_swap. apply perm_skip. exact IH.
    + reflexivity.
Qed.

Lemma sort_perm l : Permutation l (JS.sort before l).
Proof.
  induction l as [|x l IH]; simpl.
  - constructor.
  - rewrite <- insert_perm. apply perm_skip. exact IH.
Qed.

Lemma sort_In x l : In x (JS.sort before l) <-> In x l.
Proof.
  split; apply Permutation_in; [symmetry|]; apply sort_perm.
Qed.

Lemma sort_length l : List.length (JS.sort before l) = List.length l.
Proof. symmetry. apply Permutation_length, sort_perm. Qed.

Local Abbreviation inOrder := (JS.inOrder before).

Hypothesis before_asym : forall a b, before a b = true -> before b a = false.

Lemma insert_sorted x l :
  Sorted inOrder l -> Sorted inOrder (JS.insert before x l).
Proof.
  induction l as [|y l IH]; simpl; intros Hs.
  - repeat constructor.
  - destruct (before y x) eqn:E.
    + inversion Hs as [|? ? Hl Hhd]; subst. constructor.
      * apply IH. exact Hl.
      * destruct l as [|z l]; simpl.
        -- constructor. apply before_asym. exact E.
        -- destruct (before z x).
           ++ constructor. inversion Hhd; subst. assumption.
           ++ constructor. apply before_asym. exact E.
    + constructor; [exact Hs|]. constructor. exact E.
Qed.

Lemma sort_sorted l : Sorted inOrder (JS.sort before l).
Proof.
  induction l as [|x l IH]; simpl.
  - constructor.
  - apply insert_sorted. exact IH.
Qed.

End SortFacts.

(** [ORDER BY ... DESC] yields a list in which no row is below a later
    row. *)
Lemma order_by_desc_sorted (A : Type) (key : A -> float) (rows : list A) :
  StronglySorted (fun a b => Pg.float8_lt (key a) (key b) = false)
                 (Pg.order_by_desc key rows).
Proof.
  apply Sorted_StronglySorted.
  - intros a b c. apply Float8Facts.lt_negtrans.
  - unfold Pg.order_by_desc.
    apply (@sort_sorted _ (fun b a => Pg.float8_lt (key a) (key b))).
    intros a b. apply Float8Facts.lt_asym.
Qed.

Lemma order_by_desc_perm (A : Type) (key : A -> float) (rows : list A) :
  Permutation rows (Pg.order_by_desc key rows).
Proof. apply sort_perm. Qed.

(** The sorts of the engine, [(a, b) => key(b) - key(a)]: no element is
    followed by one whose key exceeds its own by a positive difference. *)
Lemma sort_descending_sorted (A : Type) (key : A -> JS.number) (l : list A) :
  Sorted (fun a b => (0 <? key b - key a) = false)
         (JS.sort (JS.descending key) l).
Proof.
  apply (@sort_sorted _ (JS.descending key)).
  intros a b. unfold JS.descending. apply FloatFacts.sub_pos_asym.
Qed.

(** ** Lists *)

Section ListFacts.
Variable A : Type.

Lemma firstn_In (x : A) n l : In x (firstn n l) -> In x l.
Proof.
  intros H. rewrite <- (firstn_skipn n l). apply in_or_app. left. exact H.
Qed.

Lemma skipn_In (x : A) n l : In x (skipn n l) -> In x l.
Proof.
  intros H. rewrite <- (firstn_skipn n l). apply in_or_app. right. exact H.
Qed.

Lemma Sorted_firstn (R : A -> A -> Prop) n l :
  Sorted R l -> Sorted R (firstn n l).
Proof.
  revert l. induction n as [|n IH]; intros l Hs; simpl; [constructor|].
  destruct l as [|x l]; [constructor|].
  inversion Hs as [|? ? Hl Hhd]; subst. constructor.
  - apply IH. exact Hl.
  - destruct l as [|y l]; destruct n; simpl; constructor.
    inversion Hhd; subst. assumption.
Qed.

Lemma Sorted_map (B : Type) (f : B -> A) (R : A -> A -> Prop) l :
  Sorted (fun a b => R (f a) (f b)) l <-> Sorted R (map f l).
Proof.
  induction l as [|x l IH]; simpl.
  - split; constructor.
  - split; intros Hs; inversion Hs as [|? ? Hl Hhd]; subst; constructor;
      try (apply IH; assumption);
      destruct l; simpl in *; constructor; inversion Hhd; subst; assumption.
Qed.

End ListFacts.

(** ** Maps in insertion order *)

Section MapFacts.
Variable V : Type.
Implicit Types (m : JS.Map V) (k : string) (v : V).

Lemma get_set_same m k v : JS.get (JS.set m k v) k = Some v.
Proof.
  induction m as [|[k' v'] m IH]; simpl.
  - rewrite String.eqb_refl. reflexivity.
  - destruct (String.eqb k' k) eqn:E; simpl; rewrite E; auto.
Qed.

Lemma get_set_other m k k' v :
  k <> k' -> JS.get (JS.set m k v) k' = JS.get m k'.
Proof.
  intros Hne. induction m as [|[k0 v0] m IH]; simpl.
  - apply String.eqb_neq in Hne. rewrite Hne. reflexivity.
  - destruct (String.eqb k0 k) eqn:E; simpl.
    + apply String.eqb_eq in E. subst k0.
      apply String.eqb_neq in Hne. rewrite Hne. reflexivity.
    + rewrite IH. reflexivity.
Qed.

Lemma get_In m k v : JS.get m k = Some v -> In (k, v) m.
Proof.
  induction m as [|[k' v'] m IH]; simpl; [discriminate|].
  destruct (String.eqb k' k) eqn:E.
  - apply String.eqb_eq in E. intros [= ->]. subst. auto.
  - auto.
Qed.

Lemma get_None m k : JS.get m k = None <-> ~ In k (JS.keys m).
Proof.
  induction m as [|[k' v'] m IH]; simpl.
  - tauto.
  - destruct (String.eqb k' k) eqn:E.
    + apply String.eqb_eq in E. split; [discriminate|tauto].
    + apply String.eqb_neq in E. rewrite IH. tauto.
Qed.

Lemma get_Some_key m k v : JS.get m k = Some v -> In k (JS.keys m).
Proof.
  intros H. apply get_In in H. apply (in_map fst) in H. exact H.
Qed.

Lemma In_get m k v : NoDup (JS.keys m) -> In (k, v) m -> JS.get m k = Some v.
Proof.
  induction m as [|[k' v'] m IH]; simpl; [tauto|].
  intros Hnd [H|H].
  - injection H as -> ->. rewrite String.eqb_refl. reflexivity.
  - inversion Hnd as [|? ? Hnotin Hnd']; subst.
    destruct (String.eqb k' k) eqn:E.
    + apply String.eqb_eq in E. subst k'.
      exfalso. apply Hnotin. apply (in_map fst) in H. exact H.
    + auto.
Qed.

Lemma keys_set m k v :
  JS.keys (JS.set m k v)
  = if JS.has m k then JS.keys m else JS.keys m ++ [k].
Proof.
  unfold JS.has. induction m as [|[k' v'] m IH]; simpl.
  - reflexivity.
  - destruct (String.eqb k' k) eqn:E; simpl.
    + reflexivity.
    + rewrite IH. destruct (JS.get m k); reflexivity.
Qed.

Lemma keys_set_In m k v k' :
  In k' (JS.keys (JS.set m k v)) <-> k' = k \/ In k' (JS.keys m).
Proof.
  rewrite keys_set. unfold JS.has. destruct (JS.get m k) eqn:E.
  - apply get_Some_key in E. split; [auto|]. intros [->|H]; auto.
  - rewrite in_app_iff. simpl. intuition.
Qed.

Lemma keys_set_NoDup m k v : NoDup (JS.keys m) -> NoDup (JS.keys (JS.set m k v)).
Proof.
  intros Hnd. rewrite keys_set. unfold JS.has.
  destruct (JS.get m k) eqn:E; [exact Hnd|].
  apply get_None in E.
  apply NoDup_app; [exact Hnd|repeat constructor; simpl; tauto|].
  intros x Hx [<-|[]]. contradiction.
Qed.

End MapFacts.

(** ** Fusion ([hybridSearch], lines 334-361) *)

Section FusionFacts.
Variables vectorWeight keywordWeight : JS.number.
Implicit Types (st : Fusion) (r : SearchResult.t) (id : string).

Local Abbreviation addV := (addVectorResult vectorWeight).
Local Abbreviation addK := (addKeywordResult keywordWeight).

Lemma lookup_None id l :
  ~ In id (map SearchResult.productId l) -> lookup id l = None.
Proof.
  intros H. unfold lookup. destruct (find _ l) eqn:E; [|reflexivity].
  apply find_some in E. destruct E as [Hin Heq].
  apply String.eqb_eq in Heq. exfalso. apply H. rewrite <- Heq.
  apply in_map. exact Hin.
Qed.

Lemma lookup_Some id l r :
  lookup id l = Some r -> In r l /\ SearchResult.productId r = id.
Proof.
  unfold lookup. intros H. apply find_some in H.
  destruct H as [Hin Heq]. apply String.eqb_eq in Heq. auto.
Qed.

Lemma lookup_In id l :
  In id (map SearchResult.productId l) <-> lookup id l <> None.
Proof.
  split.
  - intros Hin. apply in_map_iff in Hin. destruct Hin as [r [Heq Hin]].
    unfold lookup. intros Hnone.
    apply (find_none _ _ Hnone) in Hin. rewrite Heq, String.eqb_refl in Hin.
    discriminate.
  - intros H. destruct (in_dec string_dec id (map SearchResult.productId l))
      as [Hin|Hnin]; [exact Hin|].
    apply lookup_None in Hnin. contradiction.
Qed.

Lemma addV_aligned st r : aligned st -> aligned (addV st r).
Proof.
  intros [Hk Hid]. split; simpl.
  - rewrite !keys_set. unfold JS.has.
    destruct (JS.get (fst st) _) eqn:E1, (JS.get (snd st) _) eqn:E2;
      try (rewrite Hk; reflexivity).
    + apply get_Some_key in E1. apply get_None in E2. rewrite Hk in E1.
      contradiction.
    + apply get_Some_key in E2. apply get_None in E1. rewrite Hk in E1.
      contradiction.
  - intros id r'. destruct (string_dec (SearchResult.productId r) id) as [<-|Hne].
    + rewrite get_set_same. intros [= <-]. reflexivity.
    + rewrite get_set_other by exact Hne. apply Hid.
Qed.

Lemma addK_aligned st r : aligned st -> aligned (addK st r).
Proof.
  intros [Hk Hid]. split; simpl.
  - rewrite keys_set. unfold JS.has.
    destruct (JS.get (snd st) _) eqn:E2.
    + destruct (JS.get (fst st) _) eqn:E1; [exact Hk|].
      apply get_Some_key in E2. apply get_None in E1. rewrite Hk in E1.
      contradiction.
    + rewrite keys_set. unfold JS.has. rewrite E2.
      destruct (JS.get (fst st) _) eqn:E1; [|rewrite Hk; reflexivity].
      apply get_Some_key in E1. apply get_None in E2. rewrite Hk in E1.
      contradiction.
  - intros id r'. unfold JS.has.
    destruct (JS.get (snd st) (SearchResult.productId r)) eqn:E2.
    + apply Hid.
    + destruct (string_dec (SearchResult.productId r) id) as [<-|Hne].
      * rewrite get_set_same. intros [= <-]. reflexivity.
      * rewrite get_set_other by exact Hne. apply Hid.
Qed.

Lemma fold_addV_aligned l st :
  aligned st -> aligned (fold_left addV l st).
Proof.
  revert st. induction l as [|r l IH]; simpl; intros st H; [exact H|].
  apply IH, addV_aligned, H.
Qed.

Lemma fold_addK_aligned l st :
  aligned st -> aligned (fold_left addK l st).
Proof.
  revert st. induction l as [|r l IH]; simpl; intros st H; [exact H|].
  apply IH, addK_aligned, H.
Qed.

Lemma fuse_aligned V K : aligned (fuse vectorWeight keywordWeight V K).
Proof.
  apply fold_addK_aligned, fold_addV_aligned.
  split; [reflexivity|]. simpl. discriminate.
Qed.

Lemma addV_NoDup st r :
  NoDup (JS.keys (fst st)) -> NoDup (JS.keys (fst (addV st r))).
Proof. apply keys_set_NoDup. Qed.

Lemma addK_NoDup st r :
  NoDup (JS.keys (fst st)) -> NoDup (JS.keys (fst (addK st r))).
Proof. apply keys_set_NoDup. Qed.

Lemma fuse_NoDup V K :
  NoDup (JS.keys (fst (fuse vectorWeight keywordWeight V K))).
Proof.
  unfold fuse.
  assert (HV : NoDup (JS.keys (fst (fold_left addV V ([], []))))).
  { generalize (NoDup_nil string).
    change (@nil string) with (JS.keys (fst (@nil (string * JS.number),
                                             @nil (string * SearchResult.t)))).
    generalize ((@nil (string * JS.number), @nil (string * SearchResult.t))).
    induction V as [|r V IH]; simpl; intros st H; [exact H|].
    apply IH, addV_NoDup, H. }
  revert HV. generalize (fold_left addV V ([], [])).
  induction K as [|r K IH]; simpl; intros st H; [exact H|].
  apply IH, addK_NoDup, H.
Qed.

(** The scores after the vector results. *)
Lemma fold_addV_get V : forall st id,
  NoDup (map SearchResult.productId V) ->
  JS.get (fst (fold_left addV V st)) id
  = match lookup id V with
    | Some rv => Some (SearchResult.similarity rv * vectorWeight)
    | None => JS.get (fst st) id
    end.
Proof.
  induction V as [|r V IH]; simpl; intros st id Hnd; [reflexivity|].
  inversion Hnd as [|? ? Hnotin Hnd']; subst.
  rewrite IH by exact Hnd'. unfold lookup at 2. simpl.
  destruct (String.eqb (SearchResult.productId r) id) eqn:E.
  - apply String.eqb_eq in E. subst id.
    rewrite lookup_None by exact Hnotin. simpl. apply get_set_same.
  - apply String.eqb_neq in E. fold (lookup id V).
    destruct (lookup id V); [reflexivity|]. simpl.
    apply get_set_other. exact E.
Qed.

(** The scores after the lexical results. *)
Lemma fold_addK_get K : forall st id,
  NoDup (map SearchResult.productId K) ->
  JS.get (fst (fold_left addK K st)) id
  = match lookup id K with
    | Some rk =>
        Some (currentScore (fst st) id
              + SearchResult.similarity rk * keywordWeight)
    | None => JS.get (fst st) id
    end.
Proof.
  induction K as [|r K IH]; simpl; intros st id Hnd; [reflexivity|].
  inversion Hnd as [|? ? Hnotin Hnd']; subst.
  rewrite IH by exact Hnd'. unfold lookup at 2. simpl.
  destruct (String.eqb (SearchResult.productId r) id) eqn:E.
  - apply String.eqb_eq in E. subst id.
    rewrite lookup_None by exact Hnotin. simpl. apply get_set_same.
  - apply String.eqb_neq in E. fold (lookup id K).
    unfold currentScore. simpl. rewrite get_set_other by exact E.
    reflexivity.
Qed.

Lemma fuse_get V K id :
  NoDup (map SearchResult.productId V) ->
  NoDup (map SearchResult.productId K) ->
  JS.get (fst (fuse vectorWeight keywordWeight V K)) id
  = fusedScore vectorWeight keywordWeight (lookup id V) (lookup id K).
Proof.
  intros HV HK. unfold fuse. rewrite fold_addK_get by exact HK.
  unfold currentScore. rewrite fold_addV_get by exact HV. simpl.
  unfold fusedScore. destruct (lookup id V), (lookup id K); reflexivity.
Qed.

(** The candidates are the union of the two sides. *)
Lemma fuse_keys V K id :
  NoDup (map SearchResult.productId V) ->
  NoDup (map SearchResult.productId K) ->
  In id (JS.keys (fst (fuse vectorWeight keywordWeight V K)))
  <-> In id (map SearchResult.productId V)
      \/ In id (map SearchResult.productId K).
Proof.
  intros HV HK. rewrite !lookup_In.
  destruct (JS.get (fst (fuse vectorWeight keywordWeight V K)) id) eqn:E.
  - pose proof (get_Some_key _ _ _ _ E) as Hin.
    rewrite fuse_get in E by assumption. split; [intros _|intros _; exact Hin].
    unfold fusedScore in E.
    destruct (lookup id V), (lookup id K); try discriminate;
      (left; discriminate) || (right; discriminate).
  - pose proof E as E'. apply get_None in E'.
    rewrite fuse_get in E by assumption. unfold fusedScore in E.
    destruct (lookup id V), (lookup id K); try discriminate.
    split; [contradiction|]. intros [H|H]; contradiction.
Qed.

(** Every candidate is found in [resultMap]. *)
Lemma sortedResults_map st limit :
  aligned st ->
  map (fun r => (SearchResult.productId r, SearchResult.similarity r))
      (sortedResults st limit)
  = firstn (limitOr10 limit) (JS.sort (JS.descending snd) (fst st)).
Proof.
  intros [Hk Hid]. unfold sortedResults.
  assert (Hsub : forall e,
             In e (firstn (limitOr10 limit)
                          (JS.sort (JS.descending snd) (fst st))) ->
             In (fst e) (JS.keys (snd st))).
  { intros e He. apply firstn_In, sort_In in He.
    rewrite <- Hk. apply in_map. exact He. }
  induction (firstn (limitOr10 limit) (JS.sort (JS.descending snd) (fst st)))
    as [|e l IH]; simpl; [reflexivity|].
  destruct (JS.get (snd st) (fst e)) eqn:E.
  - simpl. rewrite IH by (intros; apply Hsub; right; assumption).
    rewrite (Hid _ _ E). destruct e; reflexivity.
  - apply get_None in E. exfalso. apply E, Hsub. left. reflexivity.
Qed.

End FusionFacts.

(** ** Filters on the two retrievers *)

Section RunFacts.
Local Existing Instance Fixture.collaborators.


(** ** [hybridSearch] and the reranker *)


(** C3. Two results that both cost [0.00]: the price term of the second
    is [0.4 * (1 - 0 / 0)], its MMR score is NaN, no candidate is selected
    and the loop is left; the output is the first result alone.  Through
    [vectorSearch]: on a store with two such products, both above the
    threshold, the search returns both without [rerank] and only the first
    with [rerank]. *)
Theorem rerankResults_drops_free_product :
  rerankResults "q" [Runs.free_A; Runs.free_B] default_lambda = [Runs.free_A]
  /\ is_nan (mmrScore default_lambda [Runs.free_A] Runs.free_B) = true
  /\ selectBest default_lambda [Runs.free_A] [Runs.free_B] = None
  /\ Fixture.ids (vectorSearch Runs.db_free (Fixture.options "q"))
     = ["A"; "B"]
  /\ Fixture.ids (vectorSearch Runs.db_free Runs.options_rerank) = ["A"].
Proof. vm_compute. repeat split; reflexivity. Qed.

End RunFacts.

Section RerankOption.
Context {ext : Collaborators}.

Lemma combine_descending vw kw limit V K :
  descendingBy SearchResult.similarity (combine vw kw limit V K).
Proof.
  unfold descendingBy, combine.
  apply (proj2 (Sorted_map _ _ SearchResult.similarity
                    (fun x y : JS.number => (0 <? y - x) = false) _)).
  assert (Hm : map SearchResult.similarity
                   (sortedResults (fuse vw kw V K) limit)
               = map snd (firstn (limitOr10 limit)
                            (JS.sort (JS.descending snd)
                                     (fst (fuse vw kw V K))))).
  { rewrite <- (sortedResults_map _ limit (fuse_aligned vw kw V K)), map_map.
    reflexivity. }
  rewrite Hm.
  apply (proj1 (Sorted_map _ _ snd
                    (fun x y : JS.number => (0 <? y - x) = false) _)).
  apply Sorted_firstn. apply sort_descending_sorted.
Qed.

(** The fusion returns as many results as there are candidates, up to
    [limit || 10]. *)
Lemma combine_length vw kw limit V K :
  List.length (combine vw kw limit V K)
  = Nat.min (limitOr10 limit) (List.length (fst (fuse vw kw V K))).
Proof.
  unfold combine.
  rewrite <- (length_map
                (fun r => (SearchResult.productId r, SearchResult.similarity r))).
  rewrite sortedResults_map by apply fuse_aligned.
  rewrite length_firstn, sort_length. reflexivity.
Qed.



End RerankOption.

(** ** [Math.max] *)

Module MaxFacts.
Import FloatFacts.

Lemma Math_max_cases a b :
  is_nan a = false -> is_nan b = false ->
  JS.Math_max a b = a \/ JS.Math_max a b = b.
Proof.
  intros Ha Hb. unfold JS.Math_max. rewrite Ha, Hb. simpl.
  destruct (a <? b); [auto|]. destruct (b <? a); [auto|].
  destruct (get_sign a); auto.
Qed.

Lemma Math_max_not_nan a b :
  is_nan a = false -> is_nan b = false -> is_nan (JS.Math_max a b) = false.
Proof.
  intros Ha Hb. destruct (Math_max_cases a b Ha Hb) as [-> | ->]; assumption.
Qed.

Lemma Math_max_ub_l a b :
  is_nan a = false -> is_nan b = false -> (a <=? JS.Math_max a b) = true.
Proof.
  intros Ha Hb. unfold JS.Math_max. rewrite Ha, Hb. simpl.
  destruct (a <? b) eqn:E1; [apply ltb_leb; exact E1|].
  destruct (b <? a) eqn:E2; [apply leb_refl; exact Ha|].
  destruct (get_sign a).
  - apply ltb_total; assumption.
  - apply leb_refl; exact Ha.
Qed.

Lemma Math_max_ub_r a b :
  is_nan a = false -> is_nan b = false -> (b <=? JS.Math_max a b) = true.
Proof.
  intros Ha Hb. unfold JS.Math_max. rewrite Ha, Hb. simpl.
  destruct (a <? b) eqn:E1; [apply leb_refl; exact Hb|].
  destruct (b <? a) eqn:E2; [apply ltb_leb; exact E2|].
  destruct (get_sign a).
  - apply leb_refl; exact Hb.
  - apply ltb_total; assumption.
Qed.

(** A running maximum over numbers: it is above the seed and above every
    value, and it is the seed or one of the values. *)
Lemma fold_max (A : Type) (f : A -> JS.number) (l : list A) : forall m,
  is_nan m = false ->
  (forall x, In x l -> is_nan (f x) = false) ->
  let R := fold_left (fun m x => JS.Math_max m (f x)) l m in
  is_nan R = false
  /\ (m <=? R) = true
  /\ (forall x, In x l -> (f x <=? R) = true)
  /\ (R = m \/ exists x, In x l /\ R = f x).
Proof.
  induction l as [|y l IH]; simpl; intros m Hm Hl.
  - repeat split; auto using leb_refl; intros x [].
  - assert (Hy : is_nan (f y) = false) by (apply Hl; auto).
    destruct (IH (JS.Math_max m (f y)) (Math_max_not_nan _ _ Hm Hy)
                (fun x Hx => Hl x (or_intror Hx)))
      as (Hn & Hseed & Hub & Hcase).
    split; [exact Hn|]. split; [|split].
    + apply (leb_trans _ (JS.Math_max m (f y)) _);
        [apply Math_max_ub_l; assumption|exact Hseed].
    + intros x [<-|Hx]; [|apply Hub; exact Hx].
      apply (leb_trans _ (JS.Math_max m (f y)) _);
        [apply Math_max_ub_r; assumption|exact Hseed].
    + destruct Hcase as [Heq|(x & Hx & Heq)].
      * destruct (Math_max_cases m (f y) Hm Hy) as [E|E].
        -- left. rewrite Heq. exact E.
        -- right. exists y. split; [left; reflexivity|].
           rewrite Heq. exact E.
      * right. exists x. auto.
Qed.

(** From the seed [0] and over non-negative numbers, the running maximum
    is the maximum of the list. *)
Lemma fold_max_is_maximum (A : Type) (f : A -> JS.number) (l : list A) :
  l <> [] ->
  (forall x, In x l -> (0 <=? f x) = true) ->
  isMaximumOf (map f l) (fold_left (fun m x => JS.Math_max m (f x)) l 0).
Proof.
  intros Hne Hpos.
  destruct (fold_max _ f l 0 eq_refl
              (fun x Hx => proj2 (leb_not_nan _ _ (Hpos x Hx))))
    as (Hn & Hseed & Hub & Hcase).
  split.
  - intros v Hv. apply in_map_iff in Hv. destruct Hv as (x & <- & Hx).
    apply Hub. exact Hx.
  - destruct Hcase as [Heq|(x & Hx & Heq)].
    + destruct l as [|x l]; [congruence|].
      exists (f x). split; [simpl; auto|].
      apply leb_antisym.
      * rewrite Heq. apply Hpos. simpl. auto.
      * apply Hub. simpl. auto.
    + exists (f x). split; [apply in_map_iff; exists x; auto|].
      rewrite Heq. apply eqb_refl.
      apply (proj2 (leb_not_nan _ _ (Hpos x Hx))).
Qed.

End MaxFacts.

(** ** The MMR reranker ([rerankResults], lines 248-307) *)

Section RerankFacts.
Import FloatFacts.
Variable lambda : JS.number.
Implicit Types (reranked remaining candidates : list SearchResult.t).

Local Abbreviation score := (mmrScore lambda).

(** The scan over the candidates keeps the first candidate that no other
    candidate beats, if one beats the score it starts from. *)
Lemma scan_spec reranked candidates : forall i (s0 : float) o0,
  (scan lambda reranked candidates i (s0, o0) = (s0, o0)
   /\ forall c, In c candidates -> (s0 <? score reranked c) = false)
  \/ (exists j c,
        scan lambda reranked candidates i (s0, o0)
        = (score reranked c, Some (i + j)%nat)
        /\ nth_error candidates j = Some c
        /\ (s0 <? score reranked c) = true
        /\ (forall c', In c' candidates ->
                       (score reranked c <? score reranked c') = false)
        /\ (forall j' c', (j' < j)%nat -> nth_error candidates j' = Some c' ->
                          (score reranked c <=? score reranked c') = false)).
Proof.
  induction candidates as [|c rest IH]; intros i s0 o0; simpl.
  - left. split; [reflexivity|]. intros c [].
  - destruct (s0 <? score reranked c) eqn:E.
    + right.
      destruct (IH (S i) (score reranked c) (Some i))
        as [[Hres Hno]|(j & c2 & Hres & Hnth & Hlt & Hno & Hfirst)].
      * exists 0%nat, c. rewrite Hres, Nat.add_0_r. repeat split; auto.
        -- intros c' [<-|Hc']; [apply ltb_irrefl|apply Hno; exact Hc'].
        -- intros j' c' Hj. lia.
      * exists (S j), c2. rewrite Hres, Nat.add_succ_r.
        repeat split; auto.
        -- eapply ltb_trans; eassumption.
        -- intros c' [<-|Hc']; [apply ltb_asym; exact Hlt|apply Hno; exact Hc'].
        -- intros [|j'] c' Hj Hn; simpl in Hn.
           ++ injection Hn as <-.
              destruct (score reranked c2 <=? score reranked c) eqn:E2;
                [|reflexivity].
              apply leb_ltb_false in E2. congruence.
           ++ apply (Hfirst j'); [lia|exact Hn].
    + destruct (IH (S i) s0 o0)
        as [[Hres Hno]|(j & c2 & Hres & Hnth & Hlt & Hno & Hfirst)].
      * left. split; [exact Hres|].
        intros c' [<-|Hc']; [exact E|apply Hno; exact Hc'].
      * right. exists (S j), c2. rewrite Hres, Nat.add_succ_r.
        repeat split; auto.
        -- intros c' [<-|Hc']; [|apply Hno; exact Hc'].
           destruct (score reranked c2 <? score reranked c) eqn:E2;
             [|reflexivity].
           rewrite (ltb_trans _ _ _ Hlt E2) in E. discriminate.
        -- intros [|j'] c' Hj Hn; simpl in Hn.
           ++ injection Hn as <-.
              destruct (score reranked c2 <=? score reranked c) eqn:E2;
                [|reflexivity].
              rewrite (ltb_leb_trans _ _ _ Hlt E2) in E. discriminate.
           ++ apply (Hfirst j'); [lia|exact Hn].
Qed.

Lemma selectBest_spec reranked remaining :
  (selectBest lambda reranked remaining = None
   /\ forall c, In c remaining -> (neg_infinity <? score reranked c) = false)
  \/ (exists i best,
        selectBest lambda reranked remaining = Some i
        /\ nth_error remaining i = Some best
        /\ (neg_infinity <? score reranked best) = true
        /\ (forall c, In c remaining ->
                      (score reranked best <? score reranked c) = false)
        /\ (forall j c, (j < i)%nat -> nth_error remaining j = Some c ->
                        (score reranked best <=? score reranked c) = false)).
Proof.
  unfold selectBest.
  destruct (scan_spec reranked remaining 0 neg_infinity None)
    as [[Hres Hno]|(j & c & Hres & Hrest)]; rewrite Hres; simpl.
  - left. auto.
  - right. exists j, c. auto.
Qed.

Lemma nth_error_splice1 (A : Type) (l : list A) : forall i x,
  nth_error l i = Some x -> Permutation l (x :: splice1 i l).
Proof.
  induction l as [|a l IH]; intros [|i] x H; simpl in H; try discriminate.
  - injection H as ->. reflexivity.
  - change (splice1 (S i) (a :: l)) with (a :: splice1 i l).
    rewrite perm_swap. apply perm_skip. apply IH. exact H.
Qed.

Lemma splice1_length (A : Type) (l : list A) i x :
  nth_error l i = Some x -> S (List.length (splice1 i l)) = List.length l.
Proof.
  intros H. apply nth_error_splice1 in H. apply Permutation_length in H.
  simpl in H. congruence.
Qed.

(** The loop moves candidates from [remaining] to the end of [reranked]:
    it never invents or repeats a result. *)
Lemma mmrLoop_moves fuel : forall total reranked remaining,
  exists picked dropped,
    mmrLoop fuel lambda total reranked remaining = reranked ++ picked
    /\ Permutation remaining (picked ++ dropped).
Proof.
  induction fuel as [|fuel IH]; intros total reranked remaining; simpl.
  - exists [], remaining. rewrite app_nil_r. auto.
  - destruct ((0 <? List.length remaining)%nat
              && (List.length reranked <? total)%nat);
      [|exists [], remaining; rewrite app_nil_r; auto].
    destruct (selectBest lambda reranked remaining) as [i|];
      [|exists [], remaining; rewrite app_nil_r; auto].
    destruct (nth_error remaining i) as [best|] eqn:E;
      [|exists [], remaining; rewrite app_nil_r; auto].
    destruct (IH total (reranked ++ [best]) (splice1 i remaining))
      as (picked & dropped & Hres & Hperm).
    exists (best :: picked), dropped. split.
    + rewrite Hres, <- app_assoc. reflexivity.
    + rewrite (nth_error_splice1 _ _ _ _ E). simpl. apply perm_skip. exact Hperm.
Qed.

(** More fuel than candidates changes nothing: the loop has ended. *)
Lemma mmrLoop_fuel n : forall fuel total reranked remaining,
  (List.length remaining <= n)%nat -> (n <= fuel)%nat ->
  mmrLoop fuel lambda total reranked remaining
  = mmrLoop n lambda total reranked remaining.
Proof.
  induction n as [|n IH]; intros fuel total reranked remaining Hlen Hfuel.
  - destruct remaining; [|simpl in Hlen; lia].
    destruct fuel; reflexivity.
  - destruct fuel as [|fuel]; [lia|]. simpl.
    destruct ((0 <? List.length remaining)%nat
              && (List.length reranked <? total)%nat); [|reflexivity].
    destruct (selectBest lambda reranked remaining) as [i|]; [|reflexivity].
    destruct (nth_error remaining i) as [best|] eqn:E; [|reflexivity].
    apply IH; [|lia]. apply splice1_length in E. lia.
Qed.

End RerankFacts.

(** The pairwise similarity of the code is the formula of the
    specification. *)
Lemma pairSimilarity_formula (a b : SearchResult.t) :
  pairSimilarity a b = pairwiseSimilarity_spec a b.
Proof.
  unfold pairSimilarity, pairwiseSimilarity_spec, indicator.
  destruct (JS.strict_eq (SearchResult.category a) (SearchResult.category b)),
    (JS.strict_eq (SearchResult.brand a) (SearchResult.brand b)),
    (SearchResult.price a) as [pa|], (SearchResult.price b) as [pb|];
    reflexivity.
Qed.

Section MmrStep.
Import FloatFacts.
Variable lambda : JS.number.

(** The diversity penalty is the maximum of the pairwise similarities to
    the results already selected, when these are non-negative numbers. *)
Lemma maxSimilarityToSelected_max reranked c :
  reranked <> [] ->
  (forall s, In s reranked -> (0 <=? pairSimilarity s c) = true) ->
  isMaximumOf (map (fun s => pairSimilarity s c) reranked)
              (maxSimilarityToSelected reranked c).
Proof.
  intros Hne Hpos. unfold maxSimilarityToSelected.
  apply (MaxFacts.fold_max_is_maximum _ (fun s => pairSimilarity s c));
    assumption.
Qed.

(** X26. A selection step of the MMR loop in which every pairwise
    similarity between a selected result and a candidate, 0.3 for the
    same category plus 0.3 for the same brand plus [0.4 * (1 - |pa - pb|
    / max(pa, pb))] when both have a price, is a non-negative number, and
    in which some candidate has a score above [-Infinity].  The diversity
    penalty of every candidate is the maximum of its pairwise
    similarities to the results already selected; its score is [lambda *
    similarity - (1 - lambda) * penalty]; and the candidate appended next
    is the first of the candidates of greatest score. *)
Theorem mmr_step_maximizes (total fuel : nat)
  (reranked remaining : list SearchResult.t)
  (Hselected : reranked <> [])
  (Hguard : (List.length reranked < total)%nat)
  (Hsim : forall s c, In s reranked -> In c remaining ->
                      (0 <=? pairwiseSimilarity_spec s c) = true)
  (Hscore : exists c, In c remaining
                      /\ (neg_infinity <? mmrScore lambda reranked c) = true) :
  (forall c, In c remaining ->
     isMaximumOf (map (fun s => pairwiseSimilarity_spec s c) reranked)
                 (maxSimilarityToSelected reranked c)
     /\ mmrScore lambda reranked c
        = lambda * SearchResult.similarity c
          - (1 - lambda) * maxSimilarityToSelected reranked c)
  /\ exists i best,
       nth_error remaining i = Some best
       /\ maximizes (mmrScore lambda reranked) remaining best
       /\ (forall j c, (j < i)%nat -> nth_error remaining j = Some c ->
              (mmrScore lambda reranked best <=? mmrScore lambda reranked c)
              = false)
       /\ mmrLoop (S fuel) lambda total reranked remaining
          = mmrLoop fuel lambda total (reranked ++ [best])
                    (splice1 i remaining).
Proof.
  split.
  - intros c Hc. split; [|reflexivity].
    rewrite <- (map_ext _ _ (fun s => pairSimilarity_formula s c)).
    apply maxSimilarityToSelected_max; [exact Hselected|].
    intros s Hs. rewrite pairSimilarity_formula. apply Hsim; assumption.
  - destruct (selectBest_spec lambda reranked remaining)
      as [[Hnone Hno]|(i & best & Hsome & Hnth & Hlt & Hmax & Hfirst)].
    + destruct Hscore as (c & Hc & Hc'). rewrite (Hno c Hc) in Hc'.
      discriminate.
    + exists i, best. split; [exact Hnth|]. split; [|split].
      * split; [eapply nth_error_In; exact Hnth|exact Hmax].
      * exact Hfirst.
      * simpl. rewrite Hsome, Hnth.
        assert (Hrem : (0 <? List.length remaining)%nat = true).
        { apply Nat.ltb_lt. destruct remaining; simpl; [|lia].
          destruct i; discriminate. }
        apply Nat.ltb_lt in Hguard. rewrite Hrem, Hguard. reflexivity.
Qed.

End MmrStep.

(** The step from [[A]] with [B] and [C] remaining: [C] is appended. *)
Lemma mmr_step_maximizes_witness :
  exists i best,
    nth_error [Ranked.B; Ranked.C] i = Some best
    /\ maximizes (mmrScore default_lambda [Ranked.A])
                 [Ranked.B; Ranked.C] best
    /\ (forall j c, (j < i)%nat -> nth_error [Ranked.B; Ranked.C] j = Some c ->
           (mmrScore default_lambda [Ranked.A] best
            <=? mmrScore default_lambda [Ranked.A] c) = false)
    /\ mmrLoop 3 default_lambda 3 [Ranked.A] [Ranked.B; Ranked.C]
       = mmrLoop 2 default_lambda 3 ([Ranked.A] ++ [best])
                 (splice1 i [Ranked.B; Ranked.C]).
Proof.
  apply (mmr_step_maximizes default_lambda 3 2
           [Ranked.A] [Ranked.B; Ranked.C]).
  - discriminate.
  - simpl. lia.
  - intros s c [<-|[]] [<-|[<-|[]]]; vm_compute; reflexivity.
  - exists Ranked.C. split; [simpl; auto|]. vm_compute. reflexivity.
Defined.

(** C6. The diversity penalty starts from 0.  The selected result [S]
    has the price [-10.00] and the candidate [N] the price [10.00], and
    they share nothing: their pairwise similarity is [0.4 * (1 - 20 /
    10) = -0.4] by the code and by the formula, and it is the maximum
    over the one selected result; the penalty of the code is 0.  The
    candidate [M] has the similarity 0 to [S].  The code appends [M],
    whose score is [0.7 * 0.96 = 0.672], before [N], whose score it has
    as [0.7 * 0.8 = 0.56]; by the formula of the claim [N] has the
    greater score, [0.56 + 0.3 * 0.4 = 0.68].  So it is through
    [vectorSearch] on a store with the three products.  And where the
    selected result and the one candidate both cost [0.00] the penalty
    is NaN and the step appends nothing, though a candidate remains and
    the output is short of the input. *)
Theorem mmr_penalty_starts_at_zero :
  (pairSimilarity Runs.refund_S Runs.refund_N = -0.4
   /\ pairwiseSimilarity_spec Runs.refund_S Runs.refund_N = -0.4
   /\ diversityPenalty_spec [Runs.refund_S] Runs.refund_N = -0.4
   /\ maxSimilarityToSelected [Runs.refund_S] Runs.refund_N = 0
   /\ pairSimilarity Runs.refund_S Runs.refund_M = 0)
  /\ (mmrScore default_lambda [Runs.refund_S] Runs.refund_M
      = 0.7 * 0.96 - (1 - 0.7) * 0
      /\ mmrScore default_lambda [Runs.refund_S] Runs.refund_N
         = 0.7 * 0.8 - (1 - 0.7) * 0
      /\ selectBest default_lambda [Runs.refund_S]
                    [Runs.refund_M; Runs.refund_N] = Some 0%nat
      /\ mmrLoop 1 default_lambda 3 [Runs.refund_S]
                 [Runs.refund_M; Runs.refund_N]
         = [Runs.refund_S; Runs.refund_M]
      /\ Fixture.ids (rerankResults "q"
                        [Runs.refund_S; Runs.refund_M; Runs.refund_N]
                        default_lambda)
         = ["S"; "M"; "N"])
  /\ (mmrScore_spec default_lambda [Runs.refund_S] Runs.refund_N
      = 0.7 * 0.8 - (1 - 0.7) * -0.4
      /\ mmrScore_spec default_lambda [Runs.refund_S] Runs.refund_M
         = 0.7 * 0.96 - (1 - 0.7) * 0
      /\ (mmrScore_spec default_lambda [Runs.refund_S] Runs.refund_M
          <? mmrScore_spec default_lambda [Runs.refund_S] Runs.refund_N) = true
      /\ (mmrScore default_lambda [Runs.refund_S] Runs.refund_N
          <? mmrScore default_lambda [Runs.refund_S] Runs.refund_M) = true)
  /\ (Fixture.ids (@vectorSearch Fixture.collaborators Runs.db_refund
                                 (Fixture.options "q"))
      = ["S"; "M"; "N"]
      /\ Fixture.ids (@vectorSearch Fixture.collaborators Runs.db_refund
                                    Runs.options_rerank)
         = ["S"; "M"; "N"])
  /\ (is_nan (pairSimilarity Runs.free_A Runs.free_B) = true
      /\ is_nan (maxSimilarityToSelected [Runs.free_A] Runs.free_B) = true
      /\ selectBest default_lambda [Runs.free_A] [Runs.free_B] = None
      /\ mmrLoop 1 default_lambda 2 [Runs.free_A] [Runs.free_B]
         = [Runs.free_A]).
Proof. vm_compute. repeat split; reflexivity. Qed.

(** ** The score aggregator ([vectorSearch], lines 133-172) *)

Section AggregateFacts.
Import FloatFacts.

Lemma aggregate_app hits c :
  aggregate (hits ++ [c]) = addChunk (aggregate hits) c.
Proof. unfold aggregate. rewrite fold_left_app. reflexivity. Qed.

Lemma chunksOf_app id hits c :
  chunksOf id (hits ++ [c])
  = chunksOf id hits
    ++ (if String.eqb (ChunkRow.productId c) id then [c] else []).
Proof. unfold chunksOf. rewrite filter_app. reflexivity. Qed.

Lemma scoresOf_app cs c :
  scoresOf (cs ++ [c])
  = Scores.mk
      (JS.Math_max (Scores.maxSimilarity (scoresOf cs)) (ChunkRow.similarity c))
      (average (Scores.chunks (scoresOf cs) ++ [toChunkResult c]))
      (Scores.chunks (scoresOf cs) ++ [toChunkResult c]).
Proof. unfold scoresOf. rewrite fold_left_app, map_app. reflexivity. Qed.

Lemma aggregate_get hits : forall id,
  JS.get (aggregate hits) id
  = match chunksOf id hits with
    | [] => None
    | cs => Some (scoresOf cs)
    end.
Proof.
  induction hits as [|c hits IH] using rev_ind; intros id; [reflexivity|].
  rewrite aggregate_app, chunksOf_app. unfold addChunk.
  destruct (String.eqb (ChunkRow.productId c) id) eqn:E.
  - apply String.eqb_eq in E. subst id. rewrite get_set_same, IH.
    destruct (chunksOf (ChunkRow.productId c) hits) as [|c0 cs] eqn:Ecs.
    + reflexivity.
    + rewrite <- (scoresOf_app (c0 :: cs) c). reflexivity.
  - apply String.eqb_neq in E. rewrite get_set_other by exact E.
    rewrite app_nil_r. apply IH.
Qed.

End AggregateFacts.

Section AggregatorClaims.
Import FloatFacts.
Local Existing Instance Fixture.collaborators.



(** C4. A chunk of similarity [-0.2] (a hit whenever the threshold is
    below it): [maxSimilarity] is [0], the value the maximum starts from,
    not [-0.2], and the product's score is [0 * 0.7 + (-0.2) * 0.3].  End
    to end, with threshold [-1] and a chunk of cosine similarity about
    [-0.6], [vectorSearch] scores the product about [-0.18]. *)
Theorem aggregate_maximum_starts_at_zero :
  map (fun e => (fst e, Scores.maxSimilarity (snd e),
                 Scores.avgSimilarity (snd e), combinedScore (snd e)))
      (aggregate [Hits.hit "P" "c1" (-0.2)])
  = [("P", 0, -0.2, 0 * 0.7 + -0.2 * 0.3)]
  /\ map ChunkRow.similarity
         (chunkQuery Hits.db_opposed Fixture.embedding (-1) [] 10 0)
     = [-0.60000000000000009]
  /\ map (fun r => (SearchResult.productId r, SearchResult.similarity r))
         (vectorSearch Hits.db_opposed Hits.options_any)
     = [("N", 0 * 0.7 + -0.60000000000000009 * 0.3)].
Proof. vm_compute. repeat split; reflexivity. Qed.



(** The aggregation example of the specification in binary64: the
    similarities 0.9, 0.5 and 0.7 of one product give [maxSimilarity] 0.9,
    [avgSimilarity] 0.6999999999999998 and [combinedScore] 0.84. *)
Theorem aggregate_example :
  map (fun e => (fst e, Scores.maxSimilarity (snd e),
                 Scores.avgSimilarity (snd e), combinedScore (snd e)))
      (aggregate hits_example)
  = [("P", 0.9, 0.69999999999999984, 0.84)].
Proof. vm_compute. reflexivity. Qed.

End AggregatorClaims.

(** ** The fused score and the formula of the specification *)

Section FusionFormula.
Import FloatFacts.

(** For finite weights and vector terms that are numbers, the score that
    the fusion gives a candidate is the number
    [vectorComponent * vectorWeight + lexicalComponent * keywordWeight] of
    the specification, a missing side counting as 0. *)
Lemma fuse_matches_formula (vectorWeight keywordWeight : JS.number)
  (V K : list SearchResult.t) (id : string) :
  NoDup (map SearchResult.productId V) ->
  NoDup (map SearchResult.productId K) ->
  is_finite vectorWeight = true ->
  is_finite keywordWeight = true ->
  (forall r, In r V ->
             is_nan (SearchResult.similarity r * vectorWeight) = false) ->
  In id (JS.keys (fst (fuse vectorWeight keywordWeight V K))) ->
  exists s,
    JS.get (fst (fuse vectorWeight keywordWeight V K)) id = Some s
    /\ same_number s (finalScore_spec vectorWeight keywordWeight
                        (lookup id V) (lookup id K)) = true.
Proof.
  intros HV HK Hvw Hkw Hnum Hid.
  apply (fuse_keys _ _ _ _ _ HV HK) in Hid.
  rewrite (fuse_get _ _ _ _ _ HV HK).
  unfold fusedScore, finalScore_spec, component.
  destruct (lookup id V) as [rv|] eqn:Ev, (lookup id K) as [rk|] eqn:Ek.
  - eexists. split; [reflexivity|]. apply or_zero_add, Hnum.
    apply (lookup_Some _ _ _ Ev).
  - eexists. split; [reflexivity|]. apply add_zero_mul. exact Hkw.
  - eexists. split; [reflexivity|]. apply zero_mul_add. exact Hvw.
  - exfalso. destruct Hid as [H|H]; apply lookup_In in H; congruence.
Qed.

End FusionFormula.

(** ** The hybrid combiner *)

(** C5, as stated, fails.  The results are cut to [limit || 10], so
    with the limit 0 the one candidate is returned.  A vector score that
    is NaN enters the sum of a product of both sides as 0, where the
    formula gives NaN.  Under an infinite vector weight a product of the
    lexical side alone is scored by its lexical term, where the formula
    gives NaN for [0 * Infinity].  And two candidates of which one has
    the score NaN cannot be arranged in descending order of the score. *)
Lemma fusion_departs_from_formula :
  List.length (combine 0.7 0.3 (Some 0%nat) fusion_vector fusion_lexical)
  = 1%nat
  /\ (JS.get (fst (fuse 0.7 0.3 fusion_vector_nan fusion_lexical)) "P"
      = Some (0 + 0.4 * 0.3)
      /\ is_nan (finalScore_spec 0.7 0.3 (lookup "P" fusion_vector_nan)
                                 (lookup "P" fusion_lexical)) = true)
  /\ (JS.get (fst (fuse infinity 0.3 [] fusion_lexical)) "P"
      = Some (0 + 0.4 * 0.3)
      /\ is_nan (finalScore_spec infinity 0.3 (lookup "P" [])
                                 (lookup "P" fusion_lexical)) = true)
  /\ (fst (fuse 0.7 0.3 fusion_vector_nan_first []) = [("A", nan); ("B", 0.5 * 0.7)]
      /\ forall l, Permutation [("A", nan); ("B", 0.5 * 0.7)] l ->
                   ~ nonIncreasingBy snd l).
Proof.
  split; [vm_compute; reflexivity|].
  split; [split; vm_compute; reflexivity|].
  split; [split; vm_compute; reflexivity|].
  split; [vm_compute; reflexivity|].
  intros l Hperm Hsorted.
  apply Permutation_length_2_inv in Hperm.
  destruct Hperm as [->| ->]; inversion Hsorted as [|? ? _ Hhd];
    inversion Hhd as [|? ? Hle]; vm_compute in Hle; discriminate.
Qed.

(** C5, amended. The fusion (lines 334-361) of a vector and a lexical
    result list that are per-product: neither lists a product twice.  The candidates are the union
    of the two sides, each once.  The score of a candidate is [(v *
    vectorWeight || 0) + k * keywordWeight] when it is on both sides, [v *
    vectorWeight] on the vector side alone and [0 + k * keywordWeight] on
    the lexical side alone; for finite weights and vector terms that are
    numbers this is the number [vectorComponent * vectorWeight +
    lexicalComponent * keywordWeight], a side the product is missing from
    contributing 0.  There are as many results as candidates, up to
    [limit || 10] (10 when [limit] is absent or 0); when no score is NaN
    they are the candidates in descending order of the score, cut to that
    length.  On the example of the specification the score is the
    binary64 value of [0.8 * 0.7 + 0.4 * 0.3], the number next below
    0.68. *)
Theorem hybrid_fusion (vectorWeight keywordWeight : JS.number)
  (limit : option nat) (V K : list SearchResult.t)
  (HV : NoDup (map SearchResult.productId V))
  (HK : NoDup (map SearchResult.productId K)) :
  let scores := fst (fuse vectorWeight keywordWeight V K) in
  let results := combine vectorWeight keywordWeight limit V K in
  (forall id, In id (JS.keys scores)
              <-> In id (map SearchResult.productId V)
                  \/ In id (map SearchResult.productId K))
  /\ NoDup (JS.keys scores)
  /\ (forall id,
        JS.get scores id
        = match lookup id V, lookup id K with
          | Some rv, Some rk =>
              Some (JS.or_zero (SearchResult.similarity rv * vectorWeight)
                    + SearchResult.similarity rk * keywordWeight)
          | Some rv, None => Some (SearchResult.similarity rv * vectorWeight)
          | None, Some rk => Some (0 + SearchResult.similarity rk * keywordWeight)
          | None, None => None
          end)
  /\ (is_finite vectorWeight = true ->
      is_finite keywordWeight = true ->
      (forall r, In r V ->
                 is_nan (SearchResult.similarity r * vectorWeight) = false) ->
      forall id, In id (JS.keys scores) ->
        exists s,
          JS.get scores id = Some s
          /\ same_number s (finalScore_spec vectorWeight keywordWeight
                              (lookup id V) (lookup id K)) = true)
  /\ List.length results
     = Nat.min (match limit with Some (S n) => S n | _ => 10%nat end)
               (List.length scores)
  /\ ((forall id s, JS.get scores id = Some s -> is_nan s = false) ->
      map (fun r => (SearchResult.productId r, SearchResult.similarity r))
          results
      = firstn (match limit with Some (S n) => S n | _ => 10%nat end)
               (JS.sort (JS.descending snd) scores)
      /\ descendingBy SearchResult.similarity results)
  /\ (map SearchResult.similarity
          (combine 0.7 0.3 None fusion_vector fusion_lexical)
      = [0.8 * 0.7 + 0.4 * 0.3]
      /\ next_up (0.8 * 0.7 + 0.4 * 0.3) = 0.68).
Proof.
  cbv zeta.
  split; [|split; [|split; [|split; [|split; [|split]]]]].
  - intros id. apply fuse_keys; assumption.
  - apply fuse_NoDup.
  - intros id. apply fuse_get; assumption.
  - intros Hvw Hkw Hnum id. apply fuse_matches_formula; assumption.
  - apply combine_length.
  - intros _. split.
    + apply sortedResults_map. apply fuse_aligned.
    + apply combine_descending.
  - split; vm_compute; reflexivity.
Qed.

(** The example of the specification: one product, on both sides. *)
Lemma hybrid_fusion_witness :
  JS.get (fst (fuse 0.7 0.3 fusion_vector fusion_lexical)) "P"
  = Some (JS.or_zero (0.8 * 0.7) + 0.4 * 0.3).
Proof.
  assert (HV : NoDup (map SearchResult.productId fusion_vector))
    by (repeat constructor; simpl; tauto).
  assert (HK : NoDup (map SearchResult.productId fusion_lexical))
    by (repeat constructor; simpl; tauto).
  destruct (hybrid_fusion 0.7 0.3 None fusion_vector fusion_lexical HV HK)
    as (_ & _ & H & _).
  apply (H "P").
Defined.

(** ** The vector retriever ([vectorSearch], lines 109-131) *)

Section RetrieverFacts.
Context {ext : Collaborators}.
Variable db : Database.
Variable queryEmbedding : Pg.vector.
Variable conditions : list Filter.condition.

Lemma matchedChunks_In threshold row :
  In row (matchedChunks db queryEmbedding threshold conditions)
  <-> exists c s,
        In c (productChunks_rows db)
        /\ chunkSimilarity queryEmbedding c = Some s
        /\ Pg.float8_gt s threshold = true
        /\ forallb (productIn db (productChunks.productId c)) conditions = true
        /\ row = selectChunk c s.
Proof.
  unfold matchedChunks. rewrite in_flat_map. split.
  - intros (c & Hc & Hrow). unfold whereChunk in Hrow.
    destruct (chunkSimilarity queryEmbedding c) as [s|] eqn:Es; [|destruct Hrow].
    destruct (Pg.float8_gt s threshold) eqn:Egt; [|destruct Hrow].
    destruct (forallb _ conditions) eqn:Ef; [|destruct Hrow].
    destruct Hrow as [<-|[]]. exists c, s. auto.
  - intros (c & s & Hc & Hs & Hgt & Hf & ->). exists c. split; [exact Hc|].
    unfold whereChunk. rewrite Hs, Hgt, Hf. simpl. auto.
Qed.

Lemma whereChunk_antitone t1 t2 c :
  (t1 <=? t2) = true ->
  incl (whereChunk db queryEmbedding t2 conditions c)
       (whereChunk db queryEmbedding t1 conditions c)
  /\ (List.length (whereChunk db queryEmbedding t2 conditions c)
      <= List.length (whereChunk db queryEmbedding t1 conditions c))%nat.
Proof.
  intros Hle. unfold whereChunk.
  destruct (chunkSimilarity queryEmbedding c) as [s|];
    [|split; [apply incl_refl|apply Nat.le_refl]].
  destruct (Pg.float8_gt s t2) eqn:E2.
  - rewrite (Float8Facts.gt_antitone t1 t2 s Hle E2).
    split; [apply incl_refl|apply Nat.le_refl].
  - simpl. split; [intros x []|apply Nat.le_0_l].
Qed.

Lemma limit_offset_length (A : Type) n k (l : list A) :
  List.length (Pg.limit_offset n k l) = Nat.min n (List.length l - k).
Proof. unfold Pg.limit_offset. rewrite length_firstn, length_skipn. reflexivity. Qed.

Lemma chunkQuery_length threshold limit offset :
  List.length (chunkQuery db queryEmbedding threshold conditions limit offset)
  = Nat.min (limit * 3)
      (List.length (matchedChunks db queryEmbedding threshold conditions)
       - offset).
Proof.
  unfold chunkQuery, Pg.order_by_desc.
  rewrite limit_offset_length, sort_length. reflexivity.
Qed.

(** The condition on the product of a chunk, spelled out. *)
Lemma productIn_all productId :
  forallb (productIn db productId) conditions = true
  <-> forall cond, In cond conditions ->
        exists p, In p (products_rows db)
                  /\ products.id p = productId /\ cond p = true.
Proof.
  rewrite forallb_forall. split; intros H cond Hcond.
  - specialize (H cond Hcond). unfold productIn in H.
    apply existsb_exists in H. destruct H as (p & Hp & Hc).
    apply andb_true_iff in Hc. destruct Hc as [Hid Hc].
    apply String.eqb_eq in Hid. exists p. auto.
  - destruct (H cond Hcond) as (p & Hp & Hid & Hc). unfold productIn.
    apply existsb_exists. exists p. split; [exact Hp|].
    rewrite Hc, andb_true_r. apply String.eqb_eq. exact Hid.
Qed.

(** C7, amended. The chunks that the [WHERE] clause keeps at a threshold
    that is a number are exactly the chunks that carry an embedding,
    whose product meets every condition, and whose similarity [1 -
    (embedding <=> query)] is above the threshold in the order of the
    store: strictly greater than the threshold when it is a number (a
    chunk at or below the threshold is discarded), or NaN, which the
    store orders above every number.  With a higher threshold every
    matched chunk is still matched by the lower one, so there are no more
    matched chunks, before and after [LIMIT] and [OFFSET]. *)
Theorem threshold_monotone (t1 t2 : float) (limit offset : nat)
  (Hle : (t1 <=? t2) = true) :
  (forall row,
      In row (matchedChunks db queryEmbedding t2 conditions)
      <-> exists c e,
            let s := 1 - cosine_distance e queryEmbedding in
            In c (productChunks_rows db)
            /\ productChunks.embedding c = Some e
            /\ (if is_nan s then true else t2 <? s) = true
            /\ (forall cond, In cond conditions ->
                  exists p, In p (products_rows db)
                            /\ products.id p = productChunks.productId c
                            /\ cond p = true)
            /\ row = ChunkRow.mk (productChunks.productId c)
                        (productChunks.id c) (productChunks.chunkType c)
                        (productChunks.chunkContent c)
                        (productChunks.position c) s)
  /\ incl (matchedChunks db queryEmbedding t2 conditions)
          (matchedChunks db queryEmbedding t1 conditions)
  /\ (List.length (matchedChunks db queryEmbedding t2 conditions)
      <= List.length (matchedChunks db queryEmbedding t1 conditions))%nat
  /\ (List.length (chunkQuery db queryEmbedding t2 conditions limit offset)
      <= List.length (chunkQuery db queryEmbedding t1 conditions limit offset))%nat.
Proof.
  assert (Hlen : (List.length (matchedChunks db queryEmbedding t2 conditions)
                  <= List.length (matchedChunks db queryEmbedding t1 conditions))%nat).
  { unfold matchedChunks.
    induction (productChunks_rows db) as [|c l IH]; simpl; [lia|].
    rewrite !length_app.
    pose proof (proj2 (whereChunk_antitone t1 t2 c Hle)). lia. }
  assert (Ht2 : is_nan t2 = false) by apply (FloatFacts.leb_not_nan _ _ Hle).
  assert (Hgt : forall s, Pg.float8_gt s t2
                          = if is_nan s then true else t2 <? s).
  { intros s. unfold Pg.float8_gt, Pg.float8_lt. rewrite Ht2.
    destruct (is_nan s); reflexivity. }
  split; [|split; [|split]].
  - intros row. rewrite matchedChunks_In. cbv zeta. split.
    + intros (c & s & Hc & Hs & Hs2 & Hall & ->). unfold chunkSimilarity in Hs.
      destruct (productChunks.embedding c) as [e|] eqn:E; [|discriminate].
      simpl in Hs. injection Hs as <-. exists c, e.
      rewrite <- Hgt. rewrite productIn_all in Hall. auto.
    + intros (c & e & Hc & He & Hs2 & Hall & ->).
      exists c, (1 - cosine_distance e queryEmbedding).
      split; [exact Hc|]. split; [unfold chunkSimilarity; rewrite He; reflexivity|].
      split; [rewrite Hgt; exact Hs2|]. split; [|reflexivity].
      apply productIn_all. exact Hall.
  - unfold matchedChunks. intros row Hrow. apply in_flat_map in Hrow.
    destruct Hrow as (c & Hc & Hrow). apply in_flat_map. exists c.
    split; [exact Hc|].
    apply (proj1 (whereChunk_antitone t1 t2 c Hle)). exact Hrow.
  - exact Hlen.
  - rewrite !chunkQuery_length. lia.
Qed.

End RetrieverFacts.

Section RetrieverRuns.
Local Existing Instance Fixture.collaborators.

(** On the three chunks of [Runs.db_abc], of similarity 1, 0.96 and 0.8:
    threshold 0.9 keeps no more chunks than threshold 0.5. *)
Lemma threshold_monotone_witness :
  (List.length (matchedChunks Runs.db_abc Fixture.embedding 0.9%float [])
   <= List.length (matchedChunks Runs.db_abc Fixture.embedding 0.5%float []))%nat.
Proof.
  apply (threshold_monotone Runs.db_abc Fixture.embedding [] 0.5 0.9 10 0).
  vm_compute. reflexivity.
Defined.

(** C7, as stated, fails: a chunk whose embedding is the zero vector has
    the similarity NaN, which is not greater than any threshold as a
    number; the [WHERE] clause keeps it at the default threshold 0.5, at
    0.99 and at [+Infinity], and [vectorSearch] returns its product. *)
Lemma zero_vector_chunk_is_kept :
  map productChunks.embedding (productChunks_rows Runs.db_zero)
  = [Some [0; 0]]
  /\ map ChunkRow.chunkId (matchedChunks Runs.db_zero Fixture.embedding 0.5 [])
     = ["z1"]
  /\ map (fun row => is_nan (ChunkRow.similarity row))
         (matchedChunks Runs.db_zero Fixture.embedding 0.5 []) = [true]
  /\ (0.5 <? nan) = false
  /\ map ChunkRow.chunkId (matchedChunks Runs.db_zero Fixture.embedding 0.99 [])
     = ["z1"]
  /\ map ChunkRow.chunkId
         (matchedChunks Runs.db_zero Fixture.embedding infinity [])
     = ["z1"]
  /\ Fixture.ids (vectorSearch Runs.db_zero (Fixture.options "q")) = ["Z"].
Proof. vm_compute. repeat split; reflexivity. Qed.

End RetrieverRuns.

(** ** The result assembler ([vectorSearch], lines 179-232) *)

Section AssemblerFacts.

Lemma of_entries_get (V : Type) (l : list (string * V)) : forall m k v,
  JS.get (fold_left (fun m kv => JS.set m (fst kv) (snd kv)) l m) k = Some v ->
  In (k, v) l \/ JS.get m k = Some v.
Proof.
  induction l as [|[k' v'] l IH]; simpl; intros m k v H; [auto|].
  apply IH in H. destruct H as [H|H]; [auto|].
  destruct (string_dec k' k) as [->|Hne].
  - rewrite get_set_same in H. injection H as ->. auto.
  - rewrite get_set_other in H by exact Hne. auto.
Qed.

Lemma of_entries_has (V : Type) (l : list (string * V)) : forall m k,
  In k (map fst l) \/ JS.get m k <> None ->
  JS.get (fold_left (fun m kv => JS.set m (fst kv) (snd kv)) l m) k <> None.
Proof.
  induction l as [|[k' v'] l IH]; simpl; intros m k H.
  - destruct H as [[]|H]. exact H.
  - apply IH. destruct (string_dec k' k) as [->|Hne].
    + right. rewrite get_set_same. discriminate.
    + destruct H as [[H|H]|H]; [contradiction|auto|].
      right. rewrite get_set_other by exact Hne. exact H.
Qed.

Variable db : Database.
Variable includeChunks : bool.

(** The lookup in [productMap] finds a row of the table under its id, and
    finds one exactly for the ids that resolve. *)
Lemma productMap_get ids id :
  let productMap :=
    JS.of_entries (map (fun p => (products.id p, p)) (productDetails db ids)) in
  (forall p, JS.get productMap id = Some p ->
             In p (products_rows db) /\ products.id p = id)
  /\ (In id ids -> (JS.get productMap id <> None <-> resolves db id = true)).
Proof.
  cbv zeta. unfold JS.of_entries. split.
  - intros p H. apply of_entries_get in H. destruct H as [H|H]; [|discriminate].
    apply in_map_iff in H. destruct H as (p' & [= <- <-] & Hin).
    apply filter_In in Hin. split; [apply Hin|reflexivity].
  - intros Hid. split.
    + intros H. destruct (JS.get _ id) as [p|] eqn:E; [|congruence].
      apply of_entries_get in E. destruct E as [E|E]; [|discriminate].
      apply in_map_iff in E. destruct E as (p' & [= <- <-] & Hin).
      apply filter_In in Hin. unfold resolves. apply existsb_exists.
      exists p'. split; [apply Hin|apply String.eqb_refl].
    + intros H. apply of_entries_has. left.
      unfold resolves in H. apply existsb_exists in H.
      destruct H as (p & Hp & Heq). apply String.eqb_eq in Heq.
      rewrite map_map. simpl. apply in_map_iff. exists p. split; [exact Heq|].
      apply filter_In. split; [exact Hp|]. apply existsb_exists.
      exists id. split; [exact Hid|]. rewrite Heq. apply String.eqb_refl.
Qed.

Lemma assemble_ids_aux (productMap : JS.Map products.row) (l : list TopProduct.t) :
  (forall id p, JS.get productMap id = Some p -> products.id p = id) ->
  (forall item, In item l ->
     (JS.get productMap (TopProduct.productId item) <> None
      <-> resolves db (TopProduct.productId item) = true)) ->
  map SearchResult.productId
      (filterBoolean (map (buildResult productMap includeChunks) l))
  = filter (resolves db) (map TopProduct.productId l).
Proof.
  intros Hkey Hres. induction l as [|item l IH]; [reflexivity|].
  simpl. unfold buildResult at 1.
  pose proof (Hres item (or_introl eq_refl)) as Hitem.
  destruct (JS.get productMap (TopProduct.productId item)) as [p|] eqn:E.
  - rewrite (proj1 Hitem) by discriminate. simpl.
    rewrite (Hkey _ _ E). f_equal. apply IH.
    intros item' Hin. apply Hres. right. exact Hin.
  - destruct (resolves db (TopProduct.productId item)) eqn:R.
    + exfalso. apply (proj2 Hitem); reflexivity.
    + simpl. apply IH. intros item' Hin. apply Hres. right. exact Hin.
Qed.

Lemma assemble_ids (topProductIds : list TopProduct.t) :
  map SearchResult.productId (assemble db includeChunks topProductIds)
  = filter (resolves db) (map TopProduct.productId topProductIds).
Proof.
  pose proof (fun id => productMap_get (map TopProduct.productId topProductIds) id)
    as Hmap. cbv zeta in Hmap.
  unfold assemble. apply assemble_ids_aux.
  - intros id p H. apply (proj1 (Hmap id)). exact H.
  - intros item Hin. apply (proj2 (Hmap _)). apply in_map. exact Hin.
Qed.

(** Every assembled result is built from a ranked item and the row of
    the table filed under the item's id. *)
Lemma assemble_In (topProductIds : list TopProduct.t) r :
  In r (assemble db includeChunks topProductIds) ->
  exists item p,
    In item topProductIds /\ In p (products_rows db)
    /\ products.id p = TopProduct.productId item
    /\ SearchResult.productId r = TopProduct.productId item
    /\ SearchResult.similarity r = TopProduct.combinedScore item
    /\ SearchResult.name r = products.name p
    /\ SearchResult.metadata r = metadataOf p.
Proof.
  pose proof (fun id => productMap_get (map TopProduct.productId topProductIds) id)
    as Hmap. cbv zeta in Hmap.
  intros Hr. unfold assemble, filterBoolean in Hr.
  apply in_flat_map in Hr. destruct Hr as (o & Ho & Hr).
  apply in_map_iff in Ho. destruct Ho as (item & <- & Hitem).
  unfold buildResult in Hr.
  destruct (JS.get _ (TopProduct.productId item)) as [p|] eqn:E;
    [|destruct Hr].
  destruct Hr as [<-|[]]. destruct (proj1 (Hmap _) p E) as [Hp Hid].
  exists item, p. simpl. repeat split; auto.
Qed.

(** C9. The assembled list holds, in ranking order, exactly the ranked
    products whose metadata lookup resolves: an id without a row in
    [products] yields [null] and is filtered out, the others are built
    from their row and keep their score; [assemble] is a total function,
    so nothing is raised. *)
Theorem assemble_drops_unresolved (topProductIds : list TopProduct.t) :
  map SearchResult.productId (assemble db includeChunks topProductIds)
  = filter (resolves db) (map TopProduct.productId topProductIds)
  /\ (forall r, In r (assemble db includeChunks topProductIds) ->
        exists item p,
          In item topProductIds /\ In p (products_rows db)
          /\ products.id p = TopProduct.productId item
          /\ SearchResult.productId r = TopProduct.productId item
          /\ SearchResult.similarity r = TopProduct.combinedScore item
          /\ SearchResult.name r = products.name p
          /\ SearchResult.metadata r = metadataOf p)
  /\ (forall item, In item topProductIds ->
        resolves db (TopProduct.productId item) = false ->
        ~ In (TopProduct.productId item)
             (map SearchResult.productId
                  (assemble db includeChunks topProductIds))).
Proof.
  split; [apply assemble_ids|]. split; [apply assemble_In|].
  intros item Hin Hno. rewrite assemble_ids. intros H. apply filter_In in H.
  rewrite Hno in H. destruct H. discriminate.
Qed.

End AssemblerFacts.

(** ** [offset] in [vectorSearch] *)

Lemma StronglySorted_firstn_skipn (A : Type) (R : A -> A -> Prop) (l : list A) :
  StronglySorted R l ->
  forall k a b, In a (firstn k l) -> In b (skipn k l) -> R a b.
Proof.
  induction 1 as [|x l Hs IH Hall]; intros k a b Ha Hb.
  - destruct k; destruct Ha.
  - destruct k as [|k]; [destruct Ha|]. simpl in Ha, Hb.
    destruct Ha as [<-|Ha].
    + rewrite Forall_forall in Hall. apply Hall. eapply skipn_In. exact Hb.
    + apply (IH k); assumption.
Qed.

(** C10. [vectorSearch] applies [offset] in the chunk query and nowhere
    else: the rows that are aggregated are the ranking of the matched
    chunks without its [offset] most similar rows (none of the rows kept is
    above a row skipped), cut to [3 * limit]; the rest of the function
    does not read [offset].  So [offset] does not skip products of the
    result list: on [Paged.db], where offset 0 returns [P2] (0.96) and
    [P1] (0.94), offset 1 returns [P2] and [P1] with score 0.6, and
    offset 2 returns [P1] with score 0.6, while dropping the first one or
    two results of the list at offset 0 leaves [P1] (0.94) or nothing. *)
Theorem offset_applies_to_chunks :
  (forall (ext : Collaborators) (db : Database) (o : SearchOptions.t),
     let offset := orDefault (SearchOptions.offset o) 0%nat in
     let limit := orDefault (SearchOptions.limit o) 10%nat in
     let ranking :=
       chunkRanking db (generateEmbedding (SearchOptions.query o))
         (orDefault (SearchOptions.threshold o) 0.5)
         (Filter.vectorConditions
            (orDefault (SearchOptions.filters o) SearchFilters.empty)) in
     vectorSearch db o
     = resultsFrom db (withOffset None o)
                   (firstn (limit * 3) (skipn offset ranking))
     /\ (forall a b, In a (firstn offset ranking) ->
                     In b (chunkResults db o) ->
                     Pg.float8_lt (ChunkRow.similarity a)
                                  (ChunkRow.similarity b) = false))
  /\ (let run k :=
        Paged.scored
          (vectorSearch (ext := Fixture.collaborators) Paged.db
             (withOffset (Some k) (Fixture.options "q"))) in
      run 0%nat = [("P2", 0.95999999999999996); ("P1", 0.93999999999999995)]
      /\ run 1%nat = [("P2", 0.95999999999999996); ("P1", 0.59999999999999998)]
      /\ run 2%nat = [("P1", 0.59999999999999998)]
      /\ skipn 1 (run 0%nat) = [("P1", 0.93999999999999995)]
      /\ skipn 2 (run 0%nat) = []).
Proof.
  split.
  - intros ext db o. cbv zeta. split; [reflexivity|].
    intros a b Ha Hb. unfold chunkResults, chunkQuery, Pg.limit_offset in Hb.
    apply firstn_In in Hb.
    apply (StronglySorted_firstn_skipn _ _ _
             (order_by_desc_sorted _ ChunkRow.similarity _) _ a b Ha Hb).
  - vm_compute. repeat split; reflexivity.
Qed.

(** ** The lexical retriever ([keywordSearch], lines 371-461) *)

Section LexicalFacts.
Context {ext : Collaborators}.

Lemma textSimilarity_greatest query p :
  isGreatestOf
    [similarity (products.name p) query;
     similarity (coalesce (products.description p)) query;
     similarity (coalesce (products.category p)) query;
     similarity (coalesce (products.brand p)) query]
    (textSimilarity query p).
Proof.
  unfold textSimilarity.
  set (a := similarity (products.name p) query).
  set (b := similarity (coalesce (products.description p)) query).
  set (c := similarity (coalesce (products.category p)) query).
  set (d := similarity (coalesce (products.brand p)) query).
  set (g2 := Pg.greatest2 a b). set (g3 := Pg.greatest2 g2 c).
  split.
  - simpl.
    destruct (Float8Facts.greatest2_cases g3 d) as [E|E]; rewrite E; [|auto].
    destruct (Float8Facts.greatest2_cases g2 c) as [E'|E'];
      unfold g3; rewrite E'; [|auto].
    destruct (Float8Facts.greatest2_cases a b) as [E''|E''];
      unfold g2; rewrite E''; auto.
  - pose proof (Float8Facts.greatest2_ub_l g3 d) as H3.
    pose proof (Float8Facts.greatest2_ub_r g3 d) as Hd.
    pose proof (Float8Facts.greatest2_ub_l g2 c) as H2.
    pose proof (Float8Facts.greatest2_ub_r g2 c) as Hc.
    pose proof (Float8Facts.greatest2_ub_l a b) as Ha.
    pose proof (Float8Facts.greatest2_ub_r a b) as Hb.
    fold g2 in Ha, Hb. fold g3 in H2, Hc.
    pose proof (Float8Facts.lt_negtrans _ _ _ H3 H2) as H32.
    intros v [<-|[<-|[<-|[<-|[]]]]].
    + apply (Float8Facts.lt_negtrans _ _ _ H32 Ha).
    + apply (Float8Facts.lt_negtrans _ _ _ H32 Hb).
    + apply (Float8Facts.lt_negtrans _ _ _ H3 Hc).
    + exact Hd.
Qed.

End LexicalFacts.

Section LexicalRuns.
Local Existing Instance Fixture.collaborators.

(** C8. The lexical retriever returns no ranking.  On every store and
    for all options [keywordSearch] raises: its statement orders by the
    identifier [similarity], which is the name of no output column (the
    selected score, the greatest of the four field similarities, goes by
    the name [greatest]) and of no column of [products], and the store
    refuses it before it reads a row.  So it is on a store with one
    product and the query "cleaner"; there the [WHERE] clause would not
    have passed the product, none of whose fields contains the query,
    although without filters it matches the predicate. *)
Theorem keywordSearch_raises :
  (forall (ext : Collaborators) (db : Database) (o : SearchOptions.t),
      @keywordSearch ext db o = Pg.raised (Pg.undefined_column "similarity"))
  /\ keywordSearch db_soap (Fixture.options "cleaner")
     = Pg.raised (Pg.undefined_column "similarity")
  /\ ~ In "similarity" (keywordOutputs ++ products.columns)
  /\ In "greatest" keywordOutputs
  /\ (forall (ext : Collaborators) (query : string) (p : products.row),
        isGreatestOf
          [@similarity ext (products.name p) query;
           @similarity ext (coalesce (products.description p)) query;
           @similarity ext (coalesce (products.category p)) query;
           @similarity ext (coalesce (products.brand p)) query]
          (@textSimilarity ext query p))
  /\ (let product := Fixture.product "soap" None None None in
      products_rows db_soap = [product]
      /\ Filter.satisfies SearchFilters.empty product = true
      /\ keywordWhere "cleaner" [] product = false
      /\ keywordWhere "soap" [] product = true).
Proof.
  split; [intros ext db o; reflexivity|]. split; [reflexivity|].
  split; [|split; [|split]].
  - intros H. simpl in H.
    repeat (destruct H as [H|H]; [discriminate H|]). exact H.
  - simpl. tauto.
  - intros ext query p. apply textSimilarity_greatest.
  - vm_compute. repeat split; reflexivity.
Qed.

End LexicalRuns.

(** ** What the reranker guarantees *)

Section RerankGuarantees.
Import FloatFacts.
Variable lambda : JS.number.

Lemma rerankResults_split (query : string) (results : list SearchResult.t) :
  exists dropped,
    Permutation results (rerankResults query results lambda ++ dropped)
    /\ hd_error (rerankResults query results lambda) = hd_error results.
Proof.
  destruct results as [|first remaining].
  - exists []. split; [constructor|reflexivity].
  - unfold rerankResults.
    destruct (mmrLoop_moves lambda (List.length (first :: remaining))
                (List.length (first :: remaining)) [first] remaining)
      as (picked & dropped & Hres & Hperm).
    exists dropped. rewrite Hres. simpl. split; [|reflexivity].
    apply perm_skip. exact Hperm.
Qed.

(** X3. The reranker keeps the first result in front and only moves
    results: its output, together with the results it dropped, is a
    permutation of its input.  It never invents a result and never repeats
    one. *)
Theorem rerankResults_moves (query : string) (results : list SearchResult.t) :
  exists dropped,
    Permutation results (rerankResults query results lambda ++ dropped)
    /\ hd_error (rerankResults query results lambda) = hd_error results.
Proof. apply rerankResults_split. Qed.

Lemma mmrLoop_complete (results : list SearchResult.t) fuel :
  (forall reranked c,
      incl reranked results -> In c results ->
      (neg_infinity <? mmrScore lambda reranked c) = true) ->
  forall total reranked remaining,
    incl reranked results -> incl remaining results ->
    (List.length remaining <= fuel)%nat ->
    (List.length reranked + List.length remaining = total)%nat ->
    exists picked,
      mmrLoop fuel lambda total reranked remaining = reranked ++ picked
      /\ Permutation remaining picked.
Proof.
  intros Hscore.
  induction fuel as [|fuel IH]; intros total reranked remaining Hr Hm Hlen Htot.
  - destruct remaining; [|simpl in Hlen; lia].
    exists []. simpl. rewrite app_nil_r. auto.
  - simpl. destruct remaining as [|c0 rest] eqn:Erem.
    + exists []. simpl. rewrite app_nil_r. auto.
    + rewrite <- Erem in *.
      assert (Hg : ((0 <? List.length remaining)%nat
                    && (List.length reranked <? total)%nat) = true).
      { apply andb_true_iff. split; apply Nat.ltb_lt; rewrite Erem in *;
          simpl in *; lia. }
      rewrite Hg.
      destruct (selectBest_spec lambda reranked remaining)
        as [[Hnone Hno]|(i & best & Hsome & Hnth & _)].
      * assert (Hc0 : In c0 remaining) by (rewrite Erem; simpl; auto).
        specialize (Hno c0 Hc0).
        rewrite (Hscore reranked c0 Hr (Hm c0 Hc0)) in Hno. discriminate.
      * rewrite Hsome, Hnth.
        pose proof (nth_error_splice1 _ _ _ _ Hnth) as Hperm.
        pose proof (splice1_length _ _ _ _ Hnth) as Hsl.
        destruct (IH total (reranked ++ [best]) (splice1 i remaining))
          as (picked & Hres & Hp).
        -- intros x Hx. apply in_app_or in Hx. destruct Hx as [Hx|[<-|[]]].
           ++ apply Hr. exact Hx.
           ++ apply Hm. eapply nth_error_In. exact Hnth.
        -- intros x Hx. apply Hm.
           apply (Permutation_in _ (Permutation_sym Hperm)). right. exact Hx.
        -- lia.
        -- rewrite length_app. simpl. lia.
        -- exists (best :: picked). split.
           ++ rewrite Hres, <- app_assoc. reflexivity.
           ++ rewrite Hperm. apply perm_skip. exact Hp.
Qed.

(** X4. When every result keeps a score above [-Infinity] against every
    selection drawn from the input, the output of the reranker is a
    permutation of its input. *)
Theorem rerankResults_permutation (query : string)
  (results : list SearchResult.t)
  (Hscore : forall reranked c,
      incl reranked results -> In c results ->
      (neg_infinity <? mmrScore lambda reranked c) = true) :
  Permutation results (rerankResults query results lambda).
Proof.
  destruct results as [|first remaining] eqn:E; [constructor|].
  rewrite <- E in Hscore. unfold rerankResults.
  destruct (mmrLoop_complete results (List.length (first :: remaining)) Hscore
              (List.length (first :: remaining)) [first] remaining)
    as (picked & Hres & Hperm).
  - rewrite E. intros x [<-|[]]. simpl. auto.
  - rewrite E. intros x Hx. simpl. auto.
  - simpl. lia.
  - reflexivity.
  - rewrite Hres. simpl. apply perm_skip. exact Hperm.
Qed.

End RerankGuarantees.

(** The three results of [Ranked]: every score stays a number, and the
    output [A; C; B] is a permutation of the input [A; B; C]. *)
Lemma rerankResults_permutation_witness :
  Permutation [Ranked.A; Ranked.B; Ranked.C]
              (rerankResults "q" [Ranked.A; Ranked.B; Ranked.C] default_lambda).
Proof.
  apply (rerankResults_permutation default_lambda "q").
  intros reranked c Hincl Hc.
  assert (Hnan : forall s, In s reranked -> is_nan (pairSimilarity s c) = false).
  { intros s Hs. apply Hincl in Hs.
    destruct Hc as [<-|[<-|[<-|[]]]]; destruct Hs as [<-|[<-|[<-|[]]]];
      vm_compute; reflexivity. }
  destruct (MaxFacts.fold_max _ (fun s => pairSimilarity s c) reranked 0
              eq_refl Hnan) as (_ & _ & _ & Hcase).
  cbv beta zeta in Hcase. unfold mmrScore, maxSimilarityToSelected.
  destruct Hcase as [Heq|(s & Hs & Heq)]; rewrite Heq.
  - destruct Hc as [<-|[<-|[<-|[]]]]; vm_compute; reflexivity.
  - apply Hincl in Hs.
    destruct Hc as [<-|[<-|[<-|[]]]]; destruct Hs as [<-|[<-|[<-|[]]]];
      vm_compute; reflexivity.
Defined.

(** ** The vector retriever and the filters *)

Section FilterFacts.

Lemma on_list_member xs (cond : list string -> Filter.condition)
  (column : products.row -> option string) p :
  (forall l, cond l p = Filter.inArray (column p) l) ->
  forallb (fun c => c p) (Filter.on_list xs cond)
  = Filter.member xs (column p).
Proof.
  intros H. destruct xs as [[|x l]|]; simpl; try reflexivity.
  rewrite H, andb_true_r. reflexivity.
Qed.

(** The conditions of [vectorSearch] are the predicate of the
    specification. *)
Lemma satisfies_conditions (f : SearchFilters.t) (p : products.row) :
  forallb (fun c => c p) (Filter.vectorConditions f) = Filter.satisfies f p.
Proof.
  unfold Filter.vectorConditions, Filter.satisfies.
  rewrite !forallb_app.
  rewrite (on_list_member _ Filter.in_categories products.category)
    by reflexivity.
  rewrite (on_list_member _ Filter.in_brands products.brand) by reflexivity.
  rewrite (on_list_member _ Filter.in_availability
             (fun p => option_map availability_label (products.availability p)))
    by reflexivity.
  rewrite (on_list_member _ Filter.in_productTypes
             (fun p => option_map productType_label (products.productType p)))
    by reflexivity.
  rewrite !andb_assoc. repeat f_equal.
  - unfold Filter.on_shopId. destruct (SearchFilters.shopId f) as [s|];
      [|reflexivity].
    destruct (String.eqb s ""); simpl; [reflexivity|].
    unfold Filter.eq_shopId. apply andb_true_r.
  - unfold Filter.on_priceRange.
    destruct (SearchFilters.priceRange f) as [[[mn|] [mx|]]|]; simpl;
      rewrite ?andb_true_r; reflexivity.
Qed.

Lemma NoDup_map_eq (A B : Type) (f : A -> B) (l : list A) :
  NoDup (map f l) ->
  forall x y, In x l -> In y l -> f x = f y -> x = y.
Proof.
  induction l as [|a l IH]; simpl; intros Hnd x y Hx Hy Heq; [destruct Hx|].
  inversion Hnd as [|? ? Hnotin Hnd']; subst.
  destruct Hx as [<-|Hx], Hy as [<-|Hy].
  - reflexivity.
  - exfalso. apply Hnotin. rewrite Heq. apply in_map. exact Hy.
  - exfalso. apply Hnotin. rewrite <- Heq. apply in_map. exact Hx.
  - apply IH; assumption.
Qed.

End FilterFacts.

Section VectorFilter.
Context {ext : Collaborators}.
Variable db : Database.
Hypothesis primary_key : NoDup (map products.id (products_rows db)).

Lemma rerankResults_incl query results lambda :
  incl (rerankResults query results lambda) results.
Proof.
  destruct (rerankResults_split lambda query results) as (dropped & Hperm & _).
  intros r Hr. apply (Permutation_in _ (Permutation_sym Hperm)).
  apply in_or_app. left. exact Hr.
Qed.

Lemma topProducts_hit hits limit item :
  In item (topProducts (aggregate hits) limit) ->
  exists hit, In hit hits /\ ChunkRow.productId hit = TopProduct.productId item.
Proof.
  unfold topProducts. intros H. apply firstn_In, sort_In in H.
  apply in_map_iff in H. destruct H as ([id sc] & <- & He). simpl.
  assert (Hk : JS.get (aggregate hits) id <> None).
  { intros Hn. apply get_None in Hn. apply Hn.
    apply (in_map fst) in He. exact He. }
  rewrite aggregate_get in Hk.
  destruct (chunksOf id hits) as [|hit cs] eqn:E; [congruence|].
  assert (Hin : In hit (chunksOf id hits)) by (rewrite E; simpl; auto).
  apply filter_In in Hin. destruct Hin as [Hin Heq].
  apply String.eqb_eq in Heq. exists hit. auto.
Qed.

(** X1. The vector path restricts to the predicate: every result of
    [vectorSearch] is built from a product of the store that satisfies every
    present field of the filters, the list-valued ones included. *)
Theorem vectorSearch_satisfies_filters (o : SearchOptions.t) (r : SearchResult.t) :
  In r (vectorSearch db o) ->
  exists p,
    In p (products_rows db)
    /\ products.id p = SearchResult.productId r
    /\ Filter.satisfies
         (orDefault (SearchOptions.filters o) SearchFilters.empty) p = true.
Proof.
  intros Hr. unfold vectorSearch, resultsFrom in Hr.
  set (hits := chunkResults db o) in *.
  set (top := topProducts (aggregate hits) _) in *.
  assert (Hin : In r (assemble db
                        (orDefault (SearchOptions.includeChunks o) false) top)).
  { destruct top as [|t top'] eqn:Etop; [destruct Hr|]. rewrite <- Etop in *.
    destruct (orDefault (SearchOptions.rerank o) false && _);
      [apply rerankResults_incl in Hr|]; exact Hr. }
  clear Hr.
  destruct (assemble_In db _ top r Hin)
    as (item & p & Hitem & Hp & Hid & Hrid & _).
  exists p. split; [exact Hp|]. split; [congruence|].
  rewrite <- satisfies_conditions. apply forallb_forall. intros cond Hcond.
  destruct (topProducts_hit hits _ item Hitem) as (hit & Hhit & Hhid).
  unfold hits, chunkResults, chunkQuery, Pg.limit_offset in Hhit.
  apply firstn_In, skipn_In in Hhit.
  apply (Permutation_in _ (Permutation_sym (order_by_desc_perm _ _ _))) in Hhit.
  apply matchedChunks_In in Hhit.
  destruct Hhit as (c & s & _ & _ & _ & Hall & ->). simpl in Hhid.
  rewrite forallb_forall in Hall. specialize (Hall cond Hcond).
  unfold productIn in Hall. apply existsb_exists in Hall.
  destruct Hall as (p' & Hp' & Hc). apply andb_true_iff in Hc.
  destruct Hc as [Heq Hc]. apply String.eqb_eq in Heq.
  assert (p' = p).
  { apply (NoDup_map_eq _ _ products.id _ primary_key); auto. congruence. }
  subst p'. exact Hc.
Qed.

End VectorFilter.

Section VectorFilterRuns.
Local Existing Instance Fixture.collaborators.

(** With the category "soap" requested on [Runs.db_abc], the first result
    is built from a product of that category. *)
Lemma vectorSearch_satisfies_filters_witness :
  exists p,
    In p (products_rows Runs.db_abc)
    /\ products.id p
       = SearchResult.productId
           (hd Ranked.A (vectorSearch Runs.db_abc options_soap))
    /\ Filter.satisfies
         (orDefault (SearchOptions.filters options_soap) SearchFilters.empty) p
       = true.
Proof.
  apply (vectorSearch_satisfies_filters Runs.db_abc).
  - vm_compute. repeat constructor; simpl; intuition discriminate.
  - vm_compute. left. reflexivity.
Defined.

End VectorFilterRuns.

(** ** Size of the results *)

Section ResultSize.
Context {ext : Collaborators}.

Lemma filterBoolean_length (A : Type) (l : list (option A)) :
  (List.length (filterBoolean l) <= List.length l)%nat.
Proof.
  induction l as [|[a|] l IH]; simpl; lia.
Qed.

Lemma rerankResults_length query results lambda :
  (List.length (rerankResults query results lambda) <= List.length results)%nat.
Proof.
  destruct (rerankResults_split lambda query results) as (dropped & Hperm & _).
  apply Permutation_length in Hperm. rewrite length_app in Hperm. lia.
Qed.

(** X5. [vectorSearch] returns at most [limit] results (10 when [limit]
    is absent), reranked or not. *)
Theorem vectorSearch_length (db : Database) (o : SearchOptions.t) :
  (List.length (vectorSearch db o)
   <= orDefault (SearchOptions.limit o) 10)%nat.
Proof.
  unfold vectorSearch, resultsFrom.
  set (limit := orDefault (SearchOptions.limit o) 10%nat).
  set (top := topProducts _ limit).
  assert (Htop : (List.length top <= limit)%nat)
    by (unfold top, topProducts; apply firstn_le_length).
  assert (Hasm : forall ic, (List.length (assemble db ic top) <= limit)%nat).
  { intros ic. unfold assemble.
    eapply Nat.le_trans; [apply filterBoolean_length|].
    rewrite length_map. exact Htop. }
  destruct top as [|t top'] eqn:E; [simpl; lia|]. rewrite <- E in *.
  destruct (orDefault (SearchOptions.rerank o) false && _).
  - eapply Nat.le_trans; [apply rerankResults_length|apply Hasm].
  - apply Hasm.
Qed.

End ResultSize.

Section DiversityRun.

(** The diversity scenario on three results: [B] shares category, brand
    and price with [A], [C] shares nothing; after reranking [B] no longer
    follows [A], the less relevant [C] is put in between. *)
Theorem rerankResults_demotes_duplicate :
  rerankResults "q" [Ranked.A; Ranked.B; Ranked.C] default_lambda
  = [Ranked.A; Ranked.C; Ranked.B]
  /\ (mmrScore default_lambda [Ranked.A] Ranked.B
      <? mmrScore default_lambda [Ranked.A] Ranked.C) = true.
Proof. vm_compute. split; reflexivity. Qed.

End DiversityRun.

(** ** What [vectorSearch] returns *)

Section ListNoDup.
Variable A : Type.

Lemma firstn_NoDup n (l : list A) : NoDup l -> NoDup (firstn n l).
Proof.
  intros H. revert n. induction H as [|x l Hx H IH]; intros [|n]; simpl;
    try constructor.
  - intros Hin. apply Hx. apply (firstn_In _ _ _ _ Hin).
  - apply IH.
Qed.

Lemma skipn_NoDup n (l : list A) : NoDup l -> NoDup (skipn n l).
Proof.
  intros H. revert n. induction H as [|x l Hx H IH]; intros [|n]; simpl;
    try constructor; auto.
Qed.

End ListNoDup.

Section VectorResults.
Context {ext : Collaborators}.
Variable db : Database.

(** Reranked or not, the results are assembled from the ranked products. *)
Lemma resultsFrom_assembled o hits r :
  In r (resultsFrom db o hits) ->
  In r (assemble db (orDefault (SearchOptions.includeChunks o) false)
          (topProducts (aggregate hits)
                       (orDefault (SearchOptions.limit o) 10%nat))).
Proof.
  unfold resultsFrom. set (top := topProducts _ _). intros Hr.
  destruct top as [|t top'] eqn:Etop; [destruct Hr|]. rewrite <- Etop in *.
  destruct (orDefault (SearchOptions.rerank o) false && _);
    [apply rerankResults_incl in Hr|]; exact Hr.
Qed.

(** A row of the chunk query is a chunk of the store that passes the
    [WHERE] clause. *)
Lemma chunkResults_In o hit :
  In hit (chunkResults db o) ->
  exists c s,
    In c (productChunks_rows db)
    /\ chunkSimilarity (generateEmbedding (SearchOptions.query o)) c = Some s
    /\ Pg.float8_gt s (orDefault (SearchOptions.threshold o) 0.5) = true
    /\ forallb (productIn db (productChunks.productId c))
         (Filter.vectorConditions
            (orDefault (SearchOptions.filters o) SearchFilters.empty)) = true
    /\ hit = selectChunk c s.
Proof.
  unfold chunkResults, chunkQuery, Pg.limit_offset. intros Hhit.
  apply firstn_In, skipn_In in Hhit.
  apply (Permutation_in _ (Permutation_sym (order_by_desc_perm _ _ _))) in Hhit.
  apply matchedChunks_In in Hhit. exact Hhit.
Qed.

Lemma fold_addChunk_NoDup hits : forall m,
  NoDup (JS.keys m) -> NoDup (JS.keys (fold_left addChunk hits m)).
Proof.
  induction hits as [|hit hits IH]; simpl; intros m Hm; [exact Hm|].
  apply IH. unfold addChunk. apply keys_set_NoDup. exact Hm.
Qed.

Lemma aggregate_NoDup hits : NoDup (JS.keys (aggregate hits)).
Proof. apply fold_addChunk_NoDup. constructor. Qed.


(** A ranked product carries the hits of its product, in retrieval
    order. *)
Lemma topProducts_chunks hits limit item :
  In item (topProducts (aggregate hits) limit) ->
  TopProduct.chunks item
  = map toChunkResult (chunksOf (TopProduct.productId item) hits).
Proof.
  unfold topProducts. intros H. apply firstn_In, sort_In in H.
  apply in_map_iff in H. destruct H as ([id sc] & <- & He). simpl.
  apply (In_get _ _ _ _ (aggregate_NoDup hits)) in He.
  rewrite aggregate_get in He.
  destruct (chunksOf id hits) as [|hit cs]; [discriminate|].
  injection He as <-. reflexivity.
Qed.

Lemma topProducts_ids (m : JS.Map Scores.t) limit :
  map TopProduct.productId (topProducts m limit)
  = firstn limit
      (map TopProduct.productId
         (JS.sort (JS.descending TopProduct.combinedScore)
            (map (fun e => TopProduct.mk (fst e) (combinedScore (snd e))
                             (Scores.chunks (snd e))) m))).
Proof. unfold topProducts. symmetry. apply firstn_map. Qed.

Lemma topProducts_NoDup hits limit :
  NoDup (map TopProduct.productId (topProducts (aggregate hits) limit)).
Proof.
  rewrite topProducts_ids. apply firstn_NoDup.
  eapply Permutation_NoDup.
  - apply Permutation_map. apply sort_perm.
  - rewrite map_map. simpl. apply aggregate_NoDup.
Qed.

Lemma rerankResults_NoDup (A : Type) (f : SearchResult.t -> A) query results
  lambda :
  NoDup (map f results) -> NoDup (map f (rerankResults query results lambda)).
Proof.
  intros H.
  destruct (rerankResults_split lambda query results) as (dropped & Hperm & _).
  apply (Permutation_map f) in Hperm. rewrite map_app in Hperm.
  apply (Permutation_NoDup Hperm) in H.
  apply NoDup_app_remove_r in H. exact H.
Qed.

Lemma resultsFrom_NoDup o hits :
  NoDup (map SearchResult.productId (resultsFrom db o hits)).
Proof.
  unfold resultsFrom. set (top := topProducts _ _).
  assert (Hasm : forall ic,
             NoDup (map SearchResult.productId (assemble db ic top))).
  { intros ic. rewrite assemble_ids. apply NoDup_filter.
    apply topProducts_NoDup. }
  destruct top as [|t top'] eqn:E; [constructor|]. rewrite <- E in *.
  destruct (orDefault (SearchOptions.rerank o) false && _);
    [apply rerankResults_NoDup|]; apply Hasm.
Qed.

(** X6. [vectorSearch] returns no product twice: the ids of its results
    are pairwise different, on every store and for all options, reranked
    or not. *)
Theorem search_ids_unique (o : SearchOptions.t) :
  NoDup (map SearchResult.productId (vectorSearch db o)).
Proof. apply resultsFrom_NoDup. Qed.

(** Every result is backed by a chunk that passed the [WHERE] clause. *)
Lemma vectorSearch_hit o r :
  In r (vectorSearch db o) ->
  exists c s,
    In c (productChunks_rows db)
    /\ productChunks.productId c = SearchResult.productId r
    /\ chunkSimilarity (generateEmbedding (SearchOptions.query o)) c = Some s
    /\ Pg.float8_gt s (orDefault (SearchOptions.threshold o) 0.5) = true
    /\ forallb (productIn db (productChunks.productId c))
         (Filter.vectorConditions
            (orDefault (SearchOptions.filters o) SearchFilters.empty)) = true.
Proof.
  intros Hr. apply resultsFrom_assembled in Hr.
  destruct (assemble_In db _ _ r Hr) as (item & p & Hitem & _ & _ & Hrid & _).
  destruct (topProducts_hit _ _ item Hitem) as (hit & Hhit & Hhid).
  apply chunkResults_In in Hhit.
  destruct Hhit as (c & s & Hc & Hs & Hgt & Hall & ->). simpl in Hhid.
  exists c, s. repeat split; try assumption. congruence.
Qed.

(** X7. The threshold is sound: every product that [vectorSearch] returns
    has a chunk in the store that carries an embedding whose similarity to
    the query is above the threshold (0.5 when absent) in the order of the
    store, strictly above it when it is a number; a product whose chunks
    have no embedding is not returned. *)
Theorem vectorSearch_above_threshold (o : SearchOptions.t)
  (r : SearchResult.t) :
  In r (vectorSearch db o) ->
  exists c e,
    let s := 1 - cosine_distance e (generateEmbedding (SearchOptions.query o)) in
    let threshold := orDefault (SearchOptions.threshold o) 0.5 in
    In c (productChunks_rows db)
    /\ productChunks.productId c = SearchResult.productId r
    /\ productChunks.embedding c = Some e
    /\ Pg.float8_gt s threshold = true
    /\ (is_nan s = false -> (threshold <? s) = true).
Proof.
  intros Hr. destruct (vectorSearch_hit o r Hr)
    as (c & s & Hc & Hid & Hs & Hgt & _).
  unfold chunkSimilarity in Hs.
  destruct (productChunks.embedding c) as [e|] eqn:E; [|discriminate].
  simpl in Hs. injection Hs as <-. exists c, e. cbv zeta.
  repeat split; try assumption.
  intros Hnan. unfold Pg.float8_gt, Pg.float8_lt in Hgt. rewrite Hnan in Hgt.
  destruct (is_nan (orDefault (SearchOptions.threshold o) 0.5));
    [discriminate|exact Hgt].
Qed.

End VectorResults.

Section VectorChunks.
Context {ext : Collaborators}.
Variable db : Database.

(** An assembled result has the chunks of its ranked product: the three
    best when [includeChunks] is set, none otherwise. *)
Lemma assemble_chunks includeChunks (topProductIds : list TopProduct.t) r :
  In r (assemble db includeChunks topProductIds) ->
  exists item,
    In item topProductIds
    /\ SearchResult.productId r = TopProduct.productId item
    /\ SearchResult.chunks r
       = if includeChunks then Some (topChunks (TopProduct.chunks item))
         else None.
Proof.
  pose proof (fun id => productMap_get db (map TopProduct.productId topProductIds) id)
    as Hmap. cbv zeta in Hmap.
  intros Hr. unfold assemble, filterBoolean in Hr.
  apply in_flat_map in Hr. destruct Hr as (o & Ho & Hr).
  apply in_map_iff in Ho. destruct Ho as (item & <- & Hitem).
  unfold buildResult in Hr.
  destruct (JS.get _ (TopProduct.productId item)) as [p|] eqn:E;
    [|destruct Hr].
  destruct Hr as [<-|[]]. destruct (proj1 (Hmap _) p E) as [Hp Hid].
  exists item. simpl. repeat split; auto.
Qed.

Lemma topChunks_spec chunks :
  (List.length (topChunks chunks) <= 3)%nat
  /\ descendingBy ChunkResult.similarity (topChunks chunks)
  /\ incl (topChunks chunks) chunks.
Proof.
  unfold topChunks. split; [apply firstn_le_length|]. split.
  - apply Sorted_firstn. apply sort_descending_sorted.
  - intros c Hc. apply firstn_In, sort_In in Hc. exact Hc.
Qed.

(** X8. The chunks of a result.  Without [includeChunks] a result of
    [vectorSearch] carries no chunks.  With it, it carries at most three,
    in descending order of similarity, and each of them is a chunk of the
    store that belongs to the result's product, with its id, type and
    content, whose similarity to the query is above the threshold. *)
Theorem vectorSearch_chunks (o : SearchOptions.t) (r : SearchResult.t) :
  In r (vectorSearch db o) ->
  match SearchResult.chunks r with
  | None => orDefault (SearchOptions.includeChunks o) false = false
  | Some chunks =>
      orDefault (SearchOptions.includeChunks o) false = true
      /\ (List.length chunks <= 3)%nat
      /\ descendingBy ChunkResult.similarity chunks
      /\ forall chunk, In chunk chunks ->
           exists c,
             In c (productChunks_rows db)
             /\ productChunks.productId c = SearchResult.productId r
             /\ ChunkResult.chunkId chunk = productChunks.id c
             /\ ChunkResult.chunkType chunk = productChunks.chunkType c
             /\ ChunkResult.content chunk = productChunks.chunkContent c
             /\ chunkSimilarity (generateEmbedding (SearchOptions.query o)) c
                = Some (ChunkResult.similarity chunk)
             /\ Pg.float8_gt (ChunkResult.similarity chunk)
                  (orDefault (SearchOptions.threshold o) 0.5) = true
  end.
Proof.
  intros Hr. apply resultsFrom_assembled in Hr.
  destruct (assemble_chunks _ _ r Hr) as (item & Hitem & Hid & Hchunks).
  rewrite Hchunks.
  destruct (orDefault (SearchOptions.includeChunks o) false); [|reflexivity].
  destruct (topChunks_spec (TopProduct.chunks item)) as (Hlen & Hsorted & Hincl).
  split; [reflexivity|]. split; [exact Hlen|]. split; [exact Hsorted|].
  intros chunk Hchunk. apply Hincl in Hchunk.
  rewrite (topProducts_chunks _ _ item Hitem) in Hchunk.
  apply in_map_iff in Hchunk. destruct Hchunk as (hit & <- & Hhit).
  apply filter_In in Hhit. destruct Hhit as [Hhit Heq].
  apply String.eqb_eq in Heq.
  apply chunkResults_In in Hhit.
  destruct Hhit as (c & s & Hc & Hs & Hgt & _ & ->). simpl in *.
  exists c. repeat split; try assumption. congruence.
Qed.





End VectorChunks.

Section VectorChunksRuns.
Local Existing Instance Fixture.collaborators.


End VectorChunksRuns.

(** ** What the fusion of [hybridSearch] returns *)

Section FusionRecords.
Variables vectorWeight keywordWeight : JS.number.

(** [resultMap] after the vector results: the entry of the vector side. *)
Lemma fold_addV_record V : forall st id,
  NoDup (map SearchResult.productId V) ->
  JS.get (snd (fold_left (addVectorResult vectorWeight) V st)) id
  = match lookup id V with
    | Some rv => Some rv
    | None => JS.get (snd st) id
    end.
Proof.
  induction V as [|r V IH]; simpl; intros st id Hnd; [reflexivity|].
  inversion Hnd as [|? ? Hnotin Hnd']; subst.
  rewrite IH by exact Hnd'. unfold lookup at 2. simpl.
  destruct (String.eqb (SearchResult.productId r) id) eqn:E.
  - apply String.eqb_eq in E. subst id.
    rewrite lookup_None by exact Hnotin. simpl. apply get_set_same.
  - apply String.eqb_neq in E. fold (lookup id V).
    destruct (lookup id V); [reflexivity|]. simpl.
    apply get_set_other. exact E.
Qed.

(** [resultMap] after the lexical results: an entry that is there stays;
    a product without one gets its first lexical result. *)
Lemma fold_addK_record K : forall st id,
  JS.get (snd (fold_left (addKeywordResult keywordWeight) K st)) id
  = match JS.get (snd st) id with
    | Some r => Some r
    | None => lookup id K
    end.
Proof.
  induction K as [|r K IH]; simpl; intros st id.
  - destruct (JS.get (snd st) id); reflexivity.
  - rewrite IH. unfold lookup. simpl. unfold JS.has.
    destruct (String.eqb (SearchResult.productId r) id) eqn:E.
    + apply String.eqb_eq in E. subst id.
      destruct (JS.get (snd st) (SearchResult.productId r)) eqn:G.
      * rewrite G. reflexivity.
      * rewrite get_set_same. reflexivity.
    + apply String.eqb_neq in E.
      destruct (JS.get (snd st) (SearchResult.productId r)) eqn:G;
        [reflexivity|].
      rewrite get_set_other by exact E. reflexivity.
Qed.

Lemma fuse_record V K id :
  NoDup (map SearchResult.productId V) ->
  JS.get (snd (fuse vectorWeight keywordWeight V K)) id
  = match lookup id V with
    | Some rv => Some rv
    | None => lookup id K
    end.
Proof.
  intros HV. unfold fuse. rewrite fold_addK_record, fold_addV_record by exact HV.
  simpl. destruct (lookup id V); reflexivity.
Qed.

(** A fused result is an entry of [resultMap] with its fused score. *)
Lemma sortedResults_In st limit r :
  aligned st ->
  In r (sortedResults st limit) ->
  exists r0,
    JS.get (snd st) (SearchResult.productId r) = Some r0
    /\ r = SearchResult.with_similarity r0 (SearchResult.similarity r).
Proof.
  intros [_ Hid] Hr. unfold sortedResults, filterBoolean in Hr.
  apply in_flat_map in Hr. destruct Hr as (x & Hx & Hr).
  apply in_map_iff in Hx. destruct Hx as ([id s] & <- & _). simpl in Hr.
  destruct (JS.get (snd st) id) as [r0|] eqn:E; [|destruct Hr].
  simpl in Hr. destruct Hr as [<-|[]]. simpl.
  rewrite (Hid _ _ E). exists r0. split; [exact E|reflexivity].
Qed.

End FusionRecords.

Section FusionResults.
Variables vectorWeight keywordWeight : JS.number.

(** X10. The record of a fused result (lines 334-361).  For two result
    lists of which the vector side lists no product twice, [resultMap]
    holds for every product of either list the vector result, if there is
    one, and else the first lexical result.  When moreover no fused score
    is NaN, every result of the fusion is that record with the fused
    score of its product in place of its similarity: a vector result
    keeps its chunks, and a lexical result is only used for a product
    that the vector side does not list.  There are as many results as
    entries of [resultMap], up to [limit || 10]. *)
Theorem fusion_record (limit : option nat) (V K : list SearchResult.t)
  (HV : NoDup (map SearchResult.productId V)) :
  let st := fuse vectorWeight keywordWeight V K in
  (forall id,
      JS.get (snd st) id
      = match lookup id V with
        | Some rv => Some rv
        | None => lookup id K
        end)
  /\ ((forall id s, JS.get (fst st) id = Some s -> is_nan s = false) ->
      forall r, In r (combine vectorWeight keywordWeight limit V K) ->
        exists r0,
          r = SearchResult.with_similarity r0 (SearchResult.similarity r)
          /\ JS.get (fst st) (SearchResult.productId r)
             = Some (SearchResult.similarity r)
          /\ match lookup (SearchResult.productId r) V with
             | Some rv => r0 = rv
             | None => lookup (SearchResult.productId r) K = Some r0
             end)
  /\ List.length (combine vectorWeight keywordWeight limit V K)
     = Nat.min (match limit with Some (S n) => S n | _ => 10%nat end)
               (List.length (snd st)).
Proof.
  cbv zeta. split; [intros id; apply fuse_record; exact HV|].
  split;
    [|rewrite combine_length;
      pose proof (proj1 (fuse_aligned vectorWeight keywordWeight V K)) as Hk;
      unfold JS.keys in Hk; apply (f_equal (@List.length string)) in Hk;
      rewrite !length_map in Hk; rewrite Hk; reflexivity].
  intros _ r Hr. unfold combine in Hr.
  pose proof (fuse_aligned vectorWeight keywordWeight V K) as Hal.
  assert (Hscore : In (SearchResult.productId r, SearchResult.similarity r)
                      (fst (fuse vectorWeight keywordWeight V K))).
  { apply (in_map (fun r => (SearchResult.productId r,
                             SearchResult.similarity r))) in Hr.
    rewrite (sortedResults_map _ limit Hal) in Hr.
    apply firstn_In, sort_In in Hr. exact Hr. }
  apply (In_get _ _ _ _ (fuse_NoDup vectorWeight keywordWeight V K)) in Hscore.
  apply sortedResults_In in Hr; [|exact Hal].
  destruct Hr as (r0 & Hget & Heq).
  rewrite fuse_record in Hget by exact HV.
  exists r0. split; [exact Heq|]. split; [exact Hscore|].
  destruct (lookup (SearchResult.productId r) V) as [rv|].
  - congruence.
  - exact Hget.
Qed.

End FusionResults.

(** On the example of the specification [resultMap] holds the vector
    result of the product. *)
Lemma fusion_record_witness :
  JS.get (snd (fuse 0.7 0.3 fusion_vector fusion_lexical)) "P"
  = lookup "P" fusion_vector.
Proof.
  apply (fusion_record 0.7 0.3 None fusion_vector fusion_lexical).
  repeat constructor. simpl. tauto.
Defined.

(** ** The search endpoints *)

Section Endpoints.
Context {ext : Collaborators}.
Variable db : Database.

Lemma resultsFrom_length o hits :
  (List.length (resultsFrom db o hits)
   <= orDefault (SearchOptions.limit o) 10)%nat.
Proof.
  unfold resultsFrom.
  set (limit := orDefault (SearchOptions.limit o) 10%nat).
  set (top := topProducts _ limit).
  assert (Htop : (List.length top <= limit)%nat)
    by (unfold top, topProducts; apply firstn_le_length).
  assert (Hasm : forall ic, (List.length (assemble db ic top) <= limit)%nat).
  { intros ic. unfold assemble.
    eapply Nat.le_trans; [apply filterBoolean_length|].
    rewrite length_map. exact Htop. }
  destruct top as [|t top'] eqn:E; [simpl; lia|]. rewrite <- E in *.
  destruct (orDefault (SearchOptions.rerank o) false && _).
  - eapply Nat.le_trans; [apply rerankResults_length|apply Hasm].
  - apply Hasm.
Qed.

(** X12. The search of the RAG server.  [performSearch] answers a
    request of type ['vector'] with the results of [vectorSearch], at
    most [limit] of them for every limit, [0] included.  A request of
    type ['hybrid'] or ['keyword'] gets no results: both are handed to
    [hybridSearch], and the error it raises is passed on.  [POST /search]
    refuses a body without a query or with the empty query before
    anything is searched; when it has results to answer with, the body
    asked for the type ['vector'] (the default is ['hybrid']) and there
    are at most [limit] of them, 10 when the limit is absent. *)
Theorem performSearch_length :
  (forall params : McpServer.Params,
      McpServer.searchType params = McpServer.vector ->
      McpServer.performSearch db params
      = Pg.returned (vectorSearch db (McpServer.searchOptions params))
      /\ (List.length (vectorSearch db (McpServer.searchOptions params))
          <= McpServer.limit params)%nat)
  /\ (forall params : McpServer.Params,
        McpServer.searchType params <> McpServer.vector ->
        McpServer.performSearch db params
        = Pg.raised (Pg.undefined_column "similarity"))
  /\ (forall (b : McpServer.Body) results,
        McpServer.searchResults db b = Some (Pg.returned results) ->
        (List.length results <= orDefault (McpServer.body_limit b) 10)%nat
        /\ McpServer.body_searchType b = Some McpServer.vector
        /\ exists q, McpServer.body_query b = Some q /\ q <> "")
  /\ (forall b : McpServer.Body,
        McpServer.body_query b = None \/ McpServer.body_query b = Some "" ->
        McpServer.searchResults db b = None).
Proof.
  assert (Hvec : forall params : McpServer.Params,
             (List.length (vectorSearch db (McpServer.searchOptions params))
              <= McpServer.limit params)%nat).
  { intros params. apply (resultsFrom_length (McpServer.searchOptions params)). }
  split; [|split; [|split]].
  - intros params Hty. unfold McpServer.performSearch. rewrite Hty.
    split; [reflexivity|apply Hvec].
  - intros params Hty. unfold McpServer.performSearch.
    destruct (McpServer.searchType params); [contradiction| |]; reflexivity.
  - intros b results H. unfold McpServer.searchResults, McpServer.parse in H.
    destruct (McpServer.body_query b) as [q|]; [|discriminate].
    destruct q as [|c q]; [discriminate|]. simpl in H.
    unfold McpServer.performSearch in H. simpl in H.
    destruct (McpServer.body_searchType b) as [[| |]|]; simpl in H;
      try discriminate.
    injection H as <-. split; [|split].
    + apply (Hvec (McpServer.mk _ _ _ _ _ _ _)).
    + reflexivity.
    + exists (String c q). split; [reflexivity|discriminate].
  - intros b [H|H]; unfold McpServer.searchResults, McpServer.parse;
      rewrite H; reflexivity.
Qed.


End Endpoints.

(** ** The chunker *)

Lemma string_append_assoc (a b c : string) :
  ((a ++ b) ++ c = a ++ (b ++ c))%string.
Proof. induction a as [|x a IH]; simpl; [|rewrite IH]; reflexivity. Qed.

Lemma string_length_append (a b : string) :
  String.length (a ++ b) = (String.length a + String.length b)%nat.
Proof. induction a as [|x a IH]; simpl; [|rewrite IH]; reflexivity. Qed.

Section StringFacts.
Variable sep : ascii.

Local Abbreviation split := (JSString.split sep).
Local Abbreviation join := (JSString.join sep).

Lemma split_nonempty s : split s <> [].
Proof.
  destruct s as [|c s]; simpl; [discriminate|].
  destruct (Ascii.eqb c sep); [discriminate|].
  destruct (split s); discriminate.
Qed.

Lemma join_cons x y l :
  join (x :: y :: l) = (x ++ String sep (join (y :: l)))%string.
Proof. reflexivity. Qed.

(** Joining the pieces of a string gives the string back. *)
Lemma join_split s : join (split s) = s.
Proof.
  induction s as [|c s IH]; [reflexivity|]. simpl.
  pose proof (split_nonempty s) as Hne.
  destruct (split s) as [|piece pieces]; [contradiction|].
  destruct (Ascii.eqb c sep) eqn:E.
  - apply Ascii.eqb_eq in E. subst c. rewrite join_cons, IH. reflexivity.
  - destruct pieces as [|q pieces].
    + unfold JSString.join in *. simpl in *. rewrite IH. reflexivity.
    + rewrite join_cons. rewrite join_cons in IH. simpl. rewrite IH.
      reflexivity.
Qed.

Lemma split_pieces s piece :
  In piece (split s) -> JSString.contains sep piece = false.
Proof.
  revert piece. induction s as [|c s IH]; simpl; intros piece H.
  - destruct H as [<-|[]]. reflexivity.
  - pose proof (split_nonempty s) as Hne.
    destruct (Ascii.eqb c sep) eqn:E.
    + destruct H as [<-|H]; [reflexivity|apply IH; exact H].
    + destruct (split s) as [|p ps]; [contradiction|].
      destruct H as [<-|H].
      * simpl. rewrite E. apply IH. left. reflexivity.
      * apply IH. right. exact H.
Qed.

Lemma split_whole x : JSString.contains sep x = false -> split x = [x].
Proof.
  induction x as [|c x IH]; simpl; intros H; [reflexivity|].
  apply orb_false_iff in H. destruct H as [E H]. rewrite E, IH by exact H.
  reflexivity.
Qed.

Lemma split_append x rest :
  JSString.contains sep x = false ->
  split (x ++ String sep rest) = x :: split rest.
Proof.
  induction x as [|c x IH]; simpl; intros H.
  - rewrite Ascii.eqb_refl. reflexivity.
  - apply orb_false_iff in H. destruct H as [E H]. rewrite E, IH by exact H.
    reflexivity.
Qed.

(** Splitting the join of pieces that do not contain the separator gives
    the pieces back. *)
Lemma split_join pieces :
  pieces <> [] ->
  (forall piece, In piece pieces -> JSString.contains sep piece = false) ->
  split (join pieces) = pieces.
Proof.
  induction pieces as [|x pieces IH]; intros Hne H; [contradiction|].
  destruct pieces as [|y pieces].
  - unfold JSString.join. simpl. apply split_whole. apply H. left. reflexivity.
  - rewrite join_cons, split_append by (apply H; left; reflexivity).
    rewrite IH; [reflexivity|discriminate|].
    intros piece Hin. apply H. right. exact Hin.
Qed.

Lemma join_app l1 l2 :
  l1 <> [] -> l2 <> [] ->
  join (l1 ++ l2) = (join l1 ++ String sep (join l2))%string.
Proof.
  induction l1 as [|x l1 IH]; intros H1 H2; [contradiction|].
  destruct l1 as [|y l1].
  - destruct l2 as [|z l2]; [contradiction|]. reflexivity.
  - change ((x :: y :: l1) ++ l2) with (x :: y :: (l1 ++ l2)).
    rewrite !join_cons.
    change (y :: l1 ++ l2) with ((y :: l1) ++ l2).
    rewrite IH by (discriminate || exact H2).
    rewrite string_append_assoc. reflexivity.
Qed.

(** Joining the joined groups is joining their lines. *)
Lemma join_groups groups :
  Forall (fun group : list string => group <> []) groups ->
  join (map join groups) = join (List.concat groups).
Proof.
  induction 1 as [|g groups Hg Hgs IH]; [reflexivity|].
  destruct groups as [|g' groups].
  - simpl. rewrite app_nil_r. reflexivity.
  - change (map join (g :: g' :: groups))
      with (join g :: join g' :: map join groups).
    rewrite join_cons.
    change (join g' :: map join groups) with (map join (g' :: groups)).
    rewrite IH. change (List.concat (g :: g' :: groups))
      with (g ++ List.concat (g' :: groups)).
    rewrite join_app; [reflexivity|exact Hg|].
    inversion Hgs as [|? ? Hg' _]; subst. simpl.
    destruct g'; [contradiction|discriminate].
Qed.

Lemma length_join pieces :
  pieces <> [] ->
  (String.length (join pieces) + 1
   = fold_right (fun piece n => String.length piece + n) 0 pieces
     + List.length pieces)%nat.
Proof.
  induction pieces as [|x pieces IH]; intros Hne; [contradiction|].
  destruct pieces as [|y pieces].
  - unfold JSString.join. simpl. lia.
  - rewrite join_cons, string_length_append.
    change (String.length (String sep (join (y :: pieces))))
      with (S (String.length (join (y :: pieces)))).
    specialize (IH ltac:(discriminate)). simpl in *. lia.
Qed.

End StringFacts.

Section ArrayFacts.
Variables A B : Type.

Lemma mapIndex_app (f : A -> nat -> B) l1 : forall i l2,
  JSArray.mapIndex f i (l1 ++ l2)
  = JSArray.mapIndex f i l1 ++ JSArray.mapIndex f (i + List.length l1) l2.
Proof.
  induction l1 as [|x l1 IH]; simpl; intros i l2.
  - rewrite Nat.add_0_r. reflexivity.
  - rewrite IH, Nat.add_succ_r. reflexivity.
Qed.

Lemma mapIndex_length (f : A -> nat -> B) l : forall i,
  List.length (JSArray.mapIndex f i l) = List.length l.
Proof. induction l; simpl; intros; [|rewrite IHl]; reflexivity. Qed.

Lemma mapIndex_ext (f g : A -> nat -> B) l : forall i,
  (forall x j, (i <= j < i + List.length l)%nat -> f x j = g x j) ->
  JSArray.mapIndex f i l = JSArray.mapIndex g i l.
Proof.
  induction l as [|x l IH]; simpl; intros i H; [reflexivity|].
  rewrite (H x i) by lia. f_equal. apply IH. intros y j Hj. apply H. lia.
Qed.

Lemma nth_error_mapIndex (f : A -> nat -> B) l : forall i j,
  nth_error (JSArray.mapIndex f i l) j
  = option_map (fun x => f x (i + j)%nat) (nth_error l j).
Proof.
  induction l as [|x l IH]; intros i [|j]; simpl; try reflexivity.
  - rewrite Nat.add_0_r. reflexivity.
  - rewrite IH, Nat.add_succ_r. reflexivity.
Qed.

Lemma map_mapIndex (C : Type) (h : B -> C) (k : A -> C)
  (f : A -> nat -> B) l : forall i,
  (forall x j, h (f x j) = k x) ->
  map h (JSArray.mapIndex f i l) = map k l.
Proof.
  induction l as [|x l IH]; simpl; intros i H; [reflexivity|].
  rewrite H, IH by exact H. reflexivity.
Qed.

End ArrayFacts.

Section ChunkerFacts.

Local Abbreviation nl := JSString.newline.

Lemma estimateTokens_bounds text :
  (Z.of_nat (String.length text) <= 4 * Chunker.estimateTokens text
   <= Z.of_nat (String.length text) + 3)%Z.
Proof.
  unfold Chunker.estimateTokens.
  pose proof (Z.div_mod (Z.of_nat (String.length text) + 3) 4 ltac:(lia)).
  pose proof (Z.mod_pos_bound (Z.of_nat (String.length text) + 3) 4 ltac:(lia)).
  lia.
Qed.

Lemma sumTokens_app l1 l2 :
  Chunker.sumTokens (l1 ++ l2)
  = (Chunker.sumTokens l1 + Chunker.sumTokens l2)%Z.
Proof.
  unfold Chunker.sumTokens.
  induction l1 as [|x l1 IH]; cbn [fold_right app]; [reflexivity|].
  rewrite IH. lia.
Qed.

Lemma sumTokens_lengths lines :
  (Z.of_nat (fold_right (fun line n => String.length line + n)%nat 0%nat lines)
   <= 4 * Chunker.sumTokens lines)%Z.
Proof.
  unfold Chunker.sumTokens.
  induction lines as [|x lines IH]; cbn [fold_right]; [lia|].
  pose proof (estimateTokens_bounds x). lia.
Qed.

(** The estimate of joined lines: each line break costs a quarter of a
    token at most. *)
Lemma estimateTokens_join lines :
  lines <> [] ->
  (4 * Chunker.estimateTokens (JSString.join nl lines)
   <= 4 * Chunker.sumTokens lines + Z.of_nat (List.length lines) + 2)%Z.
Proof.
  intros Hne. pose proof (length_join nl lines Hne) as Hlen.
  pose proof (sumTokens_lengths lines) as Hsum.
  pose proof (estimateTokens_bounds (JSString.join nl lines)) as Hest.
  lia.
Qed.

Variable chunk : Chunker.ProductChunk.
Variable maxTokens : Z.

(** One iteration of the loop keeps the state. *)
Lemma addLine_splitting groups seen st line :
  splitting chunk maxTokens groups seen st ->
  exists groups',
    splitting chunk maxTokens groups' (seen ++ [line])
              (Chunker.addLine chunk maxTokens st line).
Proof.
  intros (Hchunks & Hne & Hfit & Hseen & Htok & Hcur & Hnonempty).
  unfold Chunker.addLine.
  destruct ((maxTokens <? Chunker.currentTokens st
                          + Chunker.estimateTokens line)%Z
            && (0 <? List.length (Chunker.currentContent st))%nat) eqn:E.
  - apply andb_true_iff in E. destruct E as [_ Elen].
    apply Nat.ltb_lt in Elen.
    assert (Hc : Chunker.currentContent st <> [])
      by (destruct (Chunker.currentContent st); [simpl in Elen; lia|discriminate]).
    exists (groups ++ [Chunker.currentContent st]).
    unfold splitting. simpl. repeat split.
    + rewrite mapIndex_app, <- Hchunks. simpl. f_equal.
      unfold Chunker.innerPart, partOf, Chunker.partNumber.
      rewrite Hchunks, mapIndex_length. simpl.
      replace (List.length groups + 1 =? 0)%nat with false
        by (symmetry; apply Nat.eqb_neq; lia).
      reflexivity.
    + apply Forall_app. split; [exact Hne|]. constructor; [exact Hc|constructor].
    + apply Forall_app. split; [exact Hfit|]. constructor; [|constructor].
      destruct Hcur as [Hcur|Hcur]; [left|right; exact Hcur].
      destruct (Chunker.currentContent st) as [|x [|y l]]; simpl in *;
        try reflexivity; try contradiction; lia.
    + rewrite concat_app. simpl. rewrite app_nil_r, Hseen. reflexivity.
    + unfold Chunker.sumTokens. simpl. lia.
    + left. apply Nat.le_refl.
    + discriminate.
  - exists groups. unfold splitting. simpl. repeat split;
      try assumption.
    + rewrite app_assoc, Hseen. reflexivity.
    + rewrite sumTokens_app, Htok. unfold Chunker.sumTokens at 3. simpl. lia.
    + apply andb_false_iff in E. destruct E as [E|E].
      * right. apply Z.ltb_ge in E. rewrite sumTokens_app, <- Htok.
        unfold Chunker.sumTokens at 1. simpl. lia.
      * left. apply Nat.ltb_ge in E.
        destruct (Chunker.currentContent st); simpl in *; lia.
    + intros _ H. destruct (Chunker.currentContent st); discriminate.
Qed.

Lemma fold_addLine_splitting lines : forall groups seen st,
  splitting chunk maxTokens groups seen st ->
  exists groups',
    splitting chunk maxTokens groups' (seen ++ lines)
              (fold_left (Chunker.addLine chunk maxTokens) lines st).
Proof.
  induction lines as [|line lines IH]; simpl; intros groups seen st H.
  - exists groups. rewrite app_nil_r. exact H.
  - destruct (addLine_splitting groups seen st line H) as (groups' & H').
    destruct (IH _ _ _ H') as (groups'' & H'').
    exists groups''. rewrite <- app_assoc in H''. exact H''.
Qed.

(** The parts of a chunk that is split: groups of consecutive lines of
    its content, none of them empty, each of which fits. *)
Lemma splitLargeChunk_groups :
  (Chunker.estimateTokens (Chunker.chunkContent chunk) <=? maxTokens)%Z = false ->
  exists groups,
    Chunker.splitLargeChunk chunk (Some maxTokens)
    = JSArray.mapIndex (partOf chunk (List.length groups)) 0 groups
    /\ groups <> []
    /\ Forall (fun group => group <> []) groups
    /\ Forall (fits maxTokens) groups
    /\ List.concat groups = Chunker.linesOf (Chunker.chunkContent chunk).
Proof.
  intros Hbig. unfold Chunker.splitLargeChunk. simpl. rewrite Hbig.
  set (lines := JSString.split nl (Chunker.chunkContent chunk)).
  destruct (fold_addLine_splitting lines [] [] (Chunker.mkSplit [] [] 0))
    as (groups & Hchunks & Hne & Hfit & Hseen & Htok & Hcur & Hnonempty).
  { unfold splitting. simpl. split; [reflexivity|]. split; [constructor|].
    split; [constructor|]. split; [reflexivity|]. split; [reflexivity|].
    split; [left; lia|]. intros H. contradiction. }
  simpl in Hseen, Hnonempty.
  set (st := fold_left _ lines _) in *.
  specialize (Hnonempty (split_nonempty nl _)).
  destruct (Chunker.currentContent st) as [|x cur] eqn:Ecur; [contradiction|].
  simpl. exists (groups ++ [x :: cur]). repeat split.
  - rewrite mapIndex_app, length_app. simpl. f_equal.
    + rewrite Hchunks. apply mapIndex_ext. intros g j Hj. unfold partOf.
      replace (j + 1 =? 0)%nat with false
        by (symmetry; apply Nat.eqb_neq; lia).
      replace (j + 1 =? List.length groups + 1)%nat with false
        by (symmetry; apply Nat.eqb_neq; lia).
      reflexivity.
    + unfold Chunker.lastPart, partOf, Chunker.partNumber.
      rewrite Hchunks, mapIndex_length, Nat.eqb_refl. reflexivity.
  - destruct groups; discriminate.
  - apply Forall_app. split; [exact Hne|]. constructor; [discriminate|constructor].
  - apply Forall_app. split; [exact Hfit|]. constructor; [|constructor].
    destruct Hcur as [Hcur|Hcur]; [left|right; exact Hcur].
    destruct cur; simpl in *; [reflexivity|lia].
  - rewrite concat_app. simpl. rewrite app_nil_r. exact Hseen.
Qed.

End ChunkerFacts.

Section ChunkerGuarantees.

Local Abbreviation nl := JSString.newline.

(** X15. Splitting loses no text.  For every chunk and limit,
    [splitLargeChunk] returns at least one part, every part has the type
    of the chunk, and the contents of the parts joined by line breaks are
    the content of the chunk. *)
Theorem splitLargeChunk_join (chunk : Chunker.ProductChunk)
  (maxTokens : option Z) :
  let parts := Chunker.splitLargeChunk chunk maxTokens in
  JSString.join nl (map Chunker.chunkContent parts) = Chunker.chunkContent chunk
  /\ parts <> []
  /\ Forall (fun part => Chunker.chunkType part = Chunker.chunkType chunk) parts.
Proof.
  cbv zeta.
  destruct (Chunker.estimateTokens (Chunker.chunkContent chunk)
            <=? orDefault maxTokens 1500)%Z eqn:E.
  - unfold Chunker.splitLargeChunk. rewrite E.
    repeat split; [discriminate|repeat constructor].
  - destruct (splitLargeChunk_groups chunk _ E)
      as (groups & Heq & Hne & Hnonempty & _ & Hlines).
    assert (Hm : Chunker.splitLargeChunk chunk maxTokens
                 = Chunker.splitLargeChunk chunk (Some (orDefault maxTokens 1500%Z)))
      by reflexivity.
    rewrite Hm, Heq. repeat split.
    + rewrite (map_mapIndex _ _ _ Chunker.chunkContent (JSString.join nl))
        by reflexivity.
      rewrite join_groups by exact Hnonempty. rewrite Hlines.
      apply join_split.
    + destruct groups; [contradiction|discriminate].
    + apply Forall_forall. intros part Hin.
      apply In_nth_error in Hin. destruct Hin as (i & Hi).
      rewrite nth_error_mapIndex in Hi.
      destruct (nth_error groups i); [|discriminate].
      injection Hi as <-. reflexivity.
Qed.

(** X16. The numbering of the parts.  A chunk within the limit is
    returned as it is.  Otherwise the [i]-th part (from 0) has
    [partNumber = i + 1] in its metadata, only the last part has
    [totalParts], the number of parts, and every other key of the
    metadata is that of the chunk. *)
Theorem splitLargeChunk_numbering (chunk : Chunker.ProductChunk)
  (maxTokens : option Z) :
  let parts := Chunker.splitLargeChunk chunk maxTokens in
  let n := List.length parts in
  if (Chunker.estimateTokens (Chunker.chunkContent chunk)
      <=? orDefault maxTokens 1500)%Z
  then parts = [chunk]
  else
    forall i part, nth_error parts i = Some part ->
      JS.get (Chunker.metadata part) "partNumber"
      = Some (Any.number (JS.of_nat (i + 1)))
      /\ JS.get (Chunker.metadata part) "totalParts"
         = (if (i + 1 =? n)%nat then Some (Any.number (JS.of_nat n))
            else JS.get (Chunker.metadata chunk) "totalParts")
      /\ forall key, key <> "partNumber" -> key <> "totalParts" ->
           JS.get (Chunker.metadata part) key
           = JS.get (Chunker.metadata chunk) key.
Proof.
  cbv zeta.
  destruct (Chunker.estimateTokens (Chunker.chunkContent chunk)
            <=? orDefault maxTokens 1500)%Z eqn:E.
  - unfold Chunker.splitLargeChunk. rewrite E. reflexivity.
  - destruct (splitLargeChunk_groups chunk _ E) as (groups & Heq & _).
    assert (Hm : Chunker.splitLargeChunk chunk maxTokens
                 = Chunker.splitLargeChunk chunk (Some (orDefault maxTokens 1500%Z)))
      by reflexivity.
    rewrite Hm, Heq, mapIndex_length. intros i part Hi.
    rewrite nth_error_mapIndex in Hi.
    destruct (nth_error groups i) as [g|]; [|discriminate].
    injection Hi as <-. simpl. unfold partOf. simpl.
    destruct (i + 1 =? List.length groups)%nat eqn:En.
    + apply Nat.eqb_eq in En. rewrite <- En. repeat split.
      * rewrite get_set_other by discriminate. apply get_set_same.
      * apply get_set_same.
      * intros key H1 H2.
        rewrite !get_set_other by (intros H; symmetry in H; contradiction).
        reflexivity.
    + repeat split.
      * apply get_set_same.
      * apply get_set_other. discriminate.
      * intros key H1 H2.
        rewrite get_set_other by (intros H; symmetry in H; contradiction).
        reflexivity.
Qed.

(** X17. The size of the parts.  Every part either is within the limit by
    the estimate of its content, or is a single line of the chunk, or is
    made of several lines whose estimates sum up to the limit at most.  In
    the last case its own estimate can be above the limit, the line breaks
    between the lines being counted in it: four times the estimate is at
    most four times the limit plus the number of its lines plus two, so
    the estimate exceeds the limit by at most a quarter of a token for
    each line and half a token more (by one token for two lines). *)
Theorem splitLargeChunk_size (chunk : Chunker.ProductChunk)
  (maxTokens : option Z) (part : Chunker.ProductChunk) :
  let limit := orDefault maxTokens 1500%Z in
  let lines := Chunker.linesOf (Chunker.chunkContent part) in
  In part (Chunker.splitLargeChunk chunk maxTokens) ->
  (Chunker.estimateTokens (Chunker.chunkContent part) <= limit)%Z
  \/ (exists line, lines = [line]
                   /\ In line (Chunker.linesOf (Chunker.chunkContent chunk)))
  \/ ((Chunker.sumTokens lines <= limit)%Z
      /\ (4 * Chunker.estimateTokens (Chunker.chunkContent part)
          <= 4 * limit + Z.of_nat (List.length lines) + 2)%Z).
Proof.
  cbv zeta. intros Hin.
  destruct (Chunker.estimateTokens (Chunker.chunkContent chunk)
            <=? orDefault maxTokens 1500)%Z eqn:E.
  - left. unfold Chunker.splitLargeChunk in Hin. rewrite E in Hin.
    destruct Hin as [<-|[]]. apply Z.leb_le. exact E.
  - right.
    destruct (splitLargeChunk_groups chunk _ E)
      as (groups & Heq & _ & Hnonempty & Hfit & Hlines).
    change (Chunker.splitLargeChunk chunk maxTokens)
      with (Chunker.splitLargeChunk chunk (Some (orDefault maxTokens 1500%Z)))
      in Hin.
    rewrite Heq in Hin. apply In_nth_error in Hin. destruct Hin as (i & Hi).
    rewrite nth_error_mapIndex in Hi.
    destruct (nth_error groups i) as [g|] eqn:Eg; [|discriminate].
    injection Hi as <-. apply nth_error_In in Eg.
    rewrite Forall_forall in Hnonempty, Hfit.
    pose proof (Hnonempty g Eg) as Hg. pose proof (Hfit g Eg) as Hgfit.
    assert (Hsub : forall line, In line g ->
                     In line (Chunker.linesOf (Chunker.chunkContent chunk))).
    { intros line Hline. rewrite <- Hlines. apply in_concat.
      exists g. split; assumption. }
    assert (Hback : Chunker.linesOf (JSString.join nl g) = g).
    { apply split_join; [exact Hg|]. intros line Hline.
      apply (split_pieces nl (Chunker.chunkContent chunk)).
      apply Hsub. exact Hline. }
    unfold partOf. cbn [Chunker.chunkContent]. rewrite Hback.
    destruct Hgfit as [H1|Hsum].
    + left. destruct g as [|line [|y g]]; try discriminate.
      exists line. split; [reflexivity|]. apply Hsub. left. reflexivity.
    + right. split; [exact Hsum|].
      pose proof (estimateTokens_join g Hg). lia.
Qed.

End ChunkerGuarantees.

(** A chunk of three lines of two tokens each, split at four tokens,
    gives a part of two lines and a part of one. *)
Example splitLargeChunk_run :
  map (fun part => (Chunker.chunkContent part, Chunker.metadata part))
      (Chunker.splitLargeChunk Chunker.threeLines (Some 4%Z))
  = [(JSString.join JSString.newline ["line one"; "line two"],
      [("productName", Any.text "soap"); ("partNumber", Any.number 1)]);
     ("line six",
      [("productName", Any.text "soap"); ("partNumber", Any.number 2);
       ("totalParts", Any.number 2)])].
Proof. vm_compute. reflexivity. Qed.

(** The bound on the estimate of a part is attained: three lines of one
    token each, split at two tokens, give a first part of two lines that
    is estimated at three tokens. *)
Example splitLargeChunk_over_limit :
  let chunk :=
    Chunker.mk (Chunker.chunkType Chunker.threeLines)
      (JSString.join JSString.newline ["abcd"; "efgh"; "ijkl"])
      (Chunker.metadata Chunker.threeLines) in
  map (fun part => (Chunker.chunkContent part,
                    Chunker.estimateTokens (Chunker.chunkContent part)))
      (Chunker.splitLargeChunk chunk (Some 2%Z))
  = [(JSString.join JSString.newline ["abcd"; "efgh"], 3%Z); ("ijkl", 1%Z)].
Proof. vm_compute. reflexivity. Qed.

(** ** The embedder *)

Section BatchFacts.
Variable A : Type.

Lemma firstn_add (l : list A) : forall i n,
  firstn (i + n) l = firstn i l ++ firstn n (skipn i l).
Proof.
  induction l as [|x l IH]; intros [|i] n; simpl; try reflexivity.
  - rewrite firstn_nil. reflexivity.
  - rewrite IH. reflexivity.
Qed.

Lemma slice_batch (l : list A) i n :
  JSArray.slice i (i + n) l = firstn n (skipn i l).
Proof.
  unfold JSArray.slice. replace (i + n - i)%nat with n by lia. reflexivity.
Qed.

Lemma skipn_nonempty (l : list A) i :
  (i < List.length l)%nat -> skipn i l <> [].
Proof.
  intros Hi H. apply (f_equal (@List.length A)) in H.
  rewrite length_skipn in H. simpl in H. lia.
Qed.

End BatchFacts.

Section EmbedderFacts.
Variable embeddings_create : list string -> option (list Pg.vector).
Variable embedDim : nat.

Local Abbreviation batchLoop := (Embedder.batchLoop embeddings_create).
Local Abbreviation generateEmbeddings :=
  (Embedder.generateEmbeddings embeddings_create).

(** A request for a single text is one call of the service. *)
Lemma generateEmbeddings_single text :
  generateEmbeddings [text] = embeddings_create [text].
Proof.
  unfold Embedder.generateEmbeddings. simpl.
  unfold JSArray.slice. simpl.
  destruct (embeddings_create [text]); reflexivity.
Qed.

(** X19. The guard of [createQueryEmbedding].  It returns an embedding
    exactly when the service, called once with the query alone, answers
    with a list whose first embedding has [embedDim] components, and it
    returns that embedding; in every other case it throws. *)
Theorem createQueryEmbedding_dimension (query : string) (e : Pg.vector) :
  Embedder.createQueryEmbedding embeddings_create embedDim query = Some e
  <-> exists embeddings,
        embeddings_create [query] = Some embeddings
        /\ nth_error embeddings 0 = Some e
        /\ List.length e = embedDim.
Proof.
  unfold Embedder.createQueryEmbedding, Embedder.generateSingleEmbedding,
    Embedder.validateEmbeddingDimensions.
  rewrite generateEmbeddings_single. split.
  - destruct (embeddings_create [query]) as [embeddings|]; [|discriminate].
    simpl. destruct embeddings as [|e0 embeddings]; [discriminate|].
    destruct (List.length e0 =? embedDim)%nat eqn:E; [|discriminate].
    intros [= <-]. exists (e0 :: embeddings).
    apply Nat.eqb_eq in E. auto.
  - intros (embeddings & -> & Hnth & Hlen). simpl.
    destruct embeddings as [|e0 embeddings]; [discriminate|].
    simpl in Hnth. injection Hnth as ->.
    rewrite (proj2 (Nat.eqb_eq _ _) Hlen). reflexivity.
Qed.

Variable embed : string -> Pg.vector.

(** The service answers a request of one to [batchSize] texts with the
    embedding of each text, in order. *)
Hypothesis service :
  forall input, input <> [] -> (List.length input <= Embedder.batchSize)%nat ->
    embeddings_create input = Some (map embed input).

Lemma batchLoop_map texts : forall fuel i embeddings,
  embeddings = map embed (firstn i texts) ->
  (List.length texts <= i + Embedder.batchSize * fuel)%nat ->
  batchLoop fuel texts i embeddings = Some (map embed texts).
Proof.
  induction fuel as [|fuel IH]; intros i embeddings Hacc Hfuel; simpl.
  - rewrite Hacc, firstn_all2 by lia. reflexivity.
  - destruct (i <? List.length texts)%nat eqn:E.
    + apply Nat.ltb_lt in E. rewrite slice_batch.
      rewrite service.
      * apply IH; [|lia].
        rewrite Hacc, firstn_add, map_app. reflexivity.
      * pose proof (skipn_nonempty _ texts i E) as Hs.
        destruct (skipn i texts); [contradiction|].
        unfold Embedder.batchSize. simpl. discriminate.
      * apply firstn_le_length.
    + apply Nat.ltb_ge in E. rewrite Hacc, firstn_all2 by lia. reflexivity.
Qed.

(** X18. Batching is transparent.  When the service answers every
    request of one to twenty texts with one embedding for each text, in
    order, [generateEmbeddings] returns the embedding of every text, in
    order, for any number of texts; [generateSingleEmbedding] returns the
    embedding of its text and [generateChunkEmbeddings] pairs every chunk
    with the embedding of its own content.  The service is never called
    with an empty request or with more than twenty texts. *)
Theorem generateEmbeddings_in_order :
  (forall texts,
      generateEmbeddings texts = Some (map embed texts))
  /\ (forall text,
        Embedder.generateSingleEmbedding embeddings_create text
        = Some (Some (embed text)))
  /\ (forall (Chunk : Type) (chunkContent : Chunk -> string) chunks,
        Embedder.generateChunkEmbeddings embeddings_create chunkContent chunks
        = Some (map (fun chunk => (chunk, Some (embed (chunkContent chunk))))
                    chunks)).
Proof.
  assert (Hall : forall texts, generateEmbeddings texts = Some (map embed texts)).
  { intros texts. unfold Embedder.generateEmbeddings.
    destruct texts as [|text texts]; [reflexivity|].
    cbn [List.length Nat.eqb].
    apply batchLoop_map; [reflexivity|]. unfold Embedder.batchSize.
    simpl. lia. }
  split; [exact Hall|]. split.
  - intros text. unfold Embedder.generateSingleEmbedding.
    rewrite Hall. reflexivity.
  - intros Chunk chunkContent chunks. unfold Embedder.generateChunkEmbeddings.
    rewrite Hall. simpl. f_equal.
    assert (Hgen : forall done rest,
               JSArray.mapIndex
                 (fun chunk index =>
                    (chunk,
                     nth_error (map embed (map chunkContent (done ++ rest)))
                               index))
                 (List.length done) rest
               = map (fun chunk => (chunk, Some (embed (chunkContent chunk))))
                     rest).
    { intros done rest. revert done.
      induction rest as [|c rest IH]; intros done; [reflexivity|].
      cbn [JSArray.mapIndex map]. f_equal.
      - f_equal. rewrite !map_app, nth_error_app2 by (rewrite !length_map; lia).
        rewrite !length_map, Nat.sub_diag. reflexivity.
      - specialize (IH (done ++ [c])).
        rewrite <- app_assoc, length_app, Nat.add_1_r in IH. exact IH. }
    apply (Hgen [] chunks).
Qed.

End EmbedderFacts.

(** Forty-five texts, sent in three requests, come back as forty-five
    embeddings, each of its own text. *)
Lemma generateEmbeddings_in_order_witness :
  Embedder.generateEmbeddings Embedder.lengthService (repeat "chunk" 45)
  = Some (map Embedder.lengthEmbedding (repeat "chunk" 45)).
Proof.
  apply (generateEmbeddings_in_order Embedder.lengthService
           Embedder.lengthEmbedding).
  intros input Hne Hlen. unfold Embedder.lengthService.
  destruct input as [|text input]; [contradiction|].
  apply Nat.leb_le in Hlen. rewrite Hlen. reflexivity.
Defined.

(** ** [cosineSimilarity] *)

Module CosineFacts.

Lemma SFmul_comm X Y : SF64mul X Y = SF64mul Y X.
Proof.
  unfold SF64mul, SFmul.
  destruct X as [sx|sx| |sx mx ex], Y as [sy|sy| |sy my ey];
    try reflexivity; rewrite (xorb_comm sx sy); try reflexivity.
  rewrite (Pos.mul_comm mx my), (Z.add_comm ex ey). reflexivity.
Qed.

Lemma mul_comm x y : x * y = y * x.
Proof.
  rewrite <- (SF2Prim_Prim2SF (x * y)), <- (SF2Prim_Prim2SF (y * x)).
  rewrite !mul_spec, SFmul_comm. reflexivity.
Qed.

(** A zero is [0] or [-0]. *)
Lemma is_zero_cases x : is_zero x = true -> x = 0 \/ x = -0.
Proof.
  rewrite FloatFacts.is_zero_spec. intros H.
  rewrite <- (SF2Prim_Prim2SF x).
  destruct (Prim2SF x) as [[|]| | |]; try discriminate; auto.
Qed.

Lemma zero_square x : is_zero x = true -> 0 + x * x = 0.
Proof. intros H. destruct (is_zero_cases x H) as [-> | ->]; reflexivity. Qed.

Lemma combine_swap (a : list float) : forall b : list float,
  List.combine b a
  = map (fun xy : float * float => (snd xy, fst xy)) (List.combine a b).
Proof.
  induction a as [|x a IH]; intros [|y b]; simpl; try reflexivity.
  rewrite IH. reflexivity.
Qed.

Lemma fold_addProducts_swap l : forall d na nb,
  fold_left Embedder.addProducts
            (map (fun xy : float * float => (snd xy, fst xy)) l) (d, nb, na)
  = let '(d', na', nb') := fold_left Embedder.addProducts l (d, na, nb) in
    (d', nb', na').
Proof.
  induction l as [|[x y] l IH]; intros d na nb; [reflexivity|].
  cbn [map fold_left].
  change (Embedder.addProducts (d, nb, na) (snd (x, y), fst (x, y)))
    with (d + y * x, nb + y * y, na + x * x).
  change (Embedder.addProducts (d, na, nb) (x, y))
    with (d + x * y, na + x * x, nb + y * y).
  rewrite (mul_comm y x). apply IH.
Qed.

Lemma fold_addProducts_zero_l l : forall d nb,
  (forall xy, In xy l -> is_zero (fst xy) = true) ->
  exists d' nb', fold_left Embedder.addProducts l (d, 0, nb) = (d', 0, nb').
Proof.
  induction l as [|[x y] l IH]; intros d nb H;
    [exists d, nb; reflexivity|].
  cbn [fold_left].
  change (Embedder.addProducts (d, 0, nb) (x, y))
    with (d + x * y, 0 + x * x, nb + y * y).
  rewrite zero_square by (apply (H (x, y)); left; reflexivity).
  apply IH. intros xy Hin. apply H. right. exact Hin.
Qed.

Lemma fold_addProducts_zero_r l : forall d na,
  (forall xy, In xy l -> is_zero (snd xy) = true) ->
  exists d' na', fold_left Embedder.addProducts l (d, na, 0) = (d', na', 0).
Proof.
  induction l as [|[x y] l IH]; intros d na H;
    [exists d, na; reflexivity|].
  cbn [fold_left].
  change (Embedder.addProducts (d, na, 0) (x, y))
    with (d + x * y, na + x * x, 0 + y * y).
  rewrite zero_square by (apply (H (x, y)); left; reflexivity).
  apply IH. intros xy Hin. apply H. right. exact Hin.
Qed.

End CosineFacts.

(** X20. [cosineSimilarity] is symmetric: for all vectors, equal in
    length or not, exchanging the arguments gives the same number or the
    same error, in the binary64 arithmetic of the code. *)
Theorem cosineSimilarity_symmetric (a b : list JS.number) :
  Embedder.cosineSimilarity a b = Embedder.cosineSimilarity b a.
Proof.
  unfold Embedder.cosineSimilarity.
  rewrite (Nat.eqb_sym (List.length b) (List.length a)).
  destruct (List.length a =? List.length b)%nat; [|reflexivity].
  cbn [negb]. rewrite (CosineFacts.combine_swap a b).
  rewrite CosineFacts.fold_addProducts_swap.
  destruct (fold_left Embedder.addProducts (List.combine a b) (0, 0, 0))
    as [[d na] nb].
  rewrite (orb_comm (sqrt nb =? 0)), (CosineFacts.mul_comm (sqrt nb)).
  reflexivity.
Qed.

(** X21. The edge cases of [cosineSimilarity].  It throws exactly when
    the two vectors differ in length.  For vectors of the same length of
    which one holds only zeros it returns [0], whatever the other vector
    holds: the division by a zero norm is not carried out. *)
Theorem cosineSimilarity_edges (a b : list JS.number) :
  (Embedder.cosineSimilarity a b = inl "Embeddings must have the same length"
   <-> List.length a <> List.length b)
  /\ (List.length a = List.length b ->
      (forall x, In x a -> is_zero x = true)
      \/ (forall y, In y b -> is_zero y = true) ->
      Embedder.cosineSimilarity a b = inr 0).
Proof.
  unfold Embedder.cosineSimilarity. split.
  - destruct (List.length a =? List.length b)%nat eqn:E; cbn [negb].
    + apply Nat.eqb_eq in E. split; [|contradiction].
      destruct (fold_left _ _ _) as [[d na] nb].
      destruct ((sqrt na =? 0) || (sqrt nb =? 0)); discriminate.
    + apply Nat.eqb_neq in E. split; [intros _; exact E|reflexivity].
  - intros Hlen Hzero. rewrite (proj2 (Nat.eqb_eq _ _) Hlen). cbn [negb].
    destruct Hzero as [Ha|Hb].
    + destruct (CosineFacts.fold_addProducts_zero_l (List.combine a b) 0 0)
        as (d & nb & ->).
      { intros [x y] Hin. apply in_combine_l in Hin. apply Ha. exact Hin. }
      reflexivity.
    + destruct (CosineFacts.fold_addProducts_zero_r (List.combine a b) 0 0)
        as (d & na & ->).
      { intros [x y] Hin. apply in_combine_r in Hin. apply Hb. exact Hin. }
      cbn iota. rewrite orb_comm. reflexivity.
Qed.

(** The zero vector against a vector that holds NaN. *)
Lemma cosineSimilarity_edges_witness :
  Embedder.cosineSimilarity [0; -0] [1; nan] = inr 0.
Proof.
  apply (cosineSimilarity_edges [0; -0] [1; nan]); [reflexivity|].
  left. intros x [<-|[<-|[]]]; reflexivity.
Defined.

(** ** Runs of the statements above *)

Section ResultRuns.
Local Existing Instance Fixture.collaborators.

(** The first result on [Runs.db_abc] is backed by a chunk above the
    default threshold. *)
Lemma vectorSearch_above_threshold_witness :
  exists c e,
    let r := hd Ranked.A (vectorSearch Runs.db_abc (Fixture.options "q")) in
    let s := 1 - cosine_distance e (generateEmbedding "q") in
    In c (productChunks_rows Runs.db_abc)
    /\ productChunks.productId c = SearchResult.productId r
    /\ productChunks.embedding c = Some e
    /\ Pg.float8_gt s 0.5 = true
    /\ (is_nan s = false -> (0.5 <? s) = true).
Proof.
  apply (vectorSearch_above_threshold Runs.db_abc (Fixture.options "q")).
  vm_compute. left. reflexivity.
Defined.

(** With [includeChunks], the first result on [Paged.db] carries chunks
    of its product. *)
Lemma vectorSearch_chunks_witness :
  exists chunks,
    SearchResult.chunks (hd Ranked.A (vectorSearch Paged.db options_chunks))
    = Some chunks
    /\ (List.length chunks <= 3)%nat
    /\ descendingBy ChunkResult.similarity chunks.
Proof.
  pose proof (vectorSearch_chunks Paged.db options_chunks
                (hd Ranked.A (vectorSearch Paged.db options_chunks))) as H.
  destruct (SearchResult.chunks _) as [chunks|].
  - exists chunks. split; [reflexivity|].
    destruct H as (_ & Hlen & Hsorted & _);
      [vm_compute; left; reflexivity|]. split; assumption.
  - exfalso. assert (Hf : true = false); [|discriminate].
    apply H. vm_compute. left. reflexivity.
Defined.

End ResultRuns.

(** The first part of the chunk of three lines, split at four tokens, is
    made of two lines that sum up to four tokens. *)
Lemma splitLargeChunk_size_witness :
  let part :=
    hd Chunker.threeLines
       (Chunker.splitLargeChunk Chunker.threeLines (Some 4%Z)) in
  let lines := Chunker.linesOf (Chunker.chunkContent part) in
  (Chunker.estimateTokens (Chunker.chunkContent part) <= 4)%Z
  \/ (exists line,
        lines = [line]
        /\ In line (Chunker.linesOf (Chunker.chunkContent Chunker.threeLines)))
  \/ ((Chunker.sumTokens lines <= 4)%Z
      /\ (4 * Chunker.estimateTokens (Chunker.chunkContent part)
          <= 4 * 4 + Z.of_nat (List.length lines) + 2)%Z).
Proof.
  apply (splitLargeChunk_size Chunker.threeLines (Some 4%Z)).
  vm_compute. left. reflexivity.
Defined.

(** ** Scores of the results and reranking *)

Section ScoreFacts.
Context {ext : Collaborators}.
Variable db : Database.

(** A ranked product carries the entry of its product in
    [productScores]. *)
Lemma topProducts_entry hits limit item :
  In item (topProducts (aggregate hits) limit) ->
  exists scores,
    JS.get (aggregate hits) (TopProduct.productId item) = Some scores
    /\ scores = scoresOf (chunksOf (TopProduct.productId item) hits)
    /\ TopProduct.combinedScore item = combinedScore scores.
Proof.
  unfold topProducts. intros H. apply firstn_In, sort_In in H.
  apply in_map_iff in H. destruct H as ([id sc] & <- & He). simpl.
  apply (In_get _ _ _ _ (aggregate_NoDup hits)) in He.
  exists sc. split; [exact He|]. split; [|reflexivity].
  rewrite aggregate_get in He.
  destruct (chunksOf id hits) as [|hit cs]; [discriminate|].
  injection He as <-. reflexivity.
Qed.

(** X23. The similarity of a result.  Reranked or not, the similarity of
    every result of [vectorSearch] is the combined score of its product:
    [maxSimilarity * 0.7 + avgSimilarity * 0.3] of the entry that the
    aggregation of the chunk hits holds for the product, which is made of
    the hits of that product alone. *)
Theorem vectorSearch_similarity (o : SearchOptions.t) (r : SearchResult.t) :
  In r (vectorSearch db o) ->
  exists scores,
    let hits := chunkResults db o in
    JS.get (aggregate hits) (SearchResult.productId r) = Some scores
    /\ scores = scoresOf (chunksOf (SearchResult.productId r) hits)
    /\ chunksOf (SearchResult.productId r) hits <> []
    /\ SearchResult.similarity r
       = Scores.maxSimilarity scores * 0.7 + Scores.avgSimilarity scores * 0.3.
Proof.
  intros Hr. apply resultsFrom_assembled in Hr.
  destruct (assemble_In db _ _ r Hr)
    as (item & p & Hitem & _ & _ & Hrid & Hsim & _).
  destruct (topProducts_entry _ _ item Hitem) as (scores & Hget & Hsc & Hcs).
  exists scores. cbv zeta. rewrite Hrid, Hsim, Hcs.
  split; [exact Hget|]. split; [exact Hsc|]. split; [|reflexivity].
  intros Hnil. rewrite aggregate_get, Hnil in Hget. discriminate.
Qed.

(** X24. Reranking and the plain ranking.  For the same store and
    options, the reranked results of [vectorSearch] are results of the
    plain search, each at most once and with the same fields; what is
    missing was dropped by the reranker.  The first result is the same in
    both. *)
Theorem vectorSearch_rerank (o : SearchOptions.t) :
  let plain := vectorSearch db (withRerank (Some false) o) in
  let reranked := vectorSearch db (withRerank (Some true) o) in
  (exists dropped, Permutation plain (reranked ++ dropped))
  /\ hd_error reranked = hd_error plain
  /\ incl reranked plain
  /\ (List.length reranked <= List.length plain)%nat.
Proof.
  cbv zeta. unfold vectorSearch, resultsFrom, chunkResults. simpl.
  set (top := topProducts _ _).
  destruct top as [|t top'] eqn:E.
  - repeat split; try reflexivity; [|intros x []].
    exists []. constructor.
  - rewrite <- E. set (results := assemble db _ top).
    destruct results as [|r results'] eqn:Er.
    + simpl. repeat split; try reflexivity; [|intros x []].
      exists []. constructor.
    + rewrite <- Er. replace (0 <? List.length results)%nat with true
        by (rewrite Er; reflexivity).
      destruct (rerankResults_split default_lambda (SearchOptions.query o)
                  results) as (dropped & Hperm & Hhd).
      split; [exists dropped; exact Hperm|]. split; [exact Hhd|].
      split; [apply rerankResults_incl|apply rerankResults_length].
Qed.

End ScoreFacts.

Section ScoreRuns.
Local Existing Instance Fixture.collaborators.

(** On [Paged.db] the first result is [P2], scored by its one chunk. *)
Lemma vectorSearch_similarity_witness :
  exists scores,
    let r := hd Ranked.A (vectorSearch Paged.db (Fixture.options "q")) in
    let hits := chunkResults Paged.db (Fixture.options "q") in
    JS.get (aggregate hits) (SearchResult.productId r) = Some scores
    /\ scores = scoresOf (chunksOf (SearchResult.productId r) hits)
    /\ chunksOf (SearchResult.productId r) hits <> []
    /\ SearchResult.similarity r
       = Scores.maxSimilarity scores * 0.7 + Scores.avgSimilarity scores * 0.3.
Proof.
  apply (vectorSearch_similarity Paged.db (Fixture.options "q")).
  vm_compute. left. reflexivity.
Defined.

End ScoreRuns.

(** ** The [vector] column type *)

Section VectorTypeFacts.
Variable Number_toString : JS.number -> string.
Variable Number : string -> JS.number.

Lemma dropLast_append c body :
  VectorType.dropLast c (body ++ String c EmptyString) = body.
Proof.
  induction body as [|d body IH]; simpl.
  - rewrite Ascii.eqb_refl. reflexivity.
  - rewrite IH. destruct body; reflexivity.
Qed.

Lemma stripBrackets_framed body :
  VectorType.stripBrackets ("[" ++ body ++ "]") = body.
Proof. simpl. apply dropLast_append. Qed.

(** X25. The round trip of the [vector] column type.  A vector that is
    not empty and whose numbers print without a comma and read back as
    themselves comes back from [fromDriver] as it went into [toDriver].
    The empty vector does not: it is written as [[]] and read back as a
    vector of one number, the reading of the empty string. *)
Theorem vector_round_trip :
  (forall value,
      value <> [] ->
      (forall x, In x value ->
         Number (Number_toString x) = x
         /\ JSString.contains VectorType.comma (Number_toString x) = false) ->
      VectorType.fromDriver Number
        (VectorType.toDriver Number_toString value) = value)
  /\ VectorType.toDriver Number_toString [] = "[]"
  /\ VectorType.fromDriver Number (VectorType.toDriver Number_toString [])
     = [Number ""].
Proof.
  split; [|split; reflexivity].
  intros value Hne H. unfold VectorType.fromDriver, VectorType.toDriver.
  rewrite stripBrackets_framed. rewrite split_join.
  - rewrite map_map. rewrite <- (map_id value) at 2.
    apply map_ext_in. intros x Hx. apply H. exact Hx.
  - destruct value; [contradiction|discriminate].
  - intros piece Hin. apply in_map_iff in Hin.
    destruct Hin as (x & <- & Hx). apply H. exact Hx.
Qed.

End VectorTypeFacts.

(** A vector of zeros and ones, with the printer and the reader for
    them. *)
Lemma vector_round_trip_witness :
  VectorType.fromDriver VectorType.readBit
    (VectorType.toDriver VectorType.printBit [1; 0; 1])
  = [1; 0; 1].
Proof.
  apply (vector_round_trip VectorType.printBit VectorType.readBit).
  - discriminate.
  - intros x [<-|[<-|[<-|[]]]]; split; reflexivity.
Defined.
